(** * Cat's SM64 Py Port: collision, action state machine, interaction, painter sort

    A shallow embedding of the gameplay core of [sm64_port-cat-edition-v0.py]
    (with the variants of [sm644k1.x.py], [catsctsm641.x.py] and
    [catsm644k1.x1.8.26.py] where they differ) and the properties of its
    collision queries, physics steps, action handlers, damage gate, object
    interaction and depth sort.

    Numbers.  Python [int] is [Z].  Python [float] is modelled by the exact
    rationals [Q]: comparisons, [min], [max], [abs] and the four arithmetic
    operations are the rational ones, so rounding, infinities and NaN are
    outside the model.  The transcendental functions of the [math] module are
    taken as an interface ([MathLib]).

    Exceptions.  The only operations of the modelled code that can raise are
    [min]/[max] over an empty vertex list and [verts[0]] on an empty list; a
    raising computation is [None] in the [option] monad. *)

From Stdlib Require Import ZArith QArith Qabs Qround Lia Lqa.
From stdpp Require Import base option list sorting gmap.

Local Open Scope Q_scope.

(** ** Python numerics on [Q] *)

Module PyNum.

Definition Qltb (a b : Q) : bool := negb (Qle_bool b a).
Definition Qgtb (a b : Q) : bool := Qltb b a.
Definition Qleb (a b : Q) : bool := Qle_bool a b.
Definition Qgeb (a b : Q) : bool := Qle_bool b a.

(** [min(a, b)] and [max(a, b)]: Python returns the first argument on ties. *)
Definition py_min2 (a b : Q) : Q := if Qltb b a then b else a.
Definition py_max2 (a b : Q) : Q := if Qltb a b then b else a.

(** [min(xs)] over an iterable: raises [ValueError] when it is empty. *)
Definition py_min (xs : list Q) : option Q :=
  match xs with
  | [] => None
  | a :: t => Some (foldl py_min2 a t)
  end.

Definition py_max (xs : list Q) : option Q :=
  match xs with
  | [] => None
  | a :: t => Some (foldl py_max2 a t)
  end.

(** Truth value of an integer bit test such as [c.pressed & IN_A]. *)
Definition bit_set (flags mask : Z) : bool := negb (Z.land flags mask =? 0)%Z.

End PyNum.
Export PyNum.

(** ** The [math] module *)

Class MathLib := {
  math_sin : Q -> Q;
  math_cos : Q -> Q;
  math_radians : Q -> Q;
  math_degrees : Q -> Q;
  math_sqrt : Q -> Q;
  math_atan2 : Q -> Q -> Q
}.

Definition sins `{MathLib} (d : Q) : Q := math_sin (math_radians d).
Definition coss `{MathLib} (d : Q) : Q := math_cos (math_radians d).

(** ** Data model *)

Record Vec3f := mkVec3f { vx : Q; vy : Q; vz : Q }.

(** [Vec3s] is declared with [int] fields, but the yaw stored in [face.y]
    takes fractional values ([approach_angle] steps by 11.25). *)
Record Vec3s := mkVec3s { sx : Q; sy : Q; sz : Q }.

Definition Color : Type := (Z * Z * Z)%type.

Record Surface := mkSurface {
  verts : list Vec3f;
  normal : Vec3f;
  stype : Z;
  color : Color;
  warp : Z
}.

(** The data-model invariant that every constructor of the source
    ([make_box], [make_quad]) establishes: a surface has vertices. *)
Definition surface_wf (s : Surface) : Prop := verts s <> [].

(** ** Collision *)

Definition SENTINEL_H : Q := -11000.0.
Definition STEP_ALLOWANCE : Q := 150.

(** The plane height [sy = d/ny] of [find_floor] at [(x, z)], from the
    first vertex [p1] and the normal. *)
Definition plane_y (x z : Q) (s : Surface) (p1 : Vec3f) : Q :=
  let ny := vy (normal s) in
  let nx := vx (normal s) in
  let nz := vz (normal s) in
  let d := - (x * nx + z * nz - (nx * vx p1 + ny * vy p1 + nz * vz p1)) in
  d / ny.

(** One iteration of the [for s in surfs] loop of [find_floor]; [thr] is
    the floor-eligibility threshold on [abs(ny)]. *)
Definition find_floor_body (thr x y z : Q) (acc : Q * option Surface) (s : Surface)
  : option (Q * option Surface) :=
  let '(h, fl) := acc in
  mn ← py_min (vx <$> verts s); let mnx := mn - 10 in
  mx ← py_max (vx <$> verts s); let mxx := mx + 10 in
  mn' ← py_min (vz <$> verts s); let mnz := mn' - 10 in
  mx' ← py_max (vz <$> verts s); let mxz := mx' + 10 in
  if Qltb x mnx || Qgtb x mxx || Qltb z mnz || Qgtb z mxz then Some (h, fl)
  else
    let ny := vy (normal s) in
    if Qltb (Qabs ny) thr then Some (h, fl)
    else
      p1 ← head (verts s);
      let sy := plane_y x z s p1 in
      if Qltb h sy && Qleb sy (y + STEP_ALLOWANCE) then Some (sy, Some s)
      else Some (h, fl).

Fixpoint find_floor_loop (thr x y z : Q) (acc : Q * option Surface) (surfs : list Surface)
  : option (Q * option Surface) :=
  match surfs with
  | [] => Some acc
  | s :: rest =>
      acc' ← find_floor_body thr x y z acc s;
      find_floor_loop thr x y z acc' rest
  end.

(** [find_floor] of [sm64_port-cat-edition-v0.py] and [catsctsm641.x.py];
    the global [surfs] is passed explicitly. *)
Definition find_floor (surfs : list Surface) (x y z : Q) : option (Q * option Surface) :=
  find_floor_loop 0.01 x y z (SENTINEL_H, None) surfs.

(** [find_floor] of [sm644k1.x.py]: the same loop with threshold 0.1 (its
    extra test [ny == 0] can never fire after [abs(ny) < 0.1]). *)
Definition find_floor_4k (x y z : Q) (surfaces : list Surface) : option (Q * option Surface) :=
  find_floor_loop 0.1 x y z (SENTINEL_H, None) surfaces.

Definition find_wall_body (x y z tx tz : Q) (s : Surface) : option bool :=
  let ny := vy (normal s) in
  if Qgtb (Qabs ny) 0.7 then Some false
  else
    mn ← py_min (vy <$> verts s); let mny := mn - 10 in
    mx ← py_max (vy <$> verts s); let mxy := mx + 10 in
    if Qltb y mny || Qgtb y mxy then Some false
    else
      p1 ← head (verts s);
      let nx := vx (normal s) in
      let nz := vz (normal s) in
      let d1 := (x - vx p1) * nx + (z - vz p1) * nz in
      let d2 := (tx - vx p1) * nx + (tz - vz p1) * nz in
      Some (Qgtb d1 0 && Qleb d2 0).

Fixpoint find_wall_loop (x y z tx tz : Q) (surfs : list Surface) : option (option Surface) :=
  match surfs with
  | [] => Some None
  | s :: rest =>
      hit ← find_wall_body x y z tx tz s;
      if hit : bool then Some (Some s) else find_wall_loop x y z tx tz rest
  end.

Definition find_wall (surfs : list Surface) (x y z dx dz : Q) : option (option Surface) :=
  let tx := x + dx * 2 in
  let tz := z + dz * 2 in
  find_wall_loop x y z tx tz surfs.

(** ** Character state *)

(** Action ids of [sm64_port-cat-edition-v0.py]. *)
Definition ACT_IDLE : Z := 0x001.
Definition ACT_WALKING : Z := 0x004.
Definition ACT_DECEL : Z := 0x005.
Definition ACT_CROUCH : Z := 0x008.
Definition ACT_JUMP : Z := 0x010.
Definition ACT_DBL_JUMP : Z := 0x011.
Definition ACT_TRIPLE : Z := 0x012.
Definition ACT_BACKFLIP : Z := 0x013.
Definition ACT_LONG_JUMP : Z := 0x014.
Definition ACT_WALLKICK : Z := 0x015.
Definition ACT_SIDEFLIP : Z := 0x016.
Definition ACT_FREEFALL : Z := 0x018.
Definition ACT_DIVE : Z := 0x01A.
Definition ACT_BELLY_SLIDE : Z := 0x01B.
Definition ACT_GROUND_POUND : Z := 0x025.
Definition ACT_GP_LAND : Z := 0x026.
Definition ACT_KNOCKBACK : Z := 0x040.
Definition ACT_LAVA_BOOST : Z := 0x042.
Definition ACT_STAR_DANCE : Z := 0x050.
Definition ACT_DEATH : Z := 0x051.

Definition GRAVITY : Q := -4.0.
Definition MAX_FALL : Q := -75.0.
Definition MAX_WALK : Q := 32.0.
Definition AIR_DRAG : Q := 0.98.

Definition IN_A : Z := 0x01.
Definition IN_B : Z := 0x02.
Definition IN_Z : Z := 0x04.
Definition IN_A_D : Z := 0x10.
Definition IN_Z_D : Z := 0x40.

Record Controller := mkController {
  stick_x : Q;
  stick_y : Q;
  stick_mag : Q;
  pressed : Z;
  down : Z
}.

Record MarioState := mkMario {
  pos : Vec3f;
  vel : Vec3f;
  fvel : Q;
  face : Vec3s;
  action : Z;
  prev_act : Z;
  astate : Z;
  atimer : Z;
  health : Z;
  coins : Z;
  stars : Z;
  lives : Z;
  floor : option Surface;
  floor_y : Q;
  wall : option Surface;
  imag : Q;
  iyaw : Q;
  peak_y : Q;
  jcount : Z;
  jtimer : Z;
  wktimer : Z;
  hurt : Z;
  inv : Z;
  lvl_stars : gmap Z (gset Z)
}.

Definition with_pos (v : Vec3f) (m : MarioState) : MarioState :=
  {| pos := v; vel := vel m; fvel := fvel m; face := face m; action := action m; prev_act :=
     prev_act m; astate := astate m; atimer := atimer m; health := health m; coins := coins m;
     stars := stars m; lives := lives m; floor := floor m; floor_y := floor_y m; wall := wall m;
     imag := imag m; iyaw := iyaw m; peak_y := peak_y m; jcount := jcount m; jtimer := jtimer m;
     wktimer := wktimer m; hurt := hurt m; inv := inv m; lvl_stars := lvl_stars m |}.

Definition with_vel (v : Vec3f) (m : MarioState) : MarioState :=
  {| pos := pos m; vel := v; fvel := fvel m; face := face m; action := action m; prev_act :=
     prev_act m; astate := astate m; atimer := atimer m; health := health m; coins := coins m;
     stars := stars m; lives := lives m; floor := floor m; floor_y := floor_y m; wall := wall m;
     imag := imag m; iyaw := iyaw m; peak_y := peak_y m; jcount := jcount m; jtimer := jtimer m;
     wktimer := wktimer m; hurt := hurt m; inv := inv m; lvl_stars := lvl_stars m |}.

Definition with_fvel (v : Q) (m : MarioState) : MarioState :=
  {| pos := pos m; vel := vel m; fvel := v; face := face m; action := action m; prev_act :=
     prev_act m; astate := astate m; atimer := atimer m; health := health m; coins := coins m;
     stars := stars m; lives := lives m; floor := floor m; floor_y := floor_y m; wall := wall m;
     imag := imag m; iyaw := iyaw m; peak_y := peak_y m; jcount := jcount m; jtimer := jtimer m;
     wktimer := wktimer m; hurt := hurt m; inv := inv m; lvl_stars := lvl_stars m |}.

Definition with_face (v : Vec3s) (m : MarioState) : MarioState :=
  {| pos := pos m; vel := vel m; fvel := fvel m; face := v; action := action m; prev_act :=
     prev_act m; astate := astate m; atimer := atimer m; health := health m; coins := coins m;
     stars := stars m; lives := lives m; floor := floor m; floor_y := floor_y m; wall := wall m;
     imag := imag m; iyaw := iyaw m; peak_y := peak_y m; jcount := jcount m; jtimer := jtimer m;
     wktimer := wktimer m; hurt := hurt m; inv := inv m; lvl_stars := lvl_stars m |}.

Definition with_action (v : Z) (m : MarioState) : MarioState :=
  {| pos := pos m; vel := vel m; fvel := fvel m; face := face m; action := v; prev_act :=
     prev_act m; astate := astate m; atimer := atimer m; health := health m; coins := coins m;
     stars := stars m; lives := lives m; floor := floor m; floor_y := floor_y m; wall := wall m;
     imag := imag m; iyaw := iyaw m; peak_y := peak_y m; jcount := jcount m; jtimer := jtimer m;
     wktimer := wktimer m; hurt := hurt m; inv := inv m; lvl_stars := lvl_stars m |}.

Definition with_prev_act (v : Z) (m : MarioState) : MarioState :=
  {| pos := pos m; vel := vel m; fvel := fvel m; face := face m; action := action m; prev_act
     := v; astate := astate m; atimer := atimer m; health := health m; coins := coins m; stars :=
     stars m; lives := lives m; floor := floor m; floor_y := floor_y m; wall := wall m; imag :=
     imag m; iyaw := iyaw m; peak_y := peak_y m; jcount := jcount m; jtimer := jtimer m; wktimer
     := wktimer m; hurt := hurt m; inv := inv m; lvl_stars := lvl_stars m |}.

Definition with_astate (v : Z) (m : MarioState) : MarioState :=
  {| pos := pos m; vel := vel m; fvel := fvel m; face := face m; action := action m; prev_act
     := prev_act m; astate := v; atimer := atimer m; health := health m; coins := coins m; stars
     := stars m; lives := lives m; floor := floor m; floor_y := floor_y m; wall := wall m; imag
     := imag m; iyaw := iyaw m; peak_y := peak_y m; jcount := jcount m; jtimer := jtimer m;
     wktimer := wktimer m; hurt := hurt m; inv := inv m; lvl_stars := lvl_stars m |}.

Definition with_atimer (v : Z) (m : MarioState) : MarioState :=
  {| pos := pos m; vel := vel m; fvel := fvel m; face := face m; action := action m; prev_act
     := prev_act m; astate := astate m; atimer := v; health := health m; coins := coins m; stars
     := stars m; lives := lives m; floor := floor m; floor_y := floor_y m; wall := wall m; imag
     := imag m; iyaw := iyaw m; peak_y := peak_y m; jcount := jcount m; jtimer := jtimer m;
     wktimer := wktimer m; hurt := hurt m; inv := inv m; lvl_stars := lvl_stars m |}.

Definition with_health (v : Z) (m : MarioState) : MarioState :=
  {| pos := pos m; vel := vel m; fvel := fvel m; face := face m; action := action m; prev_act
     := prev_act m; astate := astate m; atimer := atimer m; health := v; coins := coins m; stars
     := stars m; lives := lives m; floor := floor m; floor_y := floor_y m; wall := wall m; imag
     := imag m; iyaw := iyaw m; peak_y := peak_y m; jcount := jcount m; jtimer := jtimer m;
     wktimer := wktimer m; hurt := hurt m; inv := inv m; lvl_stars := lvl_stars m |}.

Definition with_coins (v : Z) (m : MarioState) : MarioState :=
  {| pos := pos m; vel := vel m; fvel := fvel m; face := face m; action := action m; prev_act
     := prev_act m; astate := astate m; atimer := atimer m; health := health m; coins := v; stars
     := stars m; lives := lives m; floor := floor m; floor_y := floor_y m; wall := wall m; imag
     := imag m; iyaw := iyaw m; peak_y := peak_y m; jcount := jcount m; jtimer := jtimer m;
     wktimer := wktimer m; hurt := hurt m; inv := inv m; lvl_stars := lvl_stars m |}.

Definition with_stars (v : Z) (m : MarioState) : MarioState :=
  {| pos := pos m; vel := vel m; fvel := fvel m; face := face m; action := action m; prev_act
     := prev_act m; astate := astate m; atimer := atimer m; health := health m; coins := coins m;
     stars := v; lives := lives m; floor := floor m; floor_y := floor_y m; wall := wall m; imag
     := imag m; iyaw := iyaw m; peak_y := peak_y m; jcount := jcount m; jtimer := jtimer m;
     wktimer := wktimer m; hurt := hurt m; inv := inv m; lvl_stars := lvl_stars m |}.

Definition with_lives (v : Z) (m : MarioState) : MarioState :=
  {| pos := pos m; vel := vel m; fvel := fvel m; face := face m; action := action m; prev_act
     := prev_act m; astate := astate m; atimer := atimer m; health := health m; coins := coins m;
     stars := stars m; lives := v; floor := floor m; floor_y := floor_y m; wall := wall m; imag
     := imag m; iyaw := iyaw m; peak_y := peak_y m; jcount := jcount m; jtimer := jtimer m;
     wktimer := wktimer m; hurt := hurt m; inv := inv m; lvl_stars := lvl_stars m |}.

Definition with_floor (v : option Surface) (m : MarioState) : MarioState :=
  {| pos := pos m; vel := vel m; fvel := fvel m; face := face m; action := action m; prev_act
     := prev_act m; astate := astate m; atimer := atimer m; health := health m; coins := coins m;
     stars := stars m; lives := lives m; floor := v; floor_y := floor_y m; wall := wall m; imag
     := imag m; iyaw := iyaw m; peak_y := peak_y m; jcount := jcount m; jtimer := jtimer m;
     wktimer := wktimer m; hurt := hurt m; inv := inv m; lvl_stars := lvl_stars m |}.

Definition with_floor_y (v : Q) (m : MarioState) : MarioState :=
  {| pos := pos m; vel := vel m; fvel := fvel m; face := face m; action := action m; prev_act
     := prev_act m; astate := astate m; atimer := atimer m; health := health m; coins := coins m;
     stars := stars m; lives := lives m; floor := floor m; floor_y := v; wall := wall m; imag :=
     imag m; iyaw := iyaw m; peak_y := peak_y m; jcount := jcount m; jtimer := jtimer m; wktimer
     := wktimer m; hurt := hurt m; inv := inv m; lvl_stars := lvl_stars m |}.

Definition with_wall (v : option Surface) (m : MarioState) : MarioState :=
  {| pos := pos m; vel := vel m; fvel := fvel m; face := face m; action := action m; prev_act
     := prev_act m; astate := astate m; atimer := atimer m; health := health m; coins := coins m;
     stars := stars m; lives := lives m; floor := floor m; floor_y := floor_y m; wall := v; imag
     := imag m; iyaw := iyaw m; peak_y := peak_y m; jcount := jcount m; jtimer := jtimer m;
     wktimer := wktimer m; hurt := hurt m; inv := inv m; lvl_stars := lvl_stars m |}.

Definition with_peak_y (v : Q) (m : MarioState) : MarioState :=
  {| pos := pos m; vel := vel m; fvel := fvel m; face := face m; action := action m; prev_act
     := prev_act m; astate := astate m; atimer := atimer m; health := health m; coins := coins m;
     stars := stars m; lives := lives m; floor := floor m; floor_y := floor_y m; wall := wall m;
     imag := imag m; iyaw := iyaw m; peak_y := v; jcount := jcount m; jtimer := jtimer m; wktimer
     := wktimer m; hurt := hurt m; inv := inv m; lvl_stars := lvl_stars m |}.

Definition with_jcount (v : Z) (m : MarioState) : MarioState :=
  {| pos := pos m; vel := vel m; fvel := fvel m; face := face m; action := action m; prev_act
     := prev_act m; astate := astate m; atimer := atimer m; health := health m; coins := coins m;
     stars := stars m; lives := lives m; floor := floor m; floor_y := floor_y m; wall := wall m;
     imag := imag m; iyaw := iyaw m; peak_y := peak_y m; jcount := v; jtimer := jtimer m; wktimer
     := wktimer m; hurt := hurt m; inv := inv m; lvl_stars := lvl_stars m |}.

Definition with_jtimer (v : Z) (m : MarioState) : MarioState :=
  {| pos := pos m; vel := vel m; fvel := fvel m; face := face m; action := action m; prev_act
     := prev_act m; astate := astate m; atimer := atimer m; health := health m; coins := coins m;
     stars := stars m; lives := lives m; floor := floor m; floor_y := floor_y m; wall := wall m;
     imag := imag m; iyaw := iyaw m; peak_y := peak_y m; jcount := jcount m; jtimer := v; wktimer
     := wktimer m; hurt := hurt m; inv := inv m; lvl_stars := lvl_stars m |}.

Definition with_wktimer (v : Z) (m : MarioState) : MarioState :=
  {| pos := pos m; vel := vel m; fvel := fvel m; face := face m; action := action m; prev_act
     := prev_act m; astate := astate m; atimer := atimer m; health := health m; coins := coins m;
     stars := stars m; lives := lives m; floor := floor m; floor_y := floor_y m; wall := wall m;
     imag := imag m; iyaw := iyaw m; peak_y := peak_y m; jcount := jcount m; jtimer := jtimer m;
     wktimer := v; hurt := hurt m; inv := inv m; lvl_stars := lvl_stars m |}.

Definition with_hurt (v : Z) (m : MarioState) : MarioState :=
  {| pos := pos m; vel := vel m; fvel := fvel m; face := face m; action := action m; prev_act
     := prev_act m; astate := astate m; atimer := atimer m; health := health m; coins := coins m;
     stars := stars m; lives := lives m; floor := floor m; floor_y := floor_y m; wall := wall m;
     imag := imag m; iyaw := iyaw m; peak_y := peak_y m; jcount := jcount m; jtimer := jtimer m;
     wktimer := wktimer m; hurt := v; inv := inv m; lvl_stars := lvl_stars m |}.

Definition with_inv (v : Z) (m : MarioState) : MarioState :=
  {| pos := pos m; vel := vel m; fvel := fvel m; face := face m; action := action m; prev_act
     := prev_act m; astate := astate m; atimer := atimer m; health := health m; coins := coins m;
     stars := stars m; lives := lives m; floor := floor m; floor_y := floor_y m; wall := wall m;
     imag := imag m; iyaw := iyaw m; peak_y := peak_y m; jcount := jcount m; jtimer := jtimer m;
     wktimer := wktimer m; hurt := hurt m; inv := v; lvl_stars := lvl_stars m |}.

Definition with_lvl_stars (v : gmap Z (gset Z)) (m : MarioState) : MarioState :=
  {| pos := pos m; vel := vel m; fvel := fvel m; face := face m; action := action m; prev_act
     := prev_act m; astate := astate m; atimer := atimer m; health := health m; coins := coins m;
     stars := stars m; lives := lives m; floor := floor m; floor_y := floor_y m; wall := wall m;
     imag := imag m; iyaw := iyaw m; peak_y := peak_y m; jcount := jcount m; jtimer := jtimer m;
     wktimer := wktimer m; hurt := hurt m; inv := inv m; lvl_stars := v |}.

(** Component updates such as [m.pos.x = v]. *)
Definition with_pos_x (v : Q) (m : MarioState) : MarioState :=
  with_pos (mkVec3f v (vy (pos m)) (vz (pos m))) m.
Definition with_pos_y (v : Q) (m : MarioState) : MarioState :=
  with_pos (mkVec3f (vx (pos m)) v (vz (pos m))) m.
Definition with_pos_z (v : Q) (m : MarioState) : MarioState :=
  with_pos (mkVec3f (vx (pos m)) (vy (pos m)) v) m.
Definition with_vel_x (v : Q) (m : MarioState) : MarioState :=
  with_vel (mkVec3f v (vy (vel m)) (vz (vel m))) m.
Definition with_vel_y (v : Q) (m : MarioState) : MarioState :=
  with_vel (mkVec3f (vx (vel m)) v (vz (vel m))) m.
Definition with_vel_z (v : Q) (m : MarioState) : MarioState :=
  with_vel (mkVec3f (vx (vel m)) (vy (vel m)) v) m.
Definition with_face_y (v : Q) (m : MarioState) : MarioState :=
  with_face (mkVec3s (sx (face m)) v (sz (face m))) m.

(** *** Methods of [MarioState] *)

Definition set_act (a : Z) (m : MarioState) : MarioState :=
  let m := with_prev_act (action m) m in
  let m := with_action a m in
  let m := with_astate 0%Z m in
  with_atimer 0%Z m.

Definition heal (amt : Z) (m : MarioState) : MarioState :=
  with_health (Z.min 0x880 (health m + amt)) m.

Definition take_dmg (amt : Z) (m : MarioState) : MarioState :=
  if (inv m >? 0)%Z then m
  else
    let m := with_health (Z.max 0 (health m - amt)) m in
    let m := with_hurt 10%Z m in
    with_inv 60%Z m.

Definition wedges (m : MarioState) : Z := Z.land (Z.shiftr (health m) 8) 0xF.

Definition has_star (l s : Z) (m : MarioState) : bool :=
  bool_decide (s ∈ default (∅ : gset Z) (lvl_stars m !! l)).

Definition get_star (l s : Z) (m : MarioState) : MarioState :=
  let m := match lvl_stars m !! l with
           | None => with_lvl_stars (<[l := (∅ : gset Z)]> (lvl_stars m)) m
           | Some _ => m
           end in
  let cur := default (∅ : gset Z) (lvl_stars m !! l) in
  if bool_decide (s ∈ cur) then m
  else
    let m := with_lvl_stars (<[l := cur ∪ {[s]}]> (lvl_stars m)) m in
    with_stars (stars m + 1)%Z m.

(** ** Scalar helpers *)

Definition approach_f32 (cur tgt inc : Q) : Q :=
  if Qltb cur tgt then py_min2 (cur + inc) tgt
  else if Qgtb cur tgt then py_max2 (cur - inc) tgt
  else cur.

(** Python's [x % m] on floats for a positive modulus: the result lies in
    [[0, m)]. *)
Definition py_fmod (x m : Q) : Q := x - m * inject_Z (Qfloor (x / m)).

Definition approach_angle (cur tgt inc : Q) : Q :=
  let d := py_fmod (tgt - cur + 180) 360 - 180 in
  if Qgtb d inc then cur + inc
  else if Qltb d (- inc) then cur - inc
  else tgt.

(** ** Physics steps *)

Inductive StepResult := Air | Land | Wall | Ground.

Definition StepResult_eqb (a b : StepResult) : bool :=
  match a, b with
  | Air, Air | Land, Land | Wall, Wall | Ground, Ground => true
  | _, _ => false
  end.

Section Physics.
Context `{MathLib}.

Definition update_air (m : MarioState) : MarioState :=
  let m := with_fvel (fvel m * AIR_DRAG) m in
  let m := with_vel_x (fvel m * sins (sy (face m))) m in
  let m := with_vel_z (fvel m * coss (sy (face m))) m in
  let m := with_vel_y (vy (vel m) + GRAVITY) m in
  if Qltb (vy (vel m)) MAX_FALL then with_vel_y MAX_FALL m else m.

Definition set_fvel (s : Q) (m : MarioState) : MarioState :=
  let m := with_fvel s m in
  let m := with_vel_x (s * sins (sy (face m))) m in
  with_vel_z (s * coss (sy (face m))) m.

Definition ground_step (surfs : list Surface) (m : MarioState)
  : option (StepResult * MarioState) :=
  let m := with_pos_x (vx (pos m) + vx (vel m)) m in
  let m := with_pos_z (vz (pos m) + vz (vel m)) m in
  '(fy, fl) ← find_floor surfs (vx (pos m)) (vy (pos m) + 100) (vz (pos m));
  let m := with_floor fl m in
  let m := with_floor_y fy m in
  if Qgtb (vy (pos m)) (fy + 10) then Some (Air, m)
  else Some (Ground, with_pos_y fy m).

(** One pass of the [for _ in range(4)] body of [air_step]: [inl] carries
    on with the next quarter step, [inr] is an early [return]. *)
Definition air_quarter (surfs : list Surface) (qx qy qz : Q) (m : MarioState)
  : option (MarioState + StepResult * MarioState) :=
  let m := with_pos_x (vx (pos m) + qx) m in
  let m := with_pos_y (vy (pos m) + qy) m in
  let m := with_pos_z (vz (pos m) + qz) m in
  '(fy, fl) ← find_floor surfs (vx (pos m)) (vy (pos m)) (vz (pos m));
  let m := with_floor fl m in
  let m := with_floor_y fy m in
  if Qleb (vy (pos m)) fy then Some (inr (Land, with_pos_y fy m))
  else
    w ← find_wall surfs (vx (pos m)) (vy (pos m) + 50) (vz (pos m))
                  (sins (sy (face m))) (coss (sy (face m)));
    match w with
    | Some _ =>
        let m := with_wall w m in
        let m := with_vel_x 0 m in
        let m := with_vel_z 0 m in
        let m := with_fvel 0 m in
        Some (inr (Wall, m))
    | None => Some (inl m)
    end.

Fixpoint air_step_loop (n : nat) (surfs : list Surface) (qx qy qz : Q) (m : MarioState)
  : option (StepResult * MarioState) :=
  match n with
  | O => Some (Air, m)
  | S n' =>
      r ← air_quarter surfs qx qy qz m;
      match r with
      | inl m' => air_step_loop n' surfs qx qy qz m'
      | inr res => Some res
      end
  end.

Definition air_step (surfs : list Surface) (m : MarioState)
  : option (StepResult * MarioState) :=
  let qx := vx (vel m) / 4 in
  let qy := vy (vel m) / 4 in
  let qz := vz (vel m) / 4 in
  air_step_loop 4 surfs qx qy qz m.

End Physics.

(** ** Actions

    A handler mutates the character in place and returns nothing; here it
    maps the state before the tick to the state after it. *)

Definition Handler : Type := list Surface -> MarioState -> Controller -> option MarioState.

Section Actions.
Context `{MathLib}.

Definition a_idle (surfs : list Surface) (m : MarioState) (c : Controller)
  : option MarioState :=
  let m := with_fvel 0 m in
  let m := with_vel_x 0 m in
  let m := with_vel_z 0 m in
  if bit_set (pressed c) IN_A then Some (set_act ACT_JUMP (with_jcount 0%Z m))
  else if bit_set (pressed c) IN_Z then Some (set_act ACT_CROUCH m)
  else if bit_set (pressed c) IN_B then Some (set_act ACT_DIVE m)
  else if Qgtb (stick_mag c) 0 then Some (set_act ACT_WALKING m)
  else '(_, m) ← ground_step surfs m; Some m.

Definition a_walk (surfs : list Surface) (m : MarioState) (c : Controller)
  : option MarioState :=
  if bit_set (pressed c) IN_A then
    if Qgtb (fvel m) 10 && bit_set (down c) IN_Z_D then Some (set_act ACT_LONG_JUMP m)
    else
      let m := with_jtimer 5%Z m in
      let m := with_jcount (jcount m + 1)%Z m in
      if (jcount m >=? 3)%Z && Qgtb (fvel m) 15 then Some (set_act ACT_TRIPLE m)
      else if (jcount m >=? 2)%Z then Some (set_act ACT_DBL_JUMP m)
      else Some (set_act ACT_JUMP m)
  else if bit_set (pressed c) IN_B then Some (set_act ACT_DIVE m)
  else if Qeq_bool (stick_mag c) 0 then Some (set_act ACT_DECEL m)
  else
    let m := with_face_y (approach_angle (sy (face m)) (iyaw m) 11.25) m in
    let tgt := stick_mag c * MAX_WALK in
    let m := with_fvel (if Qltb (fvel m) tgt then py_min2 (fvel m + 1.5) tgt
                        else py_max2 (fvel m - 1.0) tgt) m in
    let m := set_fvel (fvel m) m in
    '(r, m) ← ground_step surfs m;
    let m := if StepResult_eqb r Air then set_act ACT_FREEFALL m else m in
    if (jtimer m >? 0)%Z then Some (with_jtimer (jtimer m - 1)%Z m)
    else Some (with_jcount 0%Z m).

Definition a_decel (surfs : list Surface) (m : MarioState) (c : Controller)
  : option MarioState :=
  if bit_set (pressed c) IN_A then
    Some (set_act (if Qgtb (fvel m) 8 then ACT_SIDEFLIP else ACT_JUMP) m)
  else if Qgtb (stick_mag c) 0 then Some (set_act ACT_WALKING m)
  else
    let m := with_fvel (approach_f32 (fvel m) 0 2.0) m in
    let m := set_fvel (fvel m) m in
    let m := if Qltb (Qabs (fvel m)) 0.5 then set_act ACT_IDLE m else m in
    '(_, m) ← ground_step surfs m; Some m.

Definition a_crouch (surfs : list Surface) (m : MarioState) (c : Controller)
  : option MarioState :=
  let m := with_fvel 0 m in
  let m := with_vel_x 0 m in
  let m := with_vel_z 0 m in
  if negb (bit_set (down c) IN_Z_D) then Some (set_act ACT_IDLE m)
  else if bit_set (pressed c) IN_A then Some (set_act ACT_BACKFLIP m)
  else '(_, m) ← ground_step surfs m; Some m.

(** The landing target [ACT_WALKING if c.stick_mag > 0 else ACT_IDLE]. *)
Definition walk_or_idle (c : Controller) : Z :=
  if Qgtb (stick_mag c) 0 then ACT_WALKING else ACT_IDLE.

Definition a_jump (surfs : list Surface) (m : MarioState) (c : Controller)
  : option MarioState :=
  let m := if (atimer m =? 0)%Z
           then with_peak_y (vy (pos m)) (with_vel_y (42.0 + Qabs (fvel m) * 0.25) m)
           else m in
  if bit_set (pressed c) IN_Z then Some (set_act ACT_GROUND_POUND m)
  else if bit_set (pressed c) IN_B then Some (set_act ACT_DIVE m)
  else
    let m := update_air m in
    '(r, m) ← air_step surfs m;
    let m := if StepResult_eqb r Land then set_act (walk_or_idle c) m
             else if StepResult_eqb r Wall then set_act ACT_FREEFALL (with_wktimer 5%Z m)
             else m in
    Some (with_atimer (atimer m + 1)%Z m).

Definition a_dbl (surfs : list Surface) (m : MarioState) (c : Controller)
  : option MarioState :=
  let m := if (atimer m =? 0)%Z
           then with_peak_y (vy (pos m)) (with_vel_y (52.0 + Qabs (fvel m) * 0.2) m)
           else m in
  if bit_set (pressed c) IN_Z then Some (set_act ACT_GROUND_POUND m)
  else if bit_set (pressed c) IN_B then Some (set_act ACT_DIVE m)
  else
    let m := update_air m in
    '(r, m) ← air_step surfs m;
    let m := if StepResult_eqb r Land then set_act (walk_or_idle c) m
             else if StepResult_eqb r Wall then set_act ACT_FREEFALL (with_wktimer 5%Z m)
             else m in
    Some (with_atimer (atimer m + 1)%Z m).

Definition a_triple (surfs : list Surface) (m : MarioState) (c : Controller)
  : option MarioState :=
  let m := if (atimer m =? 0)%Z
           then with_peak_y (vy (pos m)) (with_vel_y 69.0 m)
           else m in
  if bit_set (pressed c) IN_Z then Some (set_act ACT_GROUND_POUND m)
  else
    let m := update_air m in
    '(r, m) ← air_step surfs m;
    let m := if StepResult_eqb r Land then set_act (walk_or_idle c) m else m in
    Some (with_atimer (atimer m + 1)%Z m).

Definition a_backflip (surfs : list Surface) (m : MarioState) (c : Controller)
  : option MarioState :=
  let m := if (atimer m =? 0)%Z
           then let m := with_vel_y 62.0 m in
                let m := with_fvel (-10.0) m in
                set_fvel (fvel m) m
           else m in
  let m := update_air m in
  '(r, m) ← air_step surfs m;
  let m := if StepResult_eqb r Land then set_act ACT_IDLE (with_fvel 0 m) else m in
  Some (with_atimer (atimer m + 1)%Z m).

Definition a_sideflip (surfs : list Surface) (m : MarioState) (c : Controller)
  : option MarioState :=
  let m := if (atimer m =? 0)%Z
           then let m := with_vel_y 62.0 m in
                let m := with_face_y (py_fmod (sy (face m) + 180) 360) m in
                let m := with_fvel 8.0 m in
                set_fvel (fvel m) m
           else m in
  let m := update_air m in
  '(r, m) ← air_step surfs m;
  let m := if StepResult_eqb r Land then set_act ACT_IDLE m else m in
  Some (with_atimer (atimer m + 1)%Z m).

Definition a_longjump (surfs : list Surface) (m : MarioState) (c : Controller)
  : option MarioState :=
  let m := if (atimer m =? 0)%Z
           then let m := with_vel_y 30.0 m in
                let m := with_fvel (py_min2 (fvel m * 1.5) 48.0) m in
                set_fvel (fvel m) m
           else m in
  let m := update_air m in
  '(r, m) ← air_step surfs m;
  let m := if StepResult_eqb r Land then set_act ACT_IDLE (with_fvel 0 m) else m in
  Some (with_atimer (atimer m + 1)%Z m).

Definition a_freefall (surfs : list Surface) (m : MarioState) (c : Controller)
  : option MarioState :=
  if bit_set (pressed c) IN_A && (wktimer m >? 0)%Z then
    let m := with_face_y (py_fmod (sy (face m) + 180) 360) m in
    let m := with_fvel 24.0 m in
    let m := set_fvel (fvel m) m in
    Some (set_act ACT_WALLKICK m)
  else if bit_set (pressed c) IN_Z then Some (set_act ACT_GROUND_POUND m)
  else if bit_set (pressed c) IN_B then Some (set_act ACT_DIVE m)
  else
    let m := update_air m in
    '(r, m) ← air_step surfs m;
    let m := if StepResult_eqb r Land then set_act (walk_or_idle c) m
             else if StepResult_eqb r Wall then with_wktimer 5%Z m
             else m in
    let m := if (wktimer m >? 0)%Z then with_wktimer (wktimer m - 1)%Z m else m in
    Some (with_atimer (atimer m + 1)%Z m).

Definition a_wallkick (surfs : list Surface) (m : MarioState) (c : Controller)
  : option MarioState :=
  let m := if (atimer m =? 0)%Z then with_vel_y 52.0 m else m in
  let m := update_air m in
  '(r, m) ← air_step surfs m;
  let m := if StepResult_eqb r Land then set_act (walk_or_idle c) m else m in
  Some (with_atimer (atimer m + 1)%Z m).

Definition a_dive (surfs : list Surface) (m : MarioState) (c : Controller)
  : option MarioState :=
  let m := if (atimer m =? 0)%Z
           then let m := with_vel_y 10.0 m in
                let m := with_fvel (py_max2 (fvel m) 32.0) m in
                set_fvel (fvel m) m
           else m in
  let m := update_air m in
  '(r, m) ← air_step surfs m;
  let m := if StepResult_eqb r Land then set_act ACT_BELLY_SLIDE m else m in
  Some (with_atimer (atimer m + 1)%Z m).

Definition a_belly (surfs : list Surface) (m : MarioState) (c : Controller)
  : option MarioState :=
  if bit_set (pressed c) IN_A then Some (set_act ACT_JUMP m)
  else
    let m := with_fvel (approach_f32 (fvel m) 0 1.0) m in
    let m := set_fvel (fvel m) m in
    let m := if Qltb (Qabs (fvel m)) 1.0 then set_act ACT_IDLE m else m in
    '(_, m) ← ground_step surfs m; Some m.

Definition a_gp (surfs : list Surface) (m : MarioState) (c : Controller)
  : option MarioState :=
  if (astate m =? 0)%Z then
    let m := with_fvel 0 m in
    let m := with_vel_x 0 m in
    let m := with_vel_z 0 m in
    let m := with_vel_y 0 m in
    let m := with_atimer (atimer m + 1)%Z m in
    if (atimer m >? 10)%Z then Some (with_vel_y (-60.0) (with_astate 1%Z m))
    else Some m
  else
    '(r, m) ← air_step surfs m;
    if StepResult_eqb r Land then Some (set_act ACT_GP_LAND m) else Some m.

Definition a_gpl (surfs : list Surface) (m : MarioState) (c : Controller)
  : option MarioState :=
  let m := with_atimer (atimer m + 1)%Z m in
  if (atimer m >? 5)%Z then
    if bit_set (pressed c) IN_A then Some (set_act ACT_JUMP m)
    else if Qgtb (stick_mag c) 0 then Some (set_act ACT_WALKING m)
    else if (atimer m >? 15)%Z then Some (set_act ACT_IDLE m)
    else Some m
  else Some m.

Definition a_knock (surfs : list Surface) (m : MarioState) (c : Controller)
  : option MarioState :=
  let m := if (atimer m =? 0)%Z
           then let m := with_vel_y 30.0 m in
                let m := with_fvel (-20.0) m in
                set_fvel (fvel m) m
           else m in
  let m := update_air m in
  '(r, m) ← air_step surfs m;
  let m := if StepResult_eqb r Land then set_act ACT_IDLE (with_fvel 0 m) else m in
  Some (with_atimer (atimer m + 1)%Z m).

Definition a_lava (surfs : list Surface) (m : MarioState) (c : Controller)
  : option MarioState :=
  let m := if (atimer m =? 0)%Z
           then let m := with_vel_y 60.0 m in
                let m := with_fvel 0 m in
                let m := with_vel_x 0 m in
                let m := with_vel_z 0 m in
                take_dmg 0x100 m
           else m in
  let m := update_air m in
  '(r, m) ← air_step surfs m;
  let m := if StepResult_eqb r Land then set_act ACT_IDLE m else m in
  Some (with_atimer (atimer m + 1)%Z m).

Definition a_star (surfs : list Surface) (m : MarioState) (c : Controller)
  : option MarioState :=
  let m := with_fvel 0 m in
  let m := with_vel_x 0 m in
  let m := with_vel_y 0 m in
  let m := with_vel_z 0 m in
  let m := with_atimer (atimer m + 1)%Z m in
  if (atimer m >? 90)%Z then Some (set_act ACT_IDLE m) else Some m.

Definition a_death (surfs : list Surface) (m : MarioState) (c : Controller)
  : option MarioState :=
  let m := with_fvel 0 m in
  let m := with_vel_x 0 m in
  let m := with_vel_z 0 m in
  let m := with_vel_y (py_max2 (vy (vel m) + GRAVITY) MAX_FALL) m in
  Some (with_pos_y (vy (pos m) + vy (vel m)) m).

(** The dispatch table, in the order of the source's dict literal. *)
Definition ACT_TABLE : list (Z * Handler) :=
  [ (ACT_IDLE, a_idle); (ACT_WALKING, a_walk); (ACT_DECEL, a_decel);
    (ACT_CROUCH, a_crouch); (ACT_JUMP, a_jump); (ACT_DBL_JUMP, a_dbl);
    (ACT_TRIPLE, a_triple); (ACT_BACKFLIP, a_backflip); (ACT_SIDEFLIP, a_sideflip);
    (ACT_LONG_JUMP, a_longjump); (ACT_WALLKICK, a_wallkick);
    (ACT_FREEFALL, a_freefall); (ACT_DIVE, a_dive); (ACT_BELLY_SLIDE, a_belly);
    (ACT_GROUND_POUND, a_gp); (ACT_GP_LAND, a_gpl); (ACT_KNOCKBACK, a_knock);
    (ACT_LAVA_BOOST, a_lava); (ACT_STAR_DANCE, a_star); (ACT_DEATH, a_death) ].

Definition ACT_MAP : gmap Z Handler := list_to_map ACT_TABLE.

(** [fn = ACT_MAP.get(mario.action, a_idle); fn(mario, ctrl)] of [main]. *)
Definition dispatch (surfs : list Surface) (m : MarioState) (c : Controller)
  : option MarioState :=
  let fn := default a_idle (ACT_MAP !! action m) in
  fn surfs m c.

(** The timer updates that follow the dispatch in the logic tick. *)
Definition tick_timers (m : MarioState) : MarioState :=
  let m := if (inv m >? 0)%Z then with_inv (inv m - 1)%Z m else m in
  if (hurt m >? 0)%Z then with_hurt (hurt m - 1)%Z m else m.

End Actions.

(** ** Objects and interaction *)

Inductive ObjType :=
  | COIN | COIN_RED | COIN_BLUE | STAR
  | GOOMBA | BOBOMB | BULLY | BOO
  | PIRANHA | KOOPA | AMP | THWOMP
  | CHAIN_CHOMP | KING_BOB | BIG_BOO | BOWSER
  | ONE_UP | TREE | PIPE | BOX.

(** The fields of the dataclass [Obj], prefixed with [o_] to keep them
    apart from the fields of [MarioState] and [Surface]. *)
Record Obj := mkObj {
  o_type : ObjType;
  o_pos : Vec3f;
  o_vel : Vec3f;
  o_angle : Q;
  o_radius : Q;
  o_height : Q;
  o_hp : Z;
  o_active : bool;
  o_timer : Z;
  o_state : Z;
  o_home : Vec3f;
  o_color : Color;
  o_collected : bool;
  o_irange : Q;
  o_scale : Q;
  o_dmg : Z;
  o_coins : Z;
  o_star_id : Z;
  o_warp : Z;
  o_spd : Q;
  o_pdir : Z;
  o_bob : Q;
  o_flash : Z
}.

Definition owith_hp (v : Z) (o : Obj) : Obj :=
  {| o_type := o_type o; o_pos := o_pos o; o_vel := o_vel o; o_angle := o_angle o; o_radius :=
     o_radius o; o_height := o_height o; o_hp := v; o_active := o_active o; o_timer := o_timer o;
     o_state := o_state o; o_home := o_home o; o_color := o_color o; o_collected := o_collected
     o; o_irange := o_irange o; o_scale := o_scale o; o_dmg := o_dmg o; o_coins := o_coins o;
     o_star_id := o_star_id o; o_warp := o_warp o; o_spd := o_spd o; o_pdir := o_pdir o; o_bob :=
     o_bob o; o_flash := o_flash o |}.

Definition owith_active (v : bool) (o : Obj) : Obj :=
  {| o_type := o_type o; o_pos := o_pos o; o_vel := o_vel o; o_angle := o_angle o; o_radius :=
     o_radius o; o_height := o_height o; o_hp := o_hp o; o_active := v; o_timer := o_timer o;
     o_state := o_state o; o_home := o_home o; o_color := o_color o; o_collected := o_collected
     o; o_irange := o_irange o; o_scale := o_scale o; o_dmg := o_dmg o; o_coins := o_coins o;
     o_star_id := o_star_id o; o_warp := o_warp o; o_spd := o_spd o; o_pdir := o_pdir o; o_bob :=
     o_bob o; o_flash := o_flash o |}.

Definition owith_collected (v : bool) (o : Obj) : Obj :=
  {| o_type := o_type o; o_pos := o_pos o; o_vel := o_vel o; o_angle := o_angle o; o_radius :=
     o_radius o; o_height := o_height o; o_hp := o_hp o; o_active := o_active o; o_timer :=
     o_timer o; o_state := o_state o; o_home := o_home o; o_color := o_color o; o_collected := v;
     o_irange := o_irange o; o_scale := o_scale o; o_dmg := o_dmg o; o_coins := o_coins o;
     o_star_id := o_star_id o; o_warp := o_warp o; o_spd := o_spd o; o_pdir := o_pdir o; o_bob :=
     o_bob o; o_flash := o_flash o |}.

Definition owith_flash (v : Z) (o : Obj) : Obj :=
  {| o_type := o_type o; o_pos := o_pos o; o_vel := o_vel o; o_angle := o_angle o; o_radius :=
     o_radius o; o_height := o_height o; o_hp := o_hp o; o_active := o_active o; o_timer :=
     o_timer o; o_state := o_state o; o_home := o_home o; o_color := o_color o; o_collected :=
     o_collected o; o_irange := o_irange o; o_scale := o_scale o; o_dmg := o_dmg o; o_coins :=
     o_coins o; o_star_id := o_star_id o; o_warp := o_warp o; o_spd := o_spd o; o_pdir := o_pdir
     o; o_bob := o_bob o; o_flash := v |}.

Definition owith_pos (v : Vec3f) (o : Obj) : Obj :=
  {| o_type := o_type o; o_pos := v; o_vel := o_vel o; o_angle := o_angle o; o_radius :=
     o_radius o; o_height := o_height o; o_hp := o_hp o; o_active := o_active o; o_timer :=
     o_timer o; o_state := o_state o; o_home := o_home o; o_color := o_color o; o_collected :=
     o_collected o; o_irange := o_irange o; o_scale := o_scale o; o_dmg := o_dmg o; o_coins :=
     o_coins o; o_star_id := o_star_id o; o_warp := o_warp o; o_spd := o_spd o; o_pdir := o_pdir
     o; o_bob := o_bob o; o_flash := o_flash o |}.

Definition owith_angle (v : Q) (o : Obj) : Obj :=
  {| o_type := o_type o; o_pos := o_pos o; o_vel := o_vel o; o_angle := v; o_radius :=
     o_radius o; o_height := o_height o; o_hp := o_hp o; o_active := o_active o; o_timer :=
     o_timer o; o_state := o_state o; o_home := o_home o; o_color := o_color o; o_collected :=
     o_collected o; o_irange := o_irange o; o_scale := o_scale o; o_dmg := o_dmg o; o_coins :=
     o_coins o; o_star_id := o_star_id o; o_warp := o_warp o; o_spd := o_spd o; o_pdir := o_pdir
     o; o_bob := o_bob o; o_flash := o_flash o |}.

Definition owith_timer (v : Z) (o : Obj) : Obj :=
  {| o_type := o_type o; o_pos := o_pos o; o_vel := o_vel o; o_angle := o_angle o; o_radius :=
     o_radius o; o_height := o_height o; o_hp := o_hp o; o_active := o_active o; o_timer := v;
     o_state := o_state o; o_home := o_home o; o_color := o_color o; o_collected := o_collected
     o; o_irange := o_irange o; o_scale := o_scale o; o_dmg := o_dmg o; o_coins := o_coins o;
     o_star_id := o_star_id o; o_warp := o_warp o; o_spd := o_spd o; o_pdir := o_pdir o; o_bob :=
     o_bob o; o_flash := o_flash o |}.

Definition owith_state (v : Z) (o : Obj) : Obj :=
  {| o_type := o_type o; o_pos := o_pos o; o_vel := o_vel o; o_angle := o_angle o; o_radius :=
     o_radius o; o_height := o_height o; o_hp := o_hp o; o_active := o_active o; o_timer :=
     o_timer o; o_state := v; o_home := o_home o; o_color := o_color o; o_collected :=
     o_collected o; o_irange := o_irange o; o_scale := o_scale o; o_dmg := o_dmg o; o_coins :=
     o_coins o; o_star_id := o_star_id o; o_warp := o_warp o; o_spd := o_spd o; o_pdir := o_pdir
     o; o_bob := o_bob o; o_flash := o_flash o |}.

Definition owith_pos_x (v : Q) (o : Obj) : Obj :=
  owith_pos (mkVec3f v (vy (o_pos o)) (vz (o_pos o))) o.
Definition owith_pos_y (v : Q) (o : Obj) : Obj :=
  owith_pos (mkVec3f (vx (o_pos o)) v (vz (o_pos o))) o.
Definition owith_pos_z (v : Q) (o : Obj) : Obj :=
  owith_pos (mkVec3f (vx (o_pos o)) (vy (o_pos o)) v) o.

Definition is_coin (t : ObjType) : bool :=
  match t with COIN | COIN_RED | COIN_BLUE => true | _ => false end.

(** The collectibles of [interact_objs]: coins, stars and one-ups. *)
Definition is_collectible (t : ObjType) : bool :=
  match t with COIN | COIN_RED | COIN_BLUE | STAR | ONE_UP => true | _ => false end.

Section Interaction.
Context `{MathLib}.

(** [d = math.sqrt(dx*dx + dy*dy + dz*dz)] between the character and [o]. *)
Definition obj_dist (mario : MarioState) (o : Obj) : Q :=
  let dx := vx (pos mario) - vx (o_pos o) in
  let dy := vy (pos mario) - vy (o_pos o) in
  let dz := vz (pos mario) - vz (o_pos o) in
  math_sqrt (dx * dx + dy * dy + dz * dz).

(** The guards at the top of the loop body of [interact_objs]: the object
    is skipped ([continue]) when this is [false]. *)
Definition interactable (mario : MarioState) (o : Obj) : bool :=
  if negb (o_active o) || o_collected o then false
  else negb (Qgtb (obj_dist mario o) (o_irange o + 30)).

Definition act_in (a : Z) (l : list Z) : bool := bool_decide (a ∈ l).

(** The loop body of [interact_objs] for one object: the character and the
    object after it, and [Some w] when the body executes
    [return ('warp', o.warp)].  The globals [cur_lvl] and [ctrl] are
    arguments; the particle emitter [ptcl], which nothing modelled here
    reads, is left out. *)
Definition interact_body (cur_lvl : Z) (ctrl : Controller) (mario : MarioState) (o : Obj)
  : MarioState * Obj * option Z :=
  if negb (interactable mario o) then (mario, o, None)
  else
    let dx := vx (pos mario) - vx (o_pos o) in
    let dz := vz (pos mario) - vz (o_pos o) in
    let d := obj_dist mario o in
    match o_type o with
    | COIN | COIN_RED | COIN_BLUE =>
        let o := owith_collected true o in
        let o := owith_active false o in
        let mario := with_coins (coins mario + o_coins o)%Z mario in
        let mario := heal (0x40 * o_coins o)%Z mario in
        (mario, o, None)
    | STAR =>
        if negb (has_star cur_lvl (o_star_id o) mario) then
          let o := owith_collected true o in
          let o := owith_active false o in
          let mario := get_star cur_lvl (o_star_id o) mario in
          let mario := set_act ACT_STAR_DANCE mario in
          (mario, o, None)
        else (mario, o, None)
    | ONE_UP =>
        let o := owith_collected true o in
        let o := owith_active false o in
        (with_lives (lives mario + 1)%Z mario, o, None)
    | PIPE =>
        if bit_set (pressed ctrl) IN_A then (mario, o, Some (o_warp o))
        else (mario, o, None)
    | GOOMBA | BOBOMB | KOOPA | PIRANHA =>
        if Qltb (vy (vel mario)) (-5) && Qgtb (vy (pos mario)) (vy (o_pos o) + 20) then
          let o := owith_active false o in
          let mario := with_vel_y 30.0 mario in
          (with_coins (coins mario + 1)%Z mario, o, None)
        else if act_in (action mario) [ACT_DIVE; ACT_GP_LAND] then
          (with_coins (coins mario + 1)%Z mario, owith_active false o, None)
        else
          (set_act ACT_KNOCKBACK (take_dmg (0x100 * o_dmg o)%Z mario), o, None)
    | BULLY =>
        if Qltb d (o_irange o) then
          let px := dx / py_max2 d 1 * 20 in
          let pz := dz / py_max2 d 1 * 20 in
          let mario := with_pos_x (vx (pos mario) + px) mario in
          let mario := with_pos_z (vz (pos mario) + pz) mario in
          (with_fvel 15 mario, o, None)
        else (mario, o, None)
    | BOO | BIG_BOO =>
        let fb := Qgtb (Qabs (math_degrees (math_atan2 (vx (o_pos o) - vx (pos mario))
                                                       (vz (o_pos o) - vz (pos mario)))
                              - sy (face mario))) 90 in
        if fb && act_in (action mario) [ACT_GROUND_POUND; ACT_GP_LAND] then
          let o := owith_hp (o_hp o - 1)%Z o in
          let o := owith_flash 10%Z o in
          if (o_hp o <=? 0)%Z then (mario, owith_active false o, None)
          else (mario, o, None)
        else if negb fb && Qltb d (o_irange o) then
          (set_act ACT_KNOCKBACK (take_dmg 0x100 mario), o, None)
        else (mario, o, None)
    | AMP => (set_act ACT_KNOCKBACK (take_dmg 0x100 mario), o, None)
    | THWOMP =>
        if (o_state o =? 1)%Z && Qltb d (o_irange o) then
          (set_act ACT_KNOCKBACK (take_dmg 0x200 mario), o, None)
        else (mario, o, None)
    | CHAIN_CHOMP => (set_act ACT_KNOCKBACK (take_dmg 0x300 mario), o, None)
    | KING_BOB | BOWSER =>
        if Qltb (vy (vel mario)) (-5) && Qgtb (vy (pos mario)) (vy (o_pos o) + 30) then
          let o := owith_hp (o_hp o - 1)%Z o in
          let o := owith_flash 15%Z o in
          let mario := with_vel_y 40.0 mario in
          if (o_hp o <=? 0)%Z then (mario, owith_active false o, None)
          else (mario, o, None)
        else (set_act ACT_KNOCKBACK (take_dmg 0x200 mario), o, None)
    | TREE | BOX => (mario, o, None)
    end.

(** [for o in objs: ...] with its early [return]; the objects after a
    returning one are not visited. *)
Fixpoint interact_loop (cur_lvl : Z) (ctrl : Controller) (mario : MarioState)
  (objs : list Obj) : MarioState * list Obj * option Z :=
  match objs with
  | [] => (mario, [], None)
  | o :: rest =>
      match interact_body cur_lvl ctrl mario o with
      | (mario, o, Some w) => (mario, o :: rest, Some w)
      | (mario, o, None) =>
          let '(mario, rest, r) := interact_loop cur_lvl ctrl mario rest in
          (mario, o :: rest, r)
      end
  end.

Definition interact_objs (cur_lvl : Z) (ctrl : Controller) (objs : list Obj)
  (mario : MarioState) : MarioState * list Obj * option Z :=
  interact_loop cur_lvl ctrl mario objs.

End Interaction.

(** ** Object AI *)

Section ObjectAI.
Context `{MathLib}.

(** The horizontal offset and distance from [(x, z)] to the character, as
    computed at the head of the chasing branches. *)
Definition chase_vec (mario : MarioState) (x z : Q) : Q * Q * Q :=
  let dx := vx (pos mario) - x in
  let dz := vz (pos mario) - z in
  (dx, dz, math_sqrt (dx * dx + dz * dz)).

(** The loop body of [update_objs] for one object; [if not o.active:
    continue] is its first line. *)
Definition update_obj (mario : MarioState) (frame : Z) (o : Obj) : Obj :=
  if negb (o_active o) then o
  else
    let fr := inject_Z frame in
    let o :=
      match o_type o with
      | COIN | COIN_RED | COIN_BLUE =>
          let o := owith_pos_y (vy (o_home o) + 30 + math_sin (fr * 0.08 + o_bob o) * 10) o in
          owith_angle (py_fmod (o_angle o + 6) 360) o
      | STAR =>
          let o := owith_pos_y (vy (o_home o) + 50 + math_sin (fr * 0.06 + o_bob o) * 15) o in
          owith_angle (py_fmod (o_angle o + 3) 360) o
      | ONE_UP =>
          owith_pos_y (vy (o_home o) + 30 + math_sin (fr * 0.07 + o_bob o) * 8) o
      | GOOMBA | BOBOMB | KOOPA =>
          let '(dx, dz, d) := chase_vec mario (vx (o_pos o)) (vz (o_pos o)) in
          if Qltb d 400 && Qgtb d 0 then
            let o := owith_pos_x (vx (o_pos o) + dx / d * o_spd o) o in
            let o := owith_pos_z (vz (o_pos o) + dz / d * o_spd o) o in
            owith_angle (math_degrees (math_atan2 dx dz)) o
          else
            let o := owith_timer (o_timer o + 1)%Z o in
            if (o_timer o mod 120 <? 60)%Z
            then owith_pos_x (vx (o_pos o) + o_spd o * inject_Z (o_pdir o)) o
            else owith_pos_x (vx (o_pos o) - o_spd o * inject_Z (o_pdir o)) o
      | BULLY =>
          let '(dx, dz, d) := chase_vec mario (vx (o_pos o)) (vz (o_pos o)) in
          if Qltb d 200 && Qgtb d 0 then
            let o := owith_pos_x (vx (o_pos o) + dx / d * o_spd o * 1.5) o in
            owith_pos_z (vz (o_pos o) + dz / d * o_spd o * 1.5) o
          else o
      | BOO | BIG_BOO =>
          let '(dx, dz, d) := chase_vec mario (vx (o_pos o)) (vz (o_pos o)) in
          let facing :=
            Qltb (Qabs (math_degrees (math_atan2 dx dz) - sy (face mario))) 90 in
          let o :=
            if negb facing && Qltb d 400 && Qgtb d 0 then
              let o := owith_pos_x (vx (o_pos o) + dx / d * 1.5) o in
              owith_pos_z (vz (o_pos o) + dz / d * 1.5) o
            else o in
          owith_pos_y (vy (o_home o) + math_sin (fr * 0.04) * 20) o
      | AMP =>
          let o := owith_timer (o_timer o + 1)%Z o in
          let r := o_scale o in
          let o := owith_pos_x (vx (o_home o) + r * sins (inject_Z (o_timer o * 3))) o in
          owith_pos_z (vz (o_home o) + r * coss (inject_Z (o_timer o * 3))) o
      | THWOMP =>
          let dx := Qabs (vx (pos mario) - vx (o_pos o)) in
          let dz := Qabs (vz (pos mario) - vz (o_pos o)) in
          if (o_state o =? 0)%Z then
            if Qltb dx 100 && Qltb dz 100 then owith_timer 0%Z (owith_state 1%Z o) else o
          else if (o_state o =? 1)%Z then
            let o := owith_pos_y (approach_f32 (vy (o_pos o)) (vy (o_home o) - 200) 15) o in
            if Qleb (vy (o_pos o)) (vy (o_home o) - 195)
            then owith_timer 0%Z (owith_state 2%Z o) else o
          else if (o_state o =? 2)%Z then
            let o := owith_timer (o_timer o + 1)%Z o in
            if (o_timer o >? 30)%Z then owith_state 3%Z o else o
          else if (o_state o =? 3)%Z then
            let o := owith_pos_y (approach_f32 (vy (o_pos o)) (vy (o_home o)) 3) o in
            if Qgeb (vy (o_pos o)) (vy (o_home o) - 1) then owith_state 0%Z o else o
          else o
      | CHAIN_CHOMP =>
          let o := owith_timer (o_timer o + 1)%Z o in
          if (o_timer o mod 90 <? 20)%Z then
            let '(dx, dz, d) := chase_vec mario (vx (o_home o)) (vz (o_home o)) in
            if Qltb d 300 && Qgtb d 0 then
              let o := owith_pos_x (vx (o_home o)
                         + dx / d * 100 * inject_Z (o_timer o mod 90) / 20) o in
              owith_pos_z (vz (o_home o)
                         + dz / d * 100 * inject_Z (o_timer o mod 90) / 20) o
            else o
          else
            let o := owith_pos_x (approach_f32 (vx (o_pos o)) (vx (o_home o)) 3) o in
            owith_pos_z (approach_f32 (vz (o_pos o)) (vz (o_home o)) 3) o
      | PIRANHA =>
          let o := owith_timer (o_timer o + 1)%Z o in
          let cy := (o_timer o mod 120)%Z in
          if (cy <? 30)%Z
          then owith_pos_y (approach_f32 (vy (o_pos o)) (vy (o_home o) + 60) 3) o
          else if (cy >? 90)%Z
          then owith_pos_y (approach_f32 (vy (o_pos o)) (vy (o_home o) - 20) 3) o
          else o
      | KING_BOB | BOWSER =>
          let '(dx, dz, d) := chase_vec mario (vx (o_pos o)) (vz (o_pos o)) in
          if Qltb d 500 && Qgtb d 0 then
            let o := owith_angle (math_degrees (math_atan2 dx dz)) o in
            if Qgtb d 100 then
              let o := owith_pos_x (vx (o_pos o) + dx / d * o_spd o) o in
              owith_pos_z (vz (o_pos o) + dz / d * o_spd o) o
            else o
          else o
      | TREE | PIPE | BOX => o
      end in
    if (o_flash o >? 0)%Z then owith_flash (o_flash o - 1)%Z o else o.

Definition update_objs (mario : MarioState) (frame : Z) (objs : list Obj) : list Obj :=
  update_obj mario frame <$> objs.

End ObjectAI.

(** *** Spawners

    [Obj(...)] with the defaults of the dataclass, and the two spawners of
    collectibles; the random phase [bob] is an argument. *)
Definition obj_default (t : ObjType) (p : Vec3f) : Obj := {|
  o_type := t; o_pos := p; o_vel := mkVec3f 0 0 0; o_angle := 0; o_radius := 50;
  o_height := 50; o_hp := 1; o_active := true; o_timer := 0; o_state := 0;
  o_home := mkVec3f 0 0 0; o_color := (255, 255, 0)%Z; o_collected := false;
  o_irange := 80; o_scale := 1.0; o_dmg := 1; o_coins := 0; o_star_id := 0;
  o_warp := (-1)%Z; o_spd := 1.5; o_pdir := 1; o_bob := 0; o_flash := 0
|}.

Definition sp_coin (x y z : Q) (t : ObjType) (bob : Q) : Obj :=
  let o := obj_default t (mkVec3f x (y + 30) z) in
  {| o_type := o_type o; o_pos := o_pos o; o_vel := o_vel o; o_angle := o_angle o;
     o_radius := 30; o_height := 30; o_hp := o_hp o; o_active := o_active o;
     o_timer := o_timer o; o_state := o_state o; o_home := mkVec3f x (y + 30) z;
     o_color := match t with
                | COIN_RED => (255, 50, 50)%Z
                | COIN_BLUE => (50, 100, 255)%Z
                | _ => (255, 215, 0)%Z
                end;
     o_collected := o_collected o; o_irange := 60; o_scale := o_scale o;
     o_dmg := o_dmg o;
     o_coins := match t with COIN_RED => 2 | COIN_BLUE => 5 | _ => 1 end;
     o_star_id := o_star_id o; o_warp := o_warp o; o_spd := o_spd o;
     o_pdir := o_pdir o; o_bob := bob; o_flash := o_flash o |}.

Definition sp_star (x y z : Q) (sid : Z) (bob : Q) : Obj :=
  let o := obj_default STAR (mkVec3f x (y + 50) z) in
  {| o_type := o_type o; o_pos := o_pos o; o_vel := o_vel o; o_angle := o_angle o;
     o_radius := 40; o_height := 40; o_hp := o_hp o; o_active := o_active o;
     o_timer := o_timer o; o_state := o_state o; o_home := mkVec3f x (y + 50) z;
     o_color := (255, 255, 100)%Z; o_collected := o_collected o; o_irange := 80;
     o_scale := o_scale o; o_dmg := o_dmg o; o_coins := o_coins o; o_star_id := sid;
     o_warp := o_warp o; o_spd := o_spd o; o_pdir := o_pdir o; o_bob := bob;
     o_flash := o_flash o |}.

Definition sp_pipe (x y z : Q) (tgt : Z) : Obj :=
  let o := obj_default PIPE (mkVec3f x y z) in
  {| o_type := o_type o; o_pos := o_pos o; o_vel := o_vel o; o_angle := o_angle o;
     o_radius := 50; o_height := 80; o_hp := o_hp o; o_active := o_active o;
     o_timer := o_timer o; o_state := o_state o; o_home := o_home o;
     o_color := (0, 180, 0)%Z; o_collected := o_collected o; o_irange := 50;
     o_scale := o_scale o; o_dmg := o_dmg o; o_coins := o_coins o;
     o_star_id := o_star_id o; o_warp := tgt; o_spd := o_spd o; o_pdir := o_pdir o;
     o_bob := o_bob o; o_flash := o_flash o |}.

(** ** Renderer: depth sort and draw loop *)

(** [list.sort(key=..., reverse=...)]: a stable sort.  [py_sort_insert]
    places [x], which comes later in the input than everything in [l],
    behind the elements whose key ties with its own. *)
Section PySort.
Context {A : Type} (key : A -> Q) (reverse : bool).

Definition sorts_before (x y : A) : bool :=
  if reverse then Qltb (key y) (key x) else Qltb (key x) (key y).

Fixpoint py_sort_insert (x : A) (l : list A) : list A :=
  match l with
  | [] => [x]
  | y :: t => if sorts_before x y then x :: y :: t else y :: py_sort_insert x t
  end.

Definition py_sort (l : list A) : list A :=
  foldl (fun acc x => py_sort_insert x acc) [] l.

End PySort.

(** The tags ['e'], ['o'], ['m'], ['s'], ['p'] of [rlist]. *)
Inductive RTag := TagE | TagO | TagM | TagS | TagP.

Definition is_shadow (rt : RTag) : bool :=
  match rt with TagS => true | _ => false end.

(** An entry [(az, fc, pv, rt)] of [polys]. *)
Definition Poly : Type := (Q * Color * list (Q * Q) * RTag)%type.

Definition poly_depth (p : Poly) : Q := let '(az, _, _, _) := p in az.

Inductive DrawCmd :=
  | DrawFill (col : Color) (pts : list (Q * Q))
  | DrawOutline (col : Color) (pts : list (Q * Q)) (width : Z).

Definition _cc (c : Color) : Color :=
  let '(r, g, b) := c in
  (Z.max 0 (Z.min 255 r), Z.max 0 (Z.min 255 g), Z.max 0 (Z.min 255 b)).

(** [polys.sort(key=lambda x:x[0], reverse=True)] of [render]. *)
Definition render_order (polys : list Poly) : list Poly :=
  py_sort poly_depth true polys.

Definition draw_poly (p : Poly) : list DrawCmd :=
  let '(z, col, pts, rt) := p in
  let col := _cc col in
  DrawFill col pts ::
  (if Qltb z 2000 && negb (is_shadow rt) then [DrawOutline (0, 0, 0)%Z pts 1%Z] else []).

(** The tail of [render]: sort, then draw each polygon in turn. *)
Definition render_draw (polys : list Poly) : list DrawCmd :=
  flat_map draw_poly (render_order polys).

(** An entry [(avg_depth, screen_pts, color)] of [projected_faces] in
    [render_faces] of [catsm644k1.x1.8.26.py], sorted with
    [projected_faces.sort(key=lambda f: -f[0])]. *)
Definition Face4k : Type := (Q * list (Z * Z) * Color)%type.

Definition face4k_depth (f : Face4k) : Q := let '(d, _, _) := f in d.

Definition render_faces_order (projected_faces : list Face4k) : list Face4k :=
  py_sort (fun f => - face4k_depth f) false projected_faces.

(** ** Geometry constructors *)

(** [int(v)] on a float: truncation toward zero. *)
Definition py_int (q : Q) : Z := Z.quot (Qnum q) (Z.pos (Qden q)).

(** [_cc] applied to a tuple of floats, as in [make_box]. *)
Definition _cc_f (c : Q * Q * Q) : Color :=
  let '(r, g, b) := c in _cc (py_int r, py_int g, py_int b).

Definition SURF_DEFAULT : Z := 0.
Definition SURF_LAVA : Z := 1.
Definition SURF_DEATH : Z := 3.

Definition make_box (x y z w h d : Q) (col : Color) (st wp : Z) : list Surface :=
  let hw := w / 2 in
  let hh := h / 2 in
  let hd := d / 2 in
  let '(c0, c1, c2) := col in
  let tc := _cc_f (inject_Z c0 * 1.15, inject_Z c1 * 1.15, inject_Z c2 * 1.15) in
  let dc := _cc_f (inject_Z c0 * 0.75, inject_Z c1 * 0.75, inject_Z c2 * 0.75) in
  [ mkSurface [mkVec3f (x - hw) (y + hh) (z - hd); mkVec3f (x + hw) (y + hh) (z - hd);
               mkVec3f (x + hw) (y + hh) (z + hd); mkVec3f (x - hw) (y + hh) (z + hd)]
              (mkVec3f 0 1 0) st tc wp;
    mkSurface [mkVec3f (x - hw) (y - hh) (z + hd); mkVec3f (x + hw) (y - hh) (z + hd);
               mkVec3f (x + hw) (y + hh) (z + hd); mkVec3f (x - hw) (y + hh) (z + hd)]
              (mkVec3f 0 0 1) st col wp;
    mkSurface [mkVec3f (x + hw) (y - hh) (z - hd); mkVec3f (x - hw) (y - hh) (z - hd);
               mkVec3f (x - hw) (y + hh) (z - hd); mkVec3f (x + hw) (y + hh) (z - hd)]
              (mkVec3f 0 0 (-1)) st col wp;
    mkSurface [mkVec3f (x - hw) (y - hh) (z - hd); mkVec3f (x - hw) (y - hh) (z + hd);
               mkVec3f (x - hw) (y + hh) (z + hd); mkVec3f (x - hw) (y + hh) (z - hd)]
              (mkVec3f (-1) 0 0) st dc wp;
    mkSurface [mkVec3f (x + hw) (y - hh) (z + hd); mkVec3f (x + hw) (y - hh) (z - hd);
               mkVec3f (x + hw) (y + hh) (z - hd); mkVec3f (x + hw) (y + hh) (z + hd)]
              (mkVec3f 1 0 0) st dc wp ].

Definition make_quad `{MathLib} (p1 p2 p3 p4 : Vec3f) (col : Color) (st : Z) : Surface :=
  let ux := vx p2 - vx p1 in
  let uy := vy p2 - vy p1 in
  let uz := vz p2 - vz p1 in
  let vx' := vx p3 - vx p1 in
  let vy' := vy p3 - vy p1 in
  let vz' := vz p3 - vz p1 in
  let nx := uy * vz' - uz * vy' in
  let ny := uz * vx' - ux * vz' in
  let nz := ux * vy' - uy * vx' in
  let m := math_sqrt (nx * nx + ny * ny + nz * nz) in
  let m := if Qltb m 0.0001 then 1 else m in
  mkSurface [p1; p2; p3; p4] (mkVec3f (nx / m) (ny / m) (nz / m)) st col (-1)%Z.

(** ** The slide kick of [catsctsm641.x.py]

    This variant has the same collision and physics code; its character
    carries a few more fields, its [set_act] also resets [anim_frame], and
    its [air_step] sets the landing squish before returning ['land']. *)

Module Catsct.

Definition ACT_SLIDE_KICK : Z := 0x018008AA.
Definition ACT_SLIDE_KICK_SL : Z := 0x00020449.

Record MarioStateX := mkMarioX {
  core : MarioState;
  punch_state : Z;
  punch_timer : Z;
  squish : Q;
  squish_vel : Q;
  anim_frame : Z;
  bob_phase : Q
}.

Definition with_core (v : MarioState) (m : MarioStateX) : MarioStateX :=
  {| core := v; punch_state := punch_state m; punch_timer := punch_timer m;
     squish := squish m; squish_vel := squish_vel m; anim_frame := anim_frame m;
     bob_phase := bob_phase m |}.

Definition with_squish (s sv : Q) (m : MarioStateX) : MarioStateX :=
  {| core := core m; punch_state := punch_state m; punch_timer := punch_timer m;
     squish := s; squish_vel := sv; anim_frame := anim_frame m;
     bob_phase := bob_phase m |}.

Definition with_anim_frame (v : Z) (m : MarioStateX) : MarioStateX :=
  {| core := core m; punch_state := punch_state m; punch_timer := punch_timer m;
     squish := squish m; squish_vel := squish_vel m; anim_frame := v;
     bob_phase := bob_phase m |}.

Definition set_act_x (a : Z) (m : MarioStateX) : MarioStateX :=
  with_anim_frame 0%Z (with_core (set_act a (core m)) m).

Section CatsctActions.
Context `{MathLib}.

(** The quarter-step loop touches the shared fields exactly as [air_step]
    does; the squish assignment sits on its ['land'] exit. *)
Definition air_step_x (surfs : list Surface) (m : MarioStateX)
  : option (StepResult * MarioStateX) :=
  '(r, c) ← air_step surfs (core m);
  let m := with_core c m in
  if StepResult_eqb r Land then Some (r, with_squish 0.6 0.15 m) else Some (r, m).

Definition a_slide_kick (surfs : list Surface) (m : MarioStateX) (c : Controller)
  : option MarioStateX :=
  let m := if (atimer (core m) =? 0)%Z
           then let k := with_vel_y 10.0 (core m) in
                let k := with_fvel (py_max2 (fvel k) 28.0) k in
                with_core (set_fvel (fvel k) k) m
           else m in
  let m := with_core (update_air (core m)) m in
  '(r, m) ← air_step_x surfs m;
  let m := if StepResult_eqb r Land then set_act_x ACT_SLIDE_KICK_SL m else m in
  Some (with_core (with_atimer (atimer (core m) + 1)%Z (core m)) m).

End CatsctActions.

End Catsct.

(** * Further parts of [sm64_port-cat-edition-v0.py]

    The helpers, constructors, spawners, particle emitter, renderer front
    end, health meter and logic tick that surround the functions above. *)

From Stdlib Require Import Qpower.

(** ** Scalar helper *)

Definition clamp (v lo hi : Q) : Q := py_max2 lo (py_min2 hi v).

(** [a / b] on floats where the divisor is not a literal: it raises
    [ZeroDivisionError] when [b] is zero. *)
Definition py_div (a b : Q) : option Q :=
  if Qeq_bool b 0 then None else Some (a / b).

(** ** Geometry constructors on top of [make_quad] and [make_box] *)

Definition make_ground `{MathLib} (x z w d y : Q) (col : Color) (st : Z) : Surface :=
  let hw := w / 2 in
  let hd := d / 2 in
  make_quad (mkVec3f (x - hw) y (z - hd)) (mkVec3f (x + hw) y (z - hd))
            (mkVec3f (x + hw) y (z + hd)) (mkVec3f (x - hw) y (z + hd)) col st.

Definition make_slope `{MathLib} (x1 y1 z1 x2 y2 z2 w : Q) (col : Color) (st : Z)
  : Surface :=
  let hw := w / 2 in
  make_quad (mkVec3f (x1 - hw) y1 z1) (mkVec3f (x1 + hw) y1 z1)
            (mkVec3f (x2 + hw) y2 z2) (mkVec3f (x2 - hw) y2 z2) col st.

(** [for i in range(n): r.extend(make_box(...))]; [dr] is the pair of
    direction factors. *)
Definition make_stairs (x y z : Q) (n : Z) (sw sh sd : Q) (dr : Q * Q) (col : Color)
  : list Surface :=
  flat_map (fun i : Z =>
              make_box (x + dr.1 * inject_Z i * sd) (y + inject_Z i * sh + sh / 2)
                       (z + dr.2 * inject_Z i * sd) sw sh sd col SURF_DEFAULT (-1)%Z)
           (seqZ 0 n).

(** ** The remaining spawners

    Each is [Obj(...)] with keyword arguments over the dataclass defaults,
    followed by the assignments of the source; a random phase is an
    argument. *)

Definition sp_goomba (x y z : Q) : Obj :=
  let o := obj_default GOOMBA (mkVec3f x y z) in
  {| o_type := o_type o; o_pos := o_pos o; o_vel := o_vel o; o_angle := o_angle o;
     o_radius := 40; o_height := 50; o_hp := o_hp o; o_active := o_active o;
     o_timer := o_timer o; o_state := o_state o; o_home := mkVec3f x y z;
     o_color := (150, 80, 30)%Z; o_collected := o_collected o; o_irange := 60;
     o_scale := o_scale o; o_dmg := 1; o_coins := o_coins o; o_star_id := o_star_id o;
     o_warp := o_warp o; o_spd := 1.5; o_pdir := o_pdir o; o_bob := o_bob o;
     o_flash := o_flash o |}.

Definition sp_bobomb (x y z : Q) : Obj :=
  let o := obj_default BOBOMB (mkVec3f x y z) in
  {| o_type := o_type o; o_pos := o_pos o; o_vel := o_vel o; o_angle := o_angle o;
     o_radius := 35; o_height := 45; o_hp := o_hp o; o_active := o_active o;
     o_timer := o_timer o; o_state := o_state o; o_home := mkVec3f x y z;
     o_color := (20, 20, 20)%Z; o_collected := o_collected o; o_irange := 60;
     o_scale := o_scale o; o_dmg := o_dmg o; o_coins := o_coins o;
     o_star_id := o_star_id o; o_warp := o_warp o; o_spd := 1.0; o_pdir := o_pdir o;
     o_bob := o_bob o; o_flash := o_flash o |}.

Definition sp_bully (x y z : Q) : Obj :=
  let o := obj_default BULLY (mkVec3f x y z) in
  {| o_type := o_type o; o_pos := o_pos o; o_vel := o_vel o; o_angle := o_angle o;
     o_radius := 50; o_height := 60; o_hp := 3; o_active := o_active o;
     o_timer := o_timer o; o_state := o_state o; o_home := mkVec3f x y z;
     o_color := (80, 80, 80)%Z; o_collected := o_collected o; o_irange := 70;
     o_scale := o_scale o; o_dmg := 0; o_coins := o_coins o; o_star_id := o_star_id o;
     o_warp := o_warp o; o_spd := 2.0; o_pdir := o_pdir o; o_bob := o_bob o;
     o_flash := o_flash o |}.

Definition sp_boo (x y z : Q) : Obj :=
  let o := obj_default BOO (mkVec3f x (y + 30) z) in
  {| o_type := o_type o; o_pos := o_pos o; o_vel := o_vel o; o_angle := o_angle o;
     o_radius := 50; o_height := 60; o_hp := o_hp o; o_active := o_active o;
     o_timer := o_timer o; o_state := o_state o; o_home := mkVec3f x (y + 30) z;
     o_color := (220, 220, 255)%Z; o_collected := o_collected o; o_irange := 70;
     o_scale := o_scale o; o_dmg := 1; o_coins := o_coins o; o_star_id := o_star_id o;
     o_warp := o_warp o; o_spd := o_spd o; o_pdir := o_pdir o; o_bob := o_bob o;
     o_flash := o_flash o |}.

Definition sp_piranha (x y z : Q) : Obj :=
  let o := obj_default PIRANHA (mkVec3f x y z) in
  {| o_type := o_type o; o_pos := o_pos o; o_vel := o_vel o; o_angle := o_angle o;
     o_radius := 40; o_height := 80; o_hp := o_hp o; o_active := o_active o;
     o_timer := o_timer o; o_state := o_state o; o_home := mkVec3f x y z;
     o_color := (20, 140, 20)%Z; o_collected := o_collected o; o_irange := 70;
     o_scale := o_scale o; o_dmg := 2; o_coins := o_coins o; o_star_id := o_star_id o;
     o_warp := o_warp o; o_spd := o_spd o; o_pdir := o_pdir o; o_bob := o_bob o;
     o_flash := o_flash o |}.

Definition sp_koopa (x y z : Q) : Obj :=
  let o := obj_default KOOPA (mkVec3f x y z) in
  {| o_type := o_type o; o_pos := o_pos o; o_vel := o_vel o; o_angle := o_angle o;
     o_radius := 40; o_height := 55; o_hp := o_hp o; o_active := o_active o;
     o_timer := o_timer o; o_state := o_state o; o_home := mkVec3f x y z;
     o_color := (50, 180, 50)%Z; o_collected := o_collected o; o_irange := 60;
     o_scale := o_scale o; o_dmg := o_dmg o; o_coins := o_coins o;
     o_star_id := o_star_id o; o_warp := o_warp o; o_spd := 1.8; o_pdir := o_pdir o;
     o_bob := o_bob o; o_flash := o_flash o |}.

Definition sp_amp (x y z r : Q) : Obj :=
  let o := obj_default AMP (mkVec3f x y z) in
  {| o_type := o_type o; o_pos := o_pos o; o_vel := o_vel o; o_angle := o_angle o;
     o_radius := 30; o_height := 30; o_hp := o_hp o; o_active := o_active o;
     o_timer := o_timer o; o_state := o_state o; o_home := mkVec3f x y z;
     o_color := (30, 30, 200)%Z; o_collected := o_collected o; o_irange := 50;
     o_scale := r; o_dmg := 1; o_coins := o_coins o; o_star_id := o_star_id o;
     o_warp := o_warp o; o_spd := o_spd o; o_pdir := o_pdir o; o_bob := o_bob o;
     o_flash := o_flash o |}.

Definition sp_thwomp (x y z : Q) : Obj :=
  let o := obj_default THWOMP (mkVec3f x y z) in
  {| o_type := o_type o; o_pos := o_pos o; o_vel := o_vel o; o_angle := o_angle o;
     o_radius := 60; o_height := 100; o_hp := o_hp o; o_active := o_active o;
     o_timer := o_timer o; o_state := o_state o; o_home := mkVec3f x y z;
     o_color := (130, 130, 150)%Z; o_collected := o_collected o; o_irange := 80;
     o_scale := o_scale o; o_dmg := 2; o_coins := o_coins o; o_star_id := o_star_id o;
     o_warp := o_warp o; o_spd := o_spd o; o_pdir := o_pdir o; o_bob := o_bob o;
     o_flash := o_flash o |}.

Definition sp_chomp (x y z : Q) : Obj :=
  let o := obj_default CHAIN_CHOMP (mkVec3f x y z) in
  {| o_type := o_type o; o_pos := o_pos o; o_vel := o_vel o; o_angle := o_angle o;
     o_radius := 60; o_height := 80; o_hp := o_hp o; o_active := o_active o;
     o_timer := o_timer o; o_state := o_state o; o_home := mkVec3f x y z;
     o_color := (20, 20, 30)%Z; o_collected := o_collected o; o_irange := 90;
     o_scale := o_scale o; o_dmg := 3; o_coins := o_coins o; o_star_id := o_star_id o;
     o_warp := o_warp o; o_spd := o_spd o; o_pdir := o_pdir o; o_bob := o_bob o;
     o_flash := o_flash o |}.

Definition sp_1up (x y z bob : Q) : Obj :=
  let o := obj_default ONE_UP (mkVec3f x (y + 30) z) in
  {| o_type := o_type o; o_pos := o_pos o; o_vel := o_vel o; o_angle := o_angle o;
     o_radius := 25; o_height := 25; o_hp := o_hp o; o_active := o_active o;
     o_timer := o_timer o; o_state := o_state o; o_home := mkVec3f x (y + 30) z;
     o_color := (0, 200, 0)%Z; o_collected := o_collected o; o_irange := 50;
     o_scale := o_scale o; o_dmg := o_dmg o; o_coins := o_coins o;
     o_star_id := o_star_id o; o_warp := o_warp o; o_spd := o_spd o;
     o_pdir := o_pdir o; o_bob := bob; o_flash := o_flash o |}.

Definition sp_tree (x y z h : Q) : Obj :=
  let o := obj_default TREE (mkVec3f x y z) in
  {| o_type := o_type o; o_pos := o_pos o; o_vel := o_vel o; o_angle := o_angle o;
     o_radius := 20; o_height := h; o_hp := o_hp o; o_active := o_active o;
     o_timer := o_timer o; o_state := o_state o; o_home := o_home o;
     o_color := (80, 50, 20)%Z; o_collected := o_collected o; o_irange := 0;
     o_scale := o_scale o; o_dmg := o_dmg o; o_coins := o_coins o;
     o_star_id := o_star_id o; o_warp := o_warp o; o_spd := o_spd o;
     o_pdir := o_pdir o; o_bob := o_bob o; o_flash := o_flash o |}.

(** [sp_ring] and [sp_line]: list comprehensions over [range(n)]; [bob i]
    is the random phase drawn for the coin of index [i]. *)
Definition sp_ring `{MathLib} (x y z r : Q) (n : Z) (bob : Z -> Q) : list Obj :=
  (fun i : Z => sp_coin (x + r * sins (360 / inject_Z n * inject_Z i)) y
                        (z + r * coss (360 / inject_Z n * inject_Z i)) COIN (bob i))
  <$> seqZ 0 n.

Definition sp_line (x y z dx dy dz : Q) (n : Z) (bob : Z -> Q) : list Obj :=
  (fun i : Z => sp_coin (x + dx * inject_Z i) (y + dy * inject_Z i)
                        (z + dz * inject_Z i) COIN (bob i))
  <$> seqZ 0 n.

(** ** Particles *)

Record Particle := mkParticle {
  p_pos : Vec3f;
  p_vel : Vec3f;
  p_color : Color;
  p_life : Z;
  p_size : Q
}.

(** [Particles.emit]: one particle per velocity in [vs], the random
    velocities drawn by the [n] passes of the loop; each gets its own copy
    of the position. *)
Definition particles_emit (ps : list Particle) (p : Vec3f) (vs : list Vec3f) (c : Color)
  (l : Z) (sz : Q) : list Particle :=
  ps ++ ((fun v => mkParticle p v c l sz) <$> vs).

(** The first two lines of the loop body of [Particles.update]. *)
Definition particle_step (p : Particle) : Particle :=
  {| p_pos := mkVec3f (vx (p_pos p) + vx (p_vel p)) (vy (p_pos p) + vy (p_vel p))
                      (vz (p_pos p) + vz (p_vel p));
     p_vel := mkVec3f (vx (p_vel p)) (vy (p_vel p) - 0.5) (vz (p_vel p));
     p_color := p_color p;
     p_life := (p_life p - 1)%Z;
     p_size := p_size p |}.

Fixpoint particles_update (ps : list Particle) : list Particle :=
  match ps with
  | [] => []
  | p :: rest =>
      let p := particle_step p in
      if (p_life p >? 0)%Z then p :: particles_update rest
      else particles_update rest
  end.

(** ** Level table *)

(** [LvlInfo] without its display name. *)
Record LvlInfo := mkLvlInfo {
  li_sky : Color;
  li_nstars : Z;
  li_start : Vec3f
}.

Definition LVL_GROUNDS : Z := 0.
Definition LVL_INSIDE : Z := 1.

Definition LI_TABLE : list (Z * LvlInfo) :=
  [ (0, mkLvlInfo (135, 206, 235) 0 (mkVec3f 0 200 600));
    (1, mkLvlInfo (60, 60, 80) 0 (mkVec3f 0 50 0));
    (2, mkLvlInfo (135, 206, 235) 7 (mkVec3f 0 200 800));
    (3, mkLvlInfo (150, 200, 240) 7 (mkVec3f 0 200 800));
    (4, mkLvlInfo (80, 140, 200) 7 (mkVec3f 0 200 800));
    (5, mkLvlInfo (200, 220, 255) 7 (mkVec3f 0 1200 (-1000)));
    (6, mkLvlInfo (30, 20, 50) 7 (mkVec3f 0 200 800));
    (7, mkLvlInfo (50, 40, 30) 7 (mkVec3f 0 200 800));
    (8, mkLvlInfo (80, 30, 10) 7 (mkVec3f 0 200 0));
    (9, mkLvlInfo (230, 200, 140) 7 (mkVec3f 0 200 800));
    (10, mkLvlInfo (20, 40, 100) 7 (mkVec3f 0 200 800));
    (11, mkLvlInfo (180, 200, 240) 7 (mkVec3f 0 200 800));
    (12, mkLvlInfo (170, 190, 220) 7 (mkVec3f 0 1000 800));
    (13, mkLvlInfo (130, 190, 230) 7 (mkVec3f 0 2000 0));
    (14, mkLvlInfo (135, 206, 235) 7 (mkVec3f 0 200 800));
    (15, mkLvlInfo (40, 30, 50) 7 (mkVec3f 0 200 0));
    (16, mkLvlInfo (100, 80, 180) 7 (mkVec3f 0 200 0));
    (17, mkLvlInfo (10, 10, 30) 1 (mkVec3f 0 200 800));
    (18, mkLvlInfo (40, 10, 10) 1 (mkVec3f 0 200 800));
    (19, mkLvlInfo (50, 40, 80) 1 (mkVec3f 0 200 800));
    (20, mkLvlInfo (20, 60, 120) 1 (mkVec3f 0 200 0));
    (21, mkLvlInfo (80, 60, 120) 2 (mkVec3f 0 1200 0));
    (22, mkLvlInfo (100, 160, 255) 1 (mkVec3f 0 200 0));
    (23, mkLvlInfo (30, 60, 30) 1 (mkVec3f 0 200 800));
    (24, mkLvlInfo (40, 40, 80) 1 (mkVec3f 0 200 800));
    (25, mkLvlInfo (150, 100, 220) 1 (mkVec3f 0 200 0));
    (26, mkLvlInfo (80, 100, 80) 0 (mkVec3f 0 50 400)) ]%Z.

Definition LI : gmap Z LvlInfo := list_to_map LI_TABLE.

(** [LI.get(lid, LI[0])]. *)
Definition LI_get (lid : Z) : LvlInfo :=
  default (mkLvlInfo (135, 206, 235)%Z 0 (mkVec3f 0 200 600)) (LI !! lid).

(** ** Renderer front end: the face list and its projection *)

Definition FOV : Q := 450.
Definition WIDTH : Q := 800.
Definition HEIGHT : Q := 600.

Definition rot_pt `{MathLib} (v : Vec3f) (cx cy cz ay : Q) : Q * Q * Q :=
  let x := vx v - cx in
  let y := vy v - cy in
  let z := vz v - cz in
  let r := math_radians ay in
  let c := math_cos r in
  let s := math_sin r in
  (x * c - z * s, y, x * s + z * c).

(** The boxes drawn for one object; an inactive object is skipped. *)
Definition obj_boxes (o : Obj) : list Surface :=
  if negb (o_active o) then []
  else
    let x := vx (o_pos o) in
    let y := vy (o_pos o) in
    let z := vz (o_pos o) in
    match o_type o with
    | TREE =>
        make_box x (y + o_height o / 2) z 20 (o_height o) 20 (80, 50, 20)%Z
                 SURF_DEFAULT (-1)%Z
        ++ make_box x (y + o_height o + 40) z 80 80 80 (30, 130, 30)%Z
                    SURF_DEFAULT (-1)%Z
    | PIPE => make_box x (y + 40) z 60 80 60 (o_color o) SURF_DEFAULT (-1)%Z
    | _ =>
        let sz := o_radius o * o_scale o in
        let col := if (o_flash o >? 0)%Z && (o_flash o mod 2 =? 0)%Z
                   then (255, 255, 255)%Z else o_color o in
        make_box x (y + o_height o * o_scale o / 2) z sz (o_height o * o_scale o) sz col
                 SURF_DEFAULT (-1)%Z
    end.

(** The body colour [mc] of the character: it blinks while hurt and while
    invulnerable. *)
Definition mario_color (mario : MarioState) (frame : Z) : Color :=
  if (hurt mario >? 0)%Z then
    if (frame mod 4 <? 2)%Z then (255, 150, 150)%Z else (255, 20, 20)%Z
  else if (inv mario >? 0)%Z && (inv mario mod 4 <? 2)%Z then (255, 200, 200)%Z
  else (255, 20, 20)%Z.

(** [rlist]: level surfaces, object boxes, the three boxes of the
    character and its shadow, particle boxes. *)
Definition render_list (surfs : list Surface) (objs : list Obj) (ps : list Particle)
  (mario : MarioState) (frame : Z) : list (RTag * Surface) :=
  let mc := mario_color mario frame in
  let bh : Q := if act_in (action mario) [ACT_CROUCH; ACT_BELLY_SLIDE] then 30 else 60 in
  let x := vx (pos mario) in
  let y := vy (pos mario) in
  let z := vz (pos mario) in
  let hy := y + bh * 2 + 15 in
  (pair TagE <$> surfs)
  ++ (pair TagO <$> flat_map obj_boxes objs)
  ++ (pair TagM <$> make_box x (y + bh) z 40 (bh * 2) 40 mc SURF_DEFAULT (-1)%Z)
  ++ (pair TagM <$> make_box x hy z 30 30 30 (255, 200, 170)%Z SURF_DEFAULT (-1)%Z)
  ++ (pair TagM <$> make_box x (hy + 15) z 35 10 35 mc SURF_DEFAULT (-1)%Z)
  ++ (match floor mario with
      | Some _ => pair TagS <$> make_box x (floor_y mario + 2) z 35 2 35 (10, 10, 10)%Z
                                         SURF_DEFAULT (-1)%Z
      | None => []
      end)
  ++ (pair TagP <$> flat_map (fun p =>
        make_box (vx (p_pos p)) (vy (p_pos p)) (vz (p_pos p)) (p_size p) (p_size p)
                 (p_size p) (p_color p) SURF_DEFAULT (-1)%Z) ps).

Section Projection.
Context `{MathLib}.

(** The body of [for v in sf.verts]: the accumulator is [(pv, az, inf)]. *)
Definition project_vert (cam : Vec3f) (cyaw : Q) (acc : list (Q * Q) * Q * bool)
  (v : Vec3f) : option (list (Q * Q) * Q * bool) :=
  let '(pv, az, inf) := acc in
  let '(rx, ry, rz) := rot_pt v (vx cam) (vy cam) (vz cam) (- cyaw) in
  if Qgtb rz 10 then
    sc ← py_div FOV rz;
    Some (pv ++ [(WIDTH / 2 + rx * sc, HEIGHT / 2 - ry * sc)], az + rz, true)
  else Some acc.

Fixpoint project_verts (cam : Vec3f) (cyaw : Q) (acc : list (Q * Q) * Q * bool)
  (vs : list Vec3f) : option (list (Q * Q) * Q * bool) :=
  match vs with
  | [] => Some acc
  | v :: rest => acc' ← project_vert cam cyaw acc v; project_verts cam cyaw acc' rest
  end.

(** The fogged colour [fc] of a face of colour [col] at depth [az]. *)
Definition fog_color (col sky : Color) (az : Q) : Color :=
  let f := py_min2 1.0 (az / 4000.0) in
  let '(c0, c1, c2) := col in
  let '(s0, s1, s2) := sky in
  (py_int (inject_Z c0 * (1 - f) + inject_Z s0 * f),
   py_int (inject_Z c1 * (1 - f) + inject_Z s1 * f),
   py_int (inject_Z c2 * (1 - f) + inject_Z s2 * f)).

(** The body of [for rt,sf in rlist]: the entry appended to [polys], if
    any. *)
Definition face_poly (cam : Vec3f) (cyaw : Q) (sky : Color) (e : RTag * Surface)
  : option (option Poly) :=
  let '(rt, sf) := e in
  '(pv, az, inf) ← project_verts cam cyaw ([], 0, false) (verts sf);
  if (inf : bool) && Nat.leb 3 (length pv) then
    az ← py_div az (inject_Z (Z.of_nat (length (verts sf))));
    let col := if is_shadow rt then (10, 10, 10)%Z else color sf in
    Some (Some (az, fog_color col sky az, pv, rt))
  else Some None.

Fixpoint build_polys (cam : Vec3f) (cyaw : Q) (sky : Color) (rlist : list (RTag * Surface))
  : option (list Poly) :=
  match rlist with
  | [] => Some []
  | e :: rest =>
      p ← face_poly cam cyaw sky e;
      polys ← build_polys cam cyaw sky rest;
      Some (match p with Some q => q :: polys | None => polys end)
  end.

(** [render]: the background colour and the draw commands on top of it. *)
Definition render (surfs : list Surface) (objs : list Obj) (ps : list Particle)
  (cur_lvl : Z) (mario : MarioState) (cam : Vec3f) (cyaw : Q) (frame : Z)
  : option (Color * list DrawCmd) :=
  let sky := li_sky (LI_get cur_lvl) in
  polys ← build_polys cam cyaw sky (render_list surfs objs ps mario frame);
  Some (sky, render_draw polys).

(** The wedge loop of [draw_hud]: one filled polygon for each of the first
    [w] eighths of the health meter. *)
Definition hud_wedge (w i : Z) : list DrawCmd :=
  let hx : Q := 60 in
  let hy : Q := HEIGHT - 60 in
  let hr : Q := 35 in
  let a1 := math_radians (inject_Z (90 - i * 45)) in
  let a2 := math_radians (inject_Z (90 - (i + 1) * 45)) in
  if (i <? w)%Z then
    let c := if (w >? 2)%Z then (80, 200, 80)%Z else (200, 80, 80)%Z in
    [DrawFill c ((hx, hy) :: ((fun a => (hx + hr * math_cos a, hy - hr * math_sin a))
                              <$> [a1; (a1 + a2) / 2; a2]))]
  else [].

Definition hud_wedges (mario : MarioState) : list DrawCmd :=
  flat_map (hud_wedge (wedges mario)) (seqZ 0 8).

End Projection.

(** ** The logic tick of [main] *)

Inductive GameState := TITLE | LEVEL_SELECT | GAMEPLAY | PAUSE | DEATH.

(** The keys the tick reads: held keys ([keys[...]]) and the keys pressed
    since the last frame ([... in kp]). *)
Record Keys := mkKeys {
  k_space : bool; k_x : bool; k_z : bool;
  kp_space : bool; kp_x : bool; kp_z : bool;
  k_left : bool; k_a : bool; k_right : bool; k_d : bool;
  k_up : bool; k_w : bool; k_down : bool; k_s : bool;
  k_q : bool; k_e : bool
}.

(** The variables of [main] and the globals that the tick reads and
    writes.  The particle list, which the tick only ages and the renderer
    reads, is kept apart. *)
Record Game := mkGame {
  g_state : GameState;
  g_mario : MarioState;
  g_ctrl : Controller;
  g_surfs : list Surface;
  g_objs : list Obj;
  g_cur_lvl : Z;
  g_cam : Vec3f;
  g_cyaw : Q;
  g_dtimer : Z
}.

(** The two setters of the intended direction, which the tick writes. *)
Definition with_imag (v : Q) (m : MarioState) : MarioState :=
  {| pos := pos m; vel := vel m; fvel := fvel m; face := face m; action := action m;
     prev_act := prev_act m; astate := astate m; atimer := atimer m; health := health m;
     coins := coins m; stars := stars m; lives := lives m; floor := floor m;
     floor_y := floor_y m; wall := wall m; imag := v; iyaw := iyaw m; peak_y := peak_y m;
     jcount := jcount m; jtimer := jtimer m; wktimer := wktimer m; hurt := hurt m;
     inv := inv m; lvl_stars := lvl_stars m |}.

Definition with_iyaw (v : Q) (m : MarioState) : MarioState :=
  {| pos := pos m; vel := vel m; fvel := fvel m; face := face m; action := action m;
     prev_act := prev_act m; astate := astate m; atimer := atimer m; health := health m;
     coins := coins m; stars := stars m; lives := lives m; floor := floor m;
     floor_y := floor_y m; wall := wall m; imag := imag m; iyaw := v; peak_y := peak_y m;
     jcount := jcount m; jtimer := jtimer m; wktimer := wktimer m; hurt := hurt m;
     inv := inv m; lvl_stars := lvl_stars m |}.

(** The controller and the intended direction, read from the keys. *)
Definition read_keys `{MathLib} (keys : Keys) (cyaw : Q) (ctrl : Controller)
  (mario : MarioState) : Controller * MarioState :=
  let pr := 0%Z in
  let dn := 0%Z in
  let pr := if k_space keys || kp_space keys then Z.lor pr IN_A else pr in
  let dn := if k_space keys then Z.lor dn IN_A_D else dn in
  let pr := if k_x keys || kp_x keys then Z.lor pr IN_B else pr in
  let pr := if k_z keys || kp_z keys then Z.lor pr IN_Z else pr in
  let dn := if k_z keys then Z.lor dn IN_Z_D else dn in
  let dx := 0%Z in
  let dz := 0%Z in
  let dx := if k_left keys || k_a keys then (dx - 1)%Z else dx in
  let dx := if k_right keys || k_d keys then (dx + 1)%Z else dx in
  let dz := if k_up keys || k_w keys then (dz + 1)%Z else dz in
  let dz := if k_down keys || k_s keys then (dz - 1)%Z else dz in
  if negb (dx =? 0)%Z || negb (dz =? 0)%Z then
    (mkController (stick_x ctrl) (stick_y ctrl) 1.0 pr dn,
     with_imag MAX_WALK
       (with_iyaw (math_degrees (math_atan2 (inject_Z dx) (inject_Z dz)) + cyaw) mario))
  else
    (mkController (stick_x ctrl) (stick_y ctrl) 0 pr dn, with_imag 0 mario).

(** The floor surface effects that follow the timers. *)
Definition floor_effects (mario : MarioState) : MarioState :=
  match floor mario with
  | Some fl =>
      if (stype fl =? SURF_LAVA)%Z
         && negb (act_in (action mario) [ACT_LAVA_BOOST; ACT_KNOCKBACK])
      then set_act ACT_LAVA_BOOST mario
      else if (stype fl =? SURF_DEATH)%Z
      then with_vel (mkVec3f 0 0 0) (with_pos (mkVec3f 0 200 0) mario)
      else mario
  | None => mario
  end.

(** The assignments that place the character at the start of a level, on
    entering it from the menu or through a pipe. *)
Definition enter_level (info : LvlInfo) (mario : MarioState) : MarioState :=
  let mario := with_pos (li_start info) mario in
  let mario := with_vel (mkVec3f 0 0 0) mario in
  let mario := with_fvel 0 mario in
  let mario := with_action ACT_FREEFALL mario in
  let mario := with_health 0x880%Z mario in
  with_coins 0%Z mario.

Section LogicTick.
Context `{MathLib}.

(** [_builders.get(lid, _b_grounds)()]: the surfaces and objects that the
    builder of level [lid] appends to the emptied globals. *)
Variable build_level : Z -> list Surface * list Obj.

(** The block under [if state==GameState.GAMEPLAY and do_logic]. *)
Definition logic_tick (keys : Keys) (frame : Z) (g : Game) : option Game :=
  let '(ctrl, mario) := read_keys keys (g_cyaw g) (g_ctrl g) (g_mario g) in
  mario ← dispatch (g_surfs g) mario ctrl;
  let mario := tick_timers mario in
  let mario := floor_effects mario in
  let objs := update_objs mario frame (g_objs g) in
  let '(mario, objs, wr) := interact_objs (g_cur_lvl g) ctrl objs mario in
  '(mario, surfs, objs, cur_lvl, cam, cyaw) ←
    match wr with
    | Some lid =>
        info ← LI !! lid;
        let '(surfs, objs) := build_level lid in
        let mario := enter_level info mario in
        Some (mario, surfs, objs, lid,
              mkVec3f (vx (pos mario)) (vy (pos mario) + 300) (vz (pos mario) + 800), 0)
    | None => Some (mario, g_surfs g, objs, g_cur_lvl g, g_cam g, g_cyaw g)
    end;
  let '(mario, state, dtimer) :=
    if (health mario <=? 0)%Z
    then (with_lives (lives mario - 1)%Z mario, DEATH, 0%Z)
    else (mario, g_state g, g_dtimer g) in
  let mario :=
    if Qltb (vy (pos mario)) (-3000) then
      let mario := with_pos (li_start (LI_get cur_lvl)) mario in
      let mario := with_vel (mkVec3f 0 0 0) mario in
      let mario := with_fvel 0 mario in
      let mario := with_action ACT_FREEFALL mario in
      take_dmg 0x100 mario
    else mario in
  let cyaw := if k_q keys then cyaw - 3 else cyaw in
  let cyaw := if k_e keys then cyaw + 3 else cyaw in
  let wx := vx (pos mario) - sins cyaw * 800 in
  let wz := vz (pos mario) - coss cyaw * 800 in
  let cam := mkVec3f (vx cam + (wx - vx cam) * 0.1)
                     (vy cam + ((vy (pos mario) + 300) - vy cam) * 0.1)
                     (vz cam + (wz - vz cam) * 0.1) in
  Some (mkGame state mario ctrl surfs objs cur_lvl cam cyaw dtimer).

End LogicTick.

(** ** The face renderer of [catsm644k1.x1.8.26.py] *)

(** A face [(verts, color, normal)] of the lists that [render_faces] is
    given; the class [V3] has the three float fields of [Vec3f]. *)
Definition Face3 : Type := (list Vec3f * Color * Vec3f)%type.

(** [sum(...)] over floats: from 0, left to right. *)
Definition py_sum (xs : list Q) : Q := foldl Qplus 0 xs.

Module Cat4k.

Definition SW : Z := 800.
Definition SH : Z := 600.
Definition FOV : Q := 400.
Definition NEAR_CLIP : Q := 0.5.

(** The draw calls of [render_faces]: [pygame.draw.polygon] with and
    without a line width. *)
Inductive Draw :=
  | Fill (col : Color) (pts : list (Z * Z))
  | Outline (col : Color) (pts : list (Z * Z)) (width : Z).

Definition shade (color : Color) (factor : Q) : Color :=
  let '(c0, c1, c2) := color in
  (Z.max 0 (Z.min 255 (py_int (inject_Z c0 * factor))),
   Z.max 0 (Z.min 255 (py_int (inject_Z c1 * factor))),
   Z.max 0 (Z.min 255 (py_int (inject_Z c2 * factor)))).

Section Render.
Context `{MathLib}.

(** [project]: the screen point, or [None] behind the near plane, and the
    depth [rz2].  The two divisions are by a depth of at least
    [NEAR_CLIP]. *)
Definition project (pt cam_pos : Vec3f) (cam_yaw cam_pitch : Q) : option (Z * Z) * Q :=
  let dx := vx pt - vx cam_pos in
  let dy := vy pt - vy cam_pos in
  let dz := vz pt - vz cam_pos in
  let cy := math_cos (- cam_yaw) in
  let sy := math_sin (- cam_yaw) in
  let rx := dx * cy - dz * sy in
  let rz := dx * sy + dz * cy in
  let ry := dy in
  let cp := math_cos (- cam_pitch) in
  let sp := math_sin (- cam_pitch) in
  let ry2 := ry * cp - rz * sp in
  let rz2 := ry * sp + rz * cp in
  if Qltb rz2 NEAR_CLIP then (None, rz2)
  else
    let sx := inject_Z SW / 2 + rx * FOV / rz2 in
    let sy_ := inject_Z SH / 2 - ry2 * FOV / rz2 in
    (Some (py_int sx, py_int sy_), rz2).

(** [for v in verts]: the loop stops at the first vertex behind the near
    plane; the result is [(all_visible, screen_pts, total_depth)]. *)
Fixpoint project_loop (cam_pos : Vec3f) (cam_yaw cam_pitch : Q) (verts : list Vec3f)
  (screen_pts : list (Z * Z)) (total_depth : Q) : bool * list (Z * Z) * Q :=
  match verts with
  | [] => (true, screen_pts, total_depth)
  | v :: rest =>
      match project v cam_pos cam_yaw cam_pitch with
      | (None, _) => (false, screen_pts, total_depth)
      | (Some pt, depth) =>
          project_loop cam_pos cam_yaw cam_pitch rest (screen_pts ++ [pt])
                       (total_depth + depth)
      end
  end.

(** [face_center]: raises on a face without vertices. *)
Definition face_center (verts : list Vec3f) : option Vec3f :=
  let n := inject_Z (Z.of_nat (length verts)) in
  x ← py_div (py_sum (vx <$> verts)) n;
  y ← py_div (py_sum (vy <$> verts)) n;
  z ← py_div (py_sum (vz <$> verts)) n;
  Some (mkVec3f x y z).

(** [normal.dot(to_cam) < 0]: the face looks away from the camera. *)
Definition back_facing (cam_pos normal center : Vec3f) : bool :=
  Qltb (vx normal * (vx cam_pos - vx center) + vy normal * (vy cam_pos - vy center)
        + vz normal * (vz cam_pos - vz center)) 0.

(** The body of [for verts, color, normal in faces]: the entry appended to
    [projected_faces], if any. *)
Definition project_face (cam_pos : Vec3f) (cam_yaw cam_pitch : Q) (f : Face3)
  : option (option Face4k) :=
  let '(verts, color, normal) := f in
  center ← face_center verts;
  if back_facing cam_pos normal center then Some None
  else
    let '(all_visible, screen_pts, total_depth) :=
      project_loop cam_pos cam_yaw cam_pitch verts [] 0 in
    if negb all_visible || (length screen_pts <? 3)%nat then Some None
    else
      avg_depth ← py_div total_depth (inject_Z (Z.of_nat (length screen_pts)));
      Some (Some (avg_depth, screen_pts, color)).

Fixpoint project_faces (cam_pos : Vec3f) (cam_yaw cam_pitch : Q) (faces : list Face3)
  : option (list Face4k) :=
  match faces with
  | [] => Some []
  | f :: rest =>
      p ← project_face cam_pos cam_yaw cam_pitch f;
      pf ← project_faces cam_pos cam_yaw cam_pitch rest;
      Some (match p with Some q => q :: pf | None => pf end)
  end.

End Render.

(** The guard of the draw loop: every point within 500 pixels of the
    screen. *)
Definition on_screen (f : Face4k) : bool :=
  forallb (fun p : Z * Z =>
             (-500 <? p.1)%Z && (p.1 <? SW + 500)%Z
             && (-500 <? p.2)%Z && (p.2 <? SH + 500)%Z) f.1.2.

(** The draw loop: a fill and an outline for each face on screen.  What
    [pygame] itself may raise, which the [try] swallows, is outside the
    model. *)
Definition draw_face (f : Face4k) : list Draw :=
  let '(_, pts, color) := f in
  if on_screen f then [Fill color pts; Outline (shade color 0.7) pts 1%Z] else [].

Definition render_faces `{MathLib} (faces : list Face3) (cam_pos : Vec3f)
  (cam_yaw cam_pitch : Q) : option (list Draw) :=
  projected_faces ← project_faces cam_pos cam_yaw cam_pitch faces;
  Some (flat_map draw_face (render_faces_order projected_faces)).

End Cat4k.

(** * Specification vocabulary *)

(** The axis-aligned bounding rectangle of [s] in x/z, widened by 10 on
    every side, contains [(x, z)]. *)
Definition in_bounds (x z : Q) (s : Surface) : Prop :=
  (exists v, v ∈ verts s /\ vx v - 10 <= x) /\
  (exists v, v ∈ verts s /\ x <= vx v + 10) /\
  (exists v, v ∈ verts s /\ vz v - 10 <= z) /\
  (exists v, v ∈ verts s /\ z <= vz v + 10).

(** [s] is a floor candidate of height [h] for the query [(x, y, z)]: the
    widened rectangle contains the point, the normal is floor-eligible, [h]
    is the plane height at [(x, z)] and [h] is within the step allowance. *)
Definition floor_candidate (thr x y z : Q) (s : Surface) (h : Q) : Prop :=
  in_bounds x z s /\
  thr <= Qabs (vy (normal s)) /\
  plane_y x z s <$> head (verts s) = Some h /\
  h <= y + STEP_ALLOWANCE.

(** What [find_floor] computes, for the accumulator start [(h0, fl0)]. *)
Definition floor_scan_spec (thr x y z h0 : Q) (fl0 : option Surface)
  (surfs : list Surface) (res : Q * option Surface) : Prop :=
  (res = (h0, fl0) /\
   forall s h, s ∈ surfs -> floor_candidate thr x y z s h -> h <= h0) \/
  (exists l1 s l2,
     surfs = l1 ++ s :: l2 /\ res.2 = Some s /\
     floor_candidate thr x y z s res.1 /\ h0 < res.1 /\
     (forall s' h', s' ∈ l1 -> floor_candidate thr x y z s' h' -> h' < res.1) /\
     (forall s' h', s' ∈ l2 -> floor_candidate thr x y z s' h' -> h' <= res.1)).

(** The answer to a floor query: the sentinel pair when no candidate lies
    above the sentinel height, and otherwise the first surface in list order
    among the candidates of greatest height. *)
Definition highest_floor (thr x y z : Q) (surfs : list Surface)
  (res : option (Q * option Surface)) : Prop :=
  exists h fl, res = Some (h, fl) /\
    match fl with
    | None =>
        h = SENTINEL_H /\
        forall s hs, s ∈ surfs -> floor_candidate thr x y z s hs -> hs <= SENTINEL_H
    | Some s =>
        exists l1 l2,
          surfs = l1 ++ s :: l2 /\
          floor_candidate thr x y z s h /\ SENTINEL_H < h /\
          (forall s' h', s' ∈ l1 -> floor_candidate thr x y z s' h' -> h' < h) /\
          (forall s' h', s' ∈ l2 -> floor_candidate thr x y z s' h' -> h' <= h)
    end.

(** The position after [k] quarter steps of size [(qx, qy, qz)] from [p]. *)
Definition quarter_pos (qx qy qz : Q) (p : Vec3f) (k : nat) : Vec3f :=
  Nat.iter k (fun p => mkVec3f (vx p + qx) (vy p + qy) (vz p + qz)) p.

(** The two queries of a quarter step at the point [p]. *)
Definition floor_at (surfs : list Surface) (p : Vec3f) : option (Q * option Surface) :=
  find_floor surfs (vx p) (vy p) (vz p).

Definition wall_at `{MathLib} (surfs : list Surface) (yaw : Q) (p : Vec3f)
  : option (option Surface) :=
  find_wall surfs (vx p) (vy p + 50) (vz p) (sins yaw) (coss yaw).

(** Neither event at [p]: the floor is strictly below and no wall is hit. *)
Definition clear_at `{MathLib} (surfs : list Surface) (yaw : Q) (p : Vec3f) : Prop :=
  exists fy fl, floor_at surfs p = Some (fy, fl) /\ fy < vy p /\
                wall_at surfs yaw p = Some None.

(** [m'] differs from [m] at most in the fields an air step writes. *)
Definition air_frame (m m' : MarioState) : Prop :=
  m' = with_pos (pos m') (with_vel (vel m') (with_fvel (fvel m')
         (with_floor (floor m') (with_floor_y (floor_y m') (with_wall (wall m') m))))).

(** The outcome of [n] quarter steps of size [(qx, qy, qz)] from [m]. *)
Definition air_outcome `{MathLib} (surfs : list Surface) (qx qy qz : Q) (n : nat)
  (m : MarioState) (r : StepResult) (m' : MarioState) : Prop :=
  let qp := quarter_pos qx qy qz (pos m) in
  let yaw := sy (face m) in
  air_frame m m' /\
  match r with
  | Air =>
      (forall j, (1 <= j <= n)%nat -> clear_at surfs yaw (qp j)) /\
      pos m' = qp n /\ vel m' = vel m /\ fvel m' = fvel m /\ wall m' = wall m
  | Land =>
      exists k fy fl,
        (1 <= k <= n)%nat /\
        (forall j, (1 <= j < k)%nat -> clear_at surfs yaw (qp j)) /\
        floor_at surfs (qp k) = Some (fy, fl) /\ vy (qp k) <= fy /\
        pos m' = mkVec3f (vx (qp k)) fy (vz (qp k)) /\
        floor m' = fl /\ floor_y m' = fy /\
        vel m' = vel m /\ fvel m' = fvel m /\ wall m' = wall m
  | Wall =>
      exists k fy fl w,
        (1 <= k <= n)%nat /\
        (forall j, (1 <= j < k)%nat -> clear_at surfs yaw (qp j)) /\
        floor_at surfs (qp k) = Some (fy, fl) /\ fy < vy (qp k) /\
        wall_at surfs yaw (qp k) = Some (Some w) /\
        pos m' = qp k /\ floor m' = fl /\ floor_y m' = fy /\
        wall m' = Some w /\
        vel m' = mkVec3f 0 (vy (vel m)) 0 /\ fvel m' = 0
  | Ground => False
  end.

(** A call on the health of the character: [heal(amt)], [take_dmg(amt)], or
    the timer countdown of one logic tick. *)
Inductive HealthOp :=
  | OpHeal (amt : Z)
  | OpDmg (amt : Z)
  | OpTick.

Definition health_op (m : MarioState) (op : HealthOp) : MarioState :=
  match op with
  | OpHeal amt => heal amt m
  | OpDmg amt => take_dmg amt m
  | OpTick => tick_timers m
  end.

Definition health_ops (ops : list HealthOp) (m : MarioState) : MarioState :=
  foldl health_op m ops.

Definition op_nonneg (op : HealthOp) : Prop :=
  match op with
  | OpHeal amt | OpDmg amt => (0 <= amt)%Z
  | OpTick => True
  end.

(** [n] consecutive ticks of the walking handler under the same input. *)
Fixpoint walk_ticks `{MathLib} (n : nat) (surfs : list Surface) (c : Controller)
  (m : MarioState) : option MarioState :=
  match n with
  | O => Some m
  | S n' => m' ← a_walk surfs m c; walk_ticks n' surfs c m'
  end.

(** The input frame reaches the ground step of [a_walk]: no jump or attack
    press, and the stick is off centre. *)
Definition plain_walk_input (c : Controller) : Prop :=
  bit_set (pressed c) IN_A = false /\
  bit_set (pressed c) IN_B = false /\
  ~ stick_mag c == 0.

(** The jump-press rule of the walking action, in terms of the counter
    before the press. *)
Definition jump_press_rule `{MathLib} (surfs : list Surface) (m : MarioState)
  (c : Controller) : Prop :=
  exists m',
    a_walk surfs m c = Some m' /\
    ((10 < fvel m /\ bit_set (down c) IN_Z_D = true) ->
     action m' = ACT_LONG_JUMP /\ jcount m' = jcount m /\ jtimer m' = jtimer m) /\
    (~ (10 < fvel m /\ bit_set (down c) IN_Z_D = true) ->
     jcount m' = (jcount m + 1)%Z /\ jtimer m' = 5%Z /\
     (action m' = ACT_TRIPLE <-> (2 <= jcount m)%Z /\ 15 < fvel m) /\
     (action m' = ACT_DBL_JUMP <->
        (1 <= jcount m)%Z /\ ~ ((2 <= jcount m)%Z /\ 15 < fvel m)) /\
     (action m' = ACT_JUMP <-> (jcount m < 1)%Z)).

(** The decay of the counter over [n] walking ticks without a press: it
    is kept while the window timer lasts and reset on the tick after. *)
Definition jump_window_rule `{MathLib} (surfs : list Surface) (m : MarioState)
  (c : Controller) : Prop :=
  forall n, exists m',
    walk_ticks n surfs c m = Some m' /\
    ((Z.of_nat n <= jtimer m)%Z ->
     jcount m' = jcount m /\ jtimer m' = (jtimer m - Z.of_nat n)%Z) /\
    ((jtimer m < Z.of_nat n)%Z -> jcount m' = 0%Z /\ jtimer m' = 0%Z).

(** No handler other than the idle and walking ones writes the counter or
    its timer. *)
Definition counters_kept `{MathLib} (surfs : list Surface) (m : MarioState)
  (c : Controller) : Prop :=
  forall a h, (a, h) ∈ ACT_TABLE -> a <> ACT_IDLE -> a <> ACT_WALKING ->
  forall m', h surfs m c = Some m' ->
    jcount m' = jcount m /\ jtimer m' = jtimer m.

(** One walking tick that reaches the ground step: the window timer is
    counted down while it is positive, and the counter is reset when it is
    not. *)
Definition walk_tick_rule `{MathLib} (surfs : list Surface) (m : MarioState)
  (c : Controller) : Prop :=
  exists m',
    a_walk surfs m c = Some m' /\
    ((0 < jtimer m)%Z -> jtimer m' = (jtimer m - 1)%Z /\ jcount m' = jcount m) /\
    ((jtimer m <= 0)%Z -> jtimer m' = jtimer m /\ jcount m' = 0%Z).

(** A walking tick without a jump press that leaves before the ground
    step, for the dive on an attack press or for the deceleration on a
    centred stick, leaves the counter and its timer as they are. *)
Definition walk_exit_rule `{MathLib} (surfs : list Surface) (m : MarioState)
  (c : Controller) : Prop :=
  exists m',
    a_walk surfs m c = Some m' /\
    action m' = (if bit_set (pressed c) IN_B then ACT_DIVE else ACT_DECEL) /\
    jcount m' = jcount m /\ jtimer m' = jtimer m.

(** The idle handler never writes the window timer, and it resets the
    counter exactly on a jump press. *)
Definition idle_counter_rule `{MathLib} (surfs : list Surface) (m : MarioState)
  (c : Controller) : Prop :=
  exists m',
    a_idle surfs m c = Some m' /\
    jtimer m' = jtimer m /\
    jcount m' = (if bit_set (pressed c) IN_A then 0%Z else jcount m).

(** The first tick of the triple jump: [vel.y] is 69.0 when the handler
    leaves for the ground pound, and 69.0 plus one tick of gravity after the
    air update. *)
Definition triple_launch `{MathLib} (surfs : list Surface) (m : MarioState)
  (c : Controller) : Prop :=
  exists m',
    a_triple surfs m c = Some m' /\
    (bit_set (pressed c) IN_Z = true -> vy (vel m') = 69.0) /\
    (bit_set (pressed c) IN_Z = false -> vy (vel m') == 69.0 + GRAVITY).

(** The quantity by which [py_sort] orders ascending: the key, negated
    under [reverse=True]. *)
Definition sort_ord {A : Type} (key : A -> Q) (reverse : bool) (x : A) : Q :=
  if reverse then - key x else key x.

Definition in_sort_order {A : Type} (key : A -> Q) (reverse : bool) (a b : A) : Prop :=
  sort_ord key reverse a <= sort_ord key reverse b.

(** The polygons filled by a sequence of draw commands, in order. *)
Definition fills (cmds : list DrawCmd) : list (Color * list (Q * Q)) :=
  flat_map (fun cmd => match cmd with
                       | DrawFill col pts => [(col, pts)]
                       | DrawOutline _ _ _ => []
                       end) cmds.


(** The airborne actions: the handlers that run an air step. *)
Inductive AirAction :=
  | AJump | ADbl | ATriple | ABackflip | ASideflip | ALongjump
  | AWallkick | AFreefall | ADive | AGroundPound | AKnockback | ALavaBoost.

Definition air_id (k : AirAction) : Z :=
  match k with
  | AJump => ACT_JUMP | ADbl => ACT_DBL_JUMP | ATriple => ACT_TRIPLE
  | ABackflip => ACT_BACKFLIP | ASideflip => ACT_SIDEFLIP | ALongjump => ACT_LONG_JUMP
  | AWallkick => ACT_WALLKICK | AFreefall => ACT_FREEFALL | ADive => ACT_DIVE
  | AGroundPound => ACT_GROUND_POUND | AKnockback => ACT_KNOCKBACK
  | ALavaBoost => ACT_LAVA_BOOST
  end.

Definition air_handler `{MathLib} (k : AirAction) : Handler :=
  match k with
  | AJump => a_jump | ADbl => a_dbl | ATriple => a_triple
  | ABackflip => a_backflip | ASideflip => a_sideflip | ALongjump => a_longjump
  | AWallkick => a_wallkick | AFreefall => a_freefall | ADive => a_dive
  | AGroundPound => a_gp | AKnockback => a_knock | ALavaBoost => a_lava
  end.

(** The state on which the handler of [k] runs its air step in this tick,
    or [None] when the handler leaves before it (a press that changes the
    action, or the hover phase of the ground pound). *)
Definition air_phase `{MathLib} (k : AirAction) (m : MarioState) (c : Controller)
  : option MarioState :=
  let first (f : MarioState -> MarioState) : MarioState :=
    if (atimer m =? 0)%Z then f m else m in
  let z := bit_set (pressed c) IN_Z in
  let b := bit_set (pressed c) IN_B in
  match k with
  | AJump =>
      if z || b then None
      else Some (update_air (first (fun m =>
             with_peak_y (vy (pos m)) (with_vel_y (42.0 + Qabs (fvel m) * 0.25) m))))
  | ADbl =>
      if z || b then None
      else Some (update_air (first (fun m =>
             with_peak_y (vy (pos m)) (with_vel_y (52.0 + Qabs (fvel m) * 0.2) m))))
  | ATriple =>
      if z then None
      else Some (update_air (first (fun m =>
             with_peak_y (vy (pos m)) (with_vel_y 69.0 m))))
  | ABackflip =>
      Some (update_air (first (fun m => set_fvel (-10.0) (with_vel_y 62.0 m))))
  | ASideflip =>
      Some (update_air (first (fun m =>
        set_fvel 8.0 (with_face_y (py_fmod (sy (face m) + 180) 360) (with_vel_y 62.0 m)))))
  | ALongjump =>
      Some (update_air (first (fun m =>
        set_fvel (py_min2 (fvel m * 1.5) 48.0) (with_vel_y 30.0 m))))
  | AWallkick => Some (update_air (first (with_vel_y 52.0)))
  | AFreefall =>
      if (bit_set (pressed c) IN_A && (wktimer m >? 0)%Z) || z || b then None
      else Some (update_air m)
  | ADive =>
      Some (update_air (first (fun m =>
        set_fvel (py_max2 (fvel m) 32.0) (with_vel_y 10.0 m))))
  | AGroundPound => if (astate m =? 0)%Z then None else Some m
  | AKnockback =>
      Some (update_air (first (fun m => set_fvel (-20.0) (with_vel_y 30.0 m))))
  | ALavaBoost =>
      Some (update_air (first (fun m =>
        take_dmg 0x100 (with_vel_z 0 (with_vel_x 0 (with_fvel 0 (with_vel_y 60.0 m)))))))
  end.

(** Where each airborne action goes when its air step reports ['land']. *)
Definition landing_action (k : AirAction) (c : Controller) : Z :=
  match k with
  | AJump | ADbl | ATriple | AWallkick | AFreefall => walk_or_idle c
  | ABackflip | ASideflip | ALongjump | AKnockback | ALavaBoost => ACT_IDLE
  | ADive => ACT_BELLY_SLIDE
  | AGroundPound => ACT_GP_LAND
  end.

(** The state on which the slide kick of [catsctsm641.x.py] runs its air
    step. *)
Definition slide_kick_phase `{MathLib} (m : Catsct.MarioStateX) : Catsct.MarioStateX :=
  let k := if (atimer (Catsct.core m) =? 0)%Z
           then set_fvel (py_max2 (fvel (Catsct.core m)) 28.0)
                  (with_vel_y 10.0 (Catsct.core m))
           else Catsct.core m in
  Catsct.with_core (update_air k) m.

(** The reward an object grants when it is collected. *)
Definition coin_reward (o : Obj) : Z := if is_coin (o_type o) then o_coins o else 0%Z.
Definition life_reward (o : Obj) : Z := match o_type o with ONE_UP => 1 | _ => 0 end%Z.
Definition star_reward (o : Obj) : Z := match o_type o with STAR => 1 | _ => 0 end%Z.

(** A collectible that interaction will take: within range, active, not
    collected, and, for a star, one whose id the character does not hold yet
    in the current level. *)
Definition collectable `{MathLib} (cur_lvl : Z) (mario : MarioState) (o : Obj) : Prop :=
  is_collectible (o_type o) = true /\
  interactable mario o = true /\
  (match o_type o with STAR => has_star cur_lvl (o_star_id o) mario = false | _ => True end).

(** An object that interaction skips. *)
Definition spent (o : Obj) : Prop := o_active o = false \/ o_collected o = true.

(** One logic tick on the object list: [update_objs], then [interact_objs]. *)
Definition objs_tick `{MathLib} (cur_lvl : Z) (ctrl : Controller) (frame : Z)
  (mario : MarioState) (objs : list Obj) : MarioState * list Obj * option Z :=
  interact_objs cur_lvl ctrl (update_objs mario frame objs) mario.

(** [n] logic ticks in a row on the object list, under the same input. *)
Fixpoint objs_ticks `{MathLib} (n : nat) (cur_lvl : Z) (ctrl : Controller) (frame : Z)
  (mario : MarioState) (objs : list Obj) : MarioState * list Obj :=
  match n with
  | O => (mario, objs)
  | S n' =>
      let '(mario', objs', _) := objs_tick cur_lvl ctrl frame mario objs in
      objs_ticks n' cur_lvl ctrl (frame + 1)%Z mario' objs'
  end.

(** * Concrete scenes for evaluating the model *)

(** A box whose top face lies at height -12000, below the sentinel height. *)
Definition level_deep : list Surface :=
  make_box 0 (-12010) 0 2000 20 2000 (200, 200, 200)%Z SURF_DEFAULT (-1)%Z.

(** A box whose top face is the ground at height 0, 2000 wide and deep. *)
Definition level_flat : list Surface :=
  make_box 0 (-10) 0 2000 20 2000 (200, 200, 200)%Z SURF_DEFAULT (-1)%Z.

(** A stand-in for the [math] module on rationals.  It is exact where the
    scenes below evaluate it (angle 0, square roots of perfect squares, a
    direction along the positive second axis) and a rough approximation
    elsewhere. *)
Definition scene_math : MathLib := {|
  math_sin := fun x => x - x * x * x / 6;
  math_cos := fun x => 1 - x * x / 2;
  math_radians := fun d => d * (355 # 113) / 180;
  math_degrees := fun r => r * 180 / (355 # 113);
  math_sqrt := fun x =>
    inject_Z (Z.sqrt (Qnum x * Z.pos (Qden x))) / inject_Z (Z.pos (Qden x));
  math_atan2 := fun y x => y / (Qabs x + Qabs y + 1)
|}.

(** [MarioState()] with the defaults of the dataclass. *)
Definition mario_default : MarioState := {|
  pos := mkVec3f 0 0 0; vel := mkVec3f 0 0 0; fvel := 0; face := mkVec3s 0 0 0;
  action := ACT_IDLE; prev_act := ACT_IDLE; astate := 0; atimer := 0;
  health := 0x880; coins := 0; stars := 0; lives := 4;
  floor := None; floor_y := -10000; wall := None; imag := 0; iyaw := 0;
  peak_y := 0; jcount := 0; jtimer := 0; wktimer := 0; hurt := 0; inv := 0;
  lvl_stars := ∅
|}.

(** [Controller()] with nothing pressed and the stick at rest. *)
Definition ctrl_default : Controller :=
  {| stick_x := 0; stick_y := 0; stick_mag := 0; pressed := 0; down := 0 |}.

(** The character one unit above the floor of [level_flat], falling. *)
Definition mario_falling : MarioState :=
  with_vel_y (-20) (with_pos_y 1 (with_atimer 1%Z mario_default)).

(** The character walking on [level_flat] after two jumps in a row. *)
Definition mario_walking : MarioState :=
  with_jtimer 5%Z (with_jcount 2%Z (with_fvel 20 (with_action ACT_WALKING mario_default))).

(** Input frames: stick forward; stick forward with a jump press; the same
    with crouch held. *)
Definition ctrl_stick : Controller :=
  {| stick_x := 0; stick_y := 1; stick_mag := 1; pressed := 0; down := 0 |}.

Definition ctrl_jump : Controller :=
  {| stick_x := 0; stick_y := 1; stick_mag := 1; pressed := IN_A; down := IN_A_D |}.

Definition ctrl_crouch_jump : Controller :=
  {| stick_x := 0; stick_y := 1; stick_mag := 1;
     pressed := IN_A; down := Z.lor IN_A_D IN_Z_D |}.

(** Four projected faces, two of them at the same depth. *)
Definition polys_scene : list Poly :=
  [ (300, (10, 20, 30)%Z, [(0, 0); (1, 0); (1, 1)], TagE);
    (900, (40, 50, 60)%Z, [(2, 0); (3, 0); (3, 1)], TagO);
    (300, (70, 80, 90)%Z, [(4, 0); (5, 0); (5, 1)], TagM);
    (2500, (1, 2, 3)%Z, [(6, 0); (7, 0); (7, 1)], TagS) ].

(** The character in a backflip, one unit above the floor and falling. *)
Definition mario_backflip : MarioState := with_action ACT_BACKFLIP mario_falling.

(** The falling character with the extra fields of [catsctsm641.x.py]. *)
Definition mario_x_default : Catsct.MarioStateX :=
  {| Catsct.core := mario_falling; Catsct.punch_state := 0; Catsct.punch_timer := 0;
     Catsct.squish := 1; Catsct.squish_vel := 0; Catsct.anim_frame := 0;
     Catsct.bob_phase := 0 |}.

(** A coin and a star at the origin, where [mario_default] stands. *)
Definition coin_here : Obj := sp_coin 0 (-30) 0 COIN 0.
Definition star_here : Obj := sp_star 0 (-50) 0 0 0.

(** The character holding star 0 of level 0 already. *)
Definition mario_with_star : MarioState :=
  with_stars 1%Z (with_lvl_stars {[ 0%Z := {[ 0%Z ]} ]} mario_default).

(** The coin once collected, and a warp pipe at the origin. *)
Definition coin_taken : Obj := owith_active false (owith_collected true coin_here).
Definition pipe_here : Obj := sp_pipe 0 0 0 3.

(** * Further specification vocabulary *)

(** [s] blocks the move from [(x, z)] to [(tx, tz)] at height [y]: it is
    steep enough to be a wall, [y] is within its vertical extent widened by
    10, the start is strictly in front of its plane and the target is on it
    or behind it. *)
Definition wall_hit (x y z tx tz : Q) (s : Surface) : Prop :=
  Qabs (vy (normal s)) <= 0.7 /\
  (exists v, v ∈ verts s /\ vy v - 10 <= y) /\
  (exists v, v ∈ verts s /\ y <= vy v + 10) /\
  exists p1, head (verts s) = Some p1 /\
    0 < (x - vx p1) * vx (normal s) + (z - vz p1) * vz (normal s) /\
    (tx - vx p1) * vx (normal s) + (tz - vz p1) * vz (normal s) <= 0.

(** The answer to a wall query: the first surface in list order that
    blocks the move, if there is one. *)
Definition first_wall (x y z tx tz : Q) (surfs : list Surface)
  (res : option (option Surface)) : Prop :=
  exists r, res = Some r /\
    match r with
    | Some s =>
        exists l1 l2, surfs = l1 ++ s :: l2 /\ wall_hit x y z tx tz s /\
                      Forall (fun s' => ~ wall_hit x y z tx tz s') l1
    | None => Forall (fun s' => ~ wall_hit x y z tx tz s') surfs
    end.

(** The top face of [make_box]. *)
Definition box_top (x y z w h d : Q) (col : Color) (st wp : Z) : option Surface :=
  head (make_box x y z w h d col st wp).

(** A surface as the geometry constructors build it: a quadrilateral. *)
Definition four_verts (s : Surface) : Prop := length (verts s) = 4%nat.

(** Consecutive dispatches, one per input frame of [cs]. *)
Fixpoint dispatch_run `{MathLib} (surfs : list Surface) (cs : list Controller)
  (m : MarioState) : option MarioState :=
  match cs with
  | [] => Some m
  | c :: rest => m' ← dispatch surfs m c; dispatch_run surfs rest m'
  end.

(** An input frame with no jump press and the stick at rest. *)
Definition idle_input (c : Controller) : Prop :=
  bit_set (pressed c) IN_A = false /\ Qgtb (stick_mag c) 0 = false.

(** The counters and the health state of the character are those of [m],
    or those that one application of lava damage leaves. *)
Definition stats_kept (m m' : MarioState) : Prop :=
  coins m' = coins m /\ stars m' = stars m /\ lives m' = lives m /\
  lvl_stars m' = lvl_stars m.

Definition health_kept (m m' : MarioState) : Prop :=
  health m' = health m /\ inv m' = inv m /\ hurt m' = hurt m.

Definition lava_burn (m m' : MarioState) : Prop :=
  action m = ACT_LAVA_BOOST /\ atimer m = 0%Z /\ (inv m <= 0)%Z /\
  health m' = Z.max 0 (health m - 0x100) /\ inv m' = 60%Z /\ hurt m' = 10%Z.

(** The number of stars the character holds: the sizes of the per-level
    sets of [lvl_stars], added up. *)
Definition held_stars (m : MarioState) : Z :=
  map_fold (fun (_ : Z) (s : gset Z) (acc : Z) => (acc + Z.of_nat (size s))%Z) 0%Z
           (lvl_stars m).

(** What a run of [update_objs] or [interact_objs] may do to one object:
    its kind, home, range, damage, coin value, star id and warp target
    stay; it is never switched back on, never un-collected, and its hit
    points never grow. *)
Definition obj_evolves (o o' : Obj) : Prop :=
  o_type o' = o_type o /\ o_home o' = o_home o /\ o_irange o' = o_irange o /\
  o_dmg o' = o_dmg o /\ o_coins o' = o_coins o /\ o_star_id o' = o_star_id o /\
  o_warp o' = o_warp o /\
  (o_active o' = true -> o_active o = true) /\
  (o_collected o = true -> o_collected o' = true) /\
  (o_hp o' <= o_hp o)%Z.

(** An object with a non-negative coin value and damage factor, as every
    spawner makes it. *)
Definition obj_sane (o : Obj) : Prop := (0 <= o_coins o)%Z /\ (0 <= o_dmg o)%Z.

Definition health_ok (m : MarioState) : Prop := (0 <= health m <= 0x880)%Z.

(** The amount that contact with [o] passes to [take_dmg]. *)
Definition obj_hit (o : Obj) : Z :=
  match o_type o with
  | GOOMBA | BOBOMB | KOOPA | PIRANHA => 0x100 * o_dmg o
  | BOO | BIG_BOO | AMP => 0x100
  | THWOMP | KING_BOB | BOWSER => 0x200
  | CHAIN_CHOMP => 0x300
  | _ => 0
  end.

Definition worst_hit (objs : list Obj) : Z := foldr Z.max 0%Z (obj_hit <$> objs).

(** What one run of interaction may do to the character, when the damage
    it can deal is at most [D]: the health stays in range; the counters do
    not go down; the star counter moves with the ledger; and either the
    invulnerability timer is untouched and the health did not drop, or
    damage was applied once, from a timer that was not positive, which then
    reads 60. *)
Definition interact_effect (D : Z) (m m' : MarioState) : Prop :=
  health_ok m' /\
  (coins m <= coins m')%Z /\ (lives m <= lives m')%Z /\ (stars m <= stars m')%Z /\
  (stars m' - held_stars m' = stars m - held_stars m)%Z /\
  ((inv m' = inv m /\ (health m <= health m')%Z) \/
   ((inv m <= 0)%Z /\ inv m' = 60%Z /\ (health m - D <= health m')%Z)).

(** An object as a spawner leaves it: sane, switched on, not collected,
    with at least one hit point and no flash running. *)
Definition fresh_obj (o : Obj) : Prop :=
  obj_sane o /\ o_active o = true /\ o_collected o = false /\
  (1 <= o_hp o)%Z /\ o_flash o = 0%Z.

(** A polygon the renderer can draw: at least three projected points and a
    positive depth key. *)
Definition poly_visible (p : Poly) : Prop :=
  (3 <= length p.1.2)%nat /\ 0 < poly_depth p.

(** A colour that [pygame] accepts: every component in [[0, 255]]. *)
Definition color_ok (c : Color) : Prop :=
  (0 <= c.1.1 <= 255 /\ 0 <= c.1.2 <= 255 /\ 0 <= c.2 <= 255)%Z.


(** * Vocabulary of the painter's order *)



Section PainterVocabulary.
Context `{MathLib}.












(** The fills among the draw calls of [render_faces], in order. *)
Definition fills4k (cmds : list Cat4k.Draw) : list (Color * list (Z * Z)) :=
  flat_map (fun cmd => match cmd with
                       | Cat4k.Fill col pts => [(col, pts)]
                       | Cat4k.Outline _ _ _ => []
                       end) cmds.


End PainterVocabulary.

(** * Further concrete scenes *)

(** The first surface of [_b_grounds]; the floor call of [_b_inside], whose
    third argument, the width, is 0. *)
Definition level_ground : list Surface :=
  [make_ground (H := scene_math) 0 0 4000 4000 0 (34, 180, 34)%Z SURF_DEFAULT].

Definition level_inside_ground : list Surface :=
  [make_ground (H := scene_math) 0 0 0 2000 3000 (180, 160, 130)%Z SURF_DEFAULT].


(** The character at the start of a lava boost, of a ground-pound landing,
    of a star dance, of a ground pound, and dead. *)
Definition mario_lava : MarioState := with_action ACT_LAVA_BOOST mario_default.
Definition mario_gp_land : MarioState := with_action ACT_GP_LAND mario_default.
Definition mario_star_dance : MarioState := with_action ACT_STAR_DANCE mario_default.
Definition mario_pound : MarioState := with_action ACT_GROUND_POUND mario_default.
Definition mario_dead : MarioState := with_action ACT_DEATH mario_default.

(** A goomba and a chain chomp at the origin, where [mario_default] stands. *)
Definition goomba_here : Obj := sp_goomba 0 0 0.
Definition chomp_here : Obj := sp_chomp 0 0 0.

(** No key held or pressed; the first logic tick of a game on
    [level_ground] with a goomba at the origin, the camera where [main]
    first puts it; a builder that lays out the same ground for every
    level. *)
Definition keys_none : Keys :=
  mkKeys false false false false false false false false
         false false false false false false false false.

Definition game_start : Game :=
  mkGame GAMEPLAY mario_default (mkController 0 0 0 0%Z 0%Z) level_ground [goomba_here]
         0%Z (mkVec3f 0 500 800) 0 0%Z.

Definition build_flat (lid : Z) : list Surface * list Obj := (level_ground, []).



Definition cam_origin : Vec3f := mkVec3f 0 0 0.


(** Two faces for [render_faces] that look at the camera at the origin,
    at depths 300 and 600. *)
Definition faces4k_scene : list Face3 :=
  [([mkVec3f (-50) (-50) 300; mkVec3f 50 (-50) 300; mkVec3f 50 50 300;
     mkVec3f (-50) 50 300], (200, 0, 0)%Z, mkVec3f 0 0 (-1));
   ([mkVec3f (-50) (-50) 600; mkVec3f 50 (-50) 600; mkVec3f 50 50 600;
     mkVec3f (-50) 50 600], (0, 0, 200)%Z, mkVec3f 0 0 (-1))].

(** * Properties *)

(** ** Comparisons and extrema *)

Lemma Qltb_true a b : Qltb a b = true <-> a < b.
Proof.
  unfold Qltb. rewrite negb_true_iff.
  destruct (Qle_bool b a) eqn:E.
  - apply Qle_bool_iff in E. split; [discriminate | intros; lra].
  - split; [intros _ | reflexivity].
    destruct (Qlt_le_dec a b) as [|L]; [assumption|].
    apply Qle_bool_iff in L. congruence.
Qed.

Lemma Qltb_false a b : Qltb a b = false <-> b <= a.
Proof.
  destruct (Qltb a b) eqn:E.
  - apply Qltb_true in E. split; [discriminate | intros; lra].
  - split; [intros _ | reflexivity].
    destruct (Qlt_le_dec a b) as [L|]; [|assumption].
    apply Qltb_true in L. congruence.
Qed.

Lemma Qleb_true a b : Qleb a b = true <-> a <= b.
Proof. apply Qle_bool_iff. Qed.

Lemma Qleb_false a b : Qleb a b = false <-> b < a.
Proof.
  unfold Qleb. destruct (Qle_bool a b) eqn:E.
  - apply Qle_bool_iff in E. split; [discriminate | intros; lra].
  - split; [intros _ | reflexivity].
    destruct (Qlt_le_dec b a) as [|L]; [assumption|].
    apply Qle_bool_iff in L. congruence.
Qed.

Lemma Qgtb_true a b : Qgtb a b = true <-> b < a.
Proof. apply Qltb_true. Qed.
Lemma Qgtb_false a b : Qgtb a b = false <-> a <= b.
Proof. apply Qltb_false. Qed.

Lemma foldl_py_min2_spec (t : list Q) (a : Q) :
  foldl py_min2 a t ∈ a :: t /\ forall b, b ∈ a :: t -> foldl py_min2 a t <= b.
Proof.
  revert a. induction t as [|c t IH]; intros a; simpl.
  - split; [left|]. intros b Hb. apply list_elem_of_singleton in Hb. subst. lra.
  - destruct (IH (py_min2 a c)) as [Hin Hle]. split.
    + apply elem_of_cons in Hin as [->|Hin].
      * unfold py_min2. destruct (Qltb c a); [right; left | left].
      * right; right; exact Hin.
    + intros b Hb.
      assert (Hm : py_min2 a c <= a /\ py_min2 a c <= c).
      { unfold py_min2. destruct (Qltb c a) eqn:E.
        - apply Qltb_true in E. lra.
        - apply Qltb_false in E. lra. }
      pose proof (Hle (py_min2 a c) ltac:(left)) as H0.
      apply elem_of_cons in Hb as [->|Hb]; [lra|].
      apply elem_of_cons in Hb as [->|Hb]; [lra|].
      apply Hle. right. exact Hb.
Qed.

Lemma foldl_py_max2_spec (t : list Q) (a : Q) :
  foldl py_max2 a t ∈ a :: t /\ forall b, b ∈ a :: t -> b <= foldl py_max2 a t.
Proof.
  revert a. induction t as [|c t IH]; intros a; simpl.
  - split; [left|]. intros b Hb. apply list_elem_of_singleton in Hb. subst. lra.
  - destruct (IH (py_max2 a c)) as [Hin Hle]. split.
    + apply elem_of_cons in Hin as [->|Hin].
      * unfold py_max2. destruct (Qltb a c); [right; left | left].
      * right; right; exact Hin.
    + intros b Hb.
      assert (Hm : a <= py_max2 a c /\ c <= py_max2 a c).
      { unfold py_max2. destruct (Qltb a c) eqn:E.
        - apply Qltb_true in E. lra.
        - apply Qltb_false in E. lra. }
      pose proof (Hle (py_max2 a c) ltac:(left)) as H0.
      apply elem_of_cons in Hb as [->|Hb]; [lra|].
      apply elem_of_cons in Hb as [->|Hb]; [lra|].
      apply Hle. right. exact Hb.
Qed.

Lemma py_min_spec (l : list Q) (m : Q) :
  py_min l = Some m -> m ∈ l /\ forall b, b ∈ l -> m <= b.
Proof.
  destruct l as [|a t]; simpl; [discriminate|].
  intros [= <-]. apply foldl_py_min2_spec.
Qed.

Lemma py_max_spec (l : list Q) (m : Q) :
  py_max l = Some m -> m ∈ l /\ forall b, b ∈ l -> b <= m.
Proof.
  destruct l as [|a t]; simpl; [discriminate|].
  intros [= <-]. apply foldl_py_max2_spec.
Qed.

Lemma py_min_is_Some (l : list Q) : l <> [] -> is_Some (py_min l).
Proof. destruct l; [congruence | eauto]. Qed.

Lemma py_max_is_Some (l : list Q) : l <> [] -> is_Some (py_max l).
Proof. destruct l; [congruence | eauto]. Qed.

Lemma fmap_nonempty {A B} (f : A -> B) (l : list A) : l <> [] -> f <$> l <> [].
Proof. destruct l; [congruence | discriminate]. Qed.

(** ** C1: [find_floor] returns the highest candidate *)

(** The lower bound test [x < min(...) - 10] fails exactly when some vertex
    lies within the margin. *)
Lemma min_margin (f : Vec3f -> Q) (l : list Vec3f) (m x : Q) :
  py_min (f <$> l) = Some m ->
  (m - 10 <= x <-> exists v, v ∈ l /\ f v - 10 <= x).
Proof.
  intros Hm. apply py_min_spec in Hm as [Hin Hle]. split.
  - intros Hx. apply list_elem_of_fmap in Hin as (v & -> & Hv). eauto.
  - intros (v & Hv & Hx).
    assert (m <= f v) by (apply Hle, list_elem_of_fmap; eauto). lra.
Qed.

Lemma max_margin (f : Vec3f -> Q) (l : list Vec3f) (m x : Q) :
  py_max (f <$> l) = Some m ->
  (x <= m + 10 <-> exists v, v ∈ l /\ x <= f v + 10).
Proof.
  intros Hm. apply py_max_spec in Hm as [Hin Hle]. split.
  - intros Hx. apply list_elem_of_fmap in Hin as (v & -> & Hv). eauto.
  - intros (v & Hv & Hx).
    assert (f v <= m) by (apply Hle, list_elem_of_fmap; eauto). lra.
Qed.

(** One loop iteration of [find_floor]: it never raises on a well-formed
    surface; it keeps the accumulator when the surface is no candidate above
    the current height, and otherwise takes the surface and its height. *)
Lemma find_floor_body_spec thr x y z h0 fl0 s :
  surface_wf s ->
  (find_floor_body thr x y z (h0, fl0) s = Some (h0, fl0) /\
   forall h, floor_candidate thr x y z s h -> h <= h0) \/
  (exists h, find_floor_body thr x y z (h0, fl0) s = Some (h, Some s) /\
             floor_candidate thr x y z s h /\ h0 < h).
Proof.
  intros Hwf. unfold find_floor_body.
  destruct (py_min_is_Some (vx <$> verts s)) as [mnx Emnx]; [by apply fmap_nonempty|].
  destruct (py_max_is_Some (vx <$> verts s)) as [mxx Emxx]; [by apply fmap_nonempty|].
  destruct (py_min_is_Some (vz <$> verts s)) as [mnz Emnz]; [by apply fmap_nonempty|].
  destruct (py_max_is_Some (vz <$> verts s)) as [mxz Emxz]; [by apply fmap_nonempty|].
  rewrite Emnx, Emxx, Emnz, Emxz. simpl.
  pose proof (min_margin vx _ _ x Emnx) as Bx1.
  pose proof (max_margin vx _ _ x Emxx) as Bx2.
  pose proof (min_margin vz _ _ z Emnz) as Bz1.
  pose proof (max_margin vz _ _ z Emxz) as Bz2.
  destruct (Qltb x (mnx - 10)) eqn:E1; simpl.
  { left. split; [reflexivity|]. intros h (Hb & _). apply Qltb_true in E1.
    destruct Hb as (Hb & _). apply Bx1 in Hb. lra. }
  destruct (Qgtb x (mxx + 10)) eqn:E2; simpl.
  { left. split; [reflexivity|]. intros h (Hb & _). apply Qgtb_true in E2.
    destruct Hb as (_ & Hb & _). apply Bx2 in Hb. lra. }
  destruct (Qltb z (mnz - 10)) eqn:E3; simpl.
  { left. split; [reflexivity|]. intros h (Hb & _). apply Qltb_true in E3.
    destruct Hb as (_ & _ & Hb & _). apply Bz1 in Hb. lra. }
  destruct (Qgtb z (mxz + 10)) eqn:E4; simpl.
  { left. split; [reflexivity|]. intros h (Hb & _). apply Qgtb_true in E4.
    destruct Hb as (_ & _ & _ & Hb). apply Bz2 in Hb. lra. }
  apply Qltb_false in E1. apply Qgtb_false in E2.
  apply Qltb_false in E3. apply Qgtb_false in E4.
  destruct (Qltb (Qabs (vy (normal s))) thr) eqn:E5.
  { left. split; [reflexivity|]. intros h (_ & Hn & _). apply Qltb_true in E5. lra. }
  apply Qltb_false in E5.
  destruct (verts s) as [|p1 rest] eqn:Ev; [by destruct Hwf|]. simpl.
  destruct (Qltb h0 (plane_y x z s p1)) eqn:E6; simpl.
  - destruct (Qleb (plane_y x z s p1) (y + STEP_ALLOWANCE)) eqn:E7.
    + right. exists (plane_y x z s p1). apply Qltb_true in E6. apply Qleb_true in E7.
      split; [reflexivity|]. split; [|exact E6].
      unfold floor_candidate, in_bounds. rewrite Ev. simpl.
      split; [|by auto].
      repeat split; [apply Bx1 | apply Bx2 | apply Bz1 | apply Bz2]; assumption.
    + left. split; [reflexivity|]. intros h (_ & _ & Hh & Hle).
      rewrite Ev in Hh. simpl in Hh. injection Hh as <-.
      apply Qleb_false in E7. lra.
  - left. split; [reflexivity|]. intros h (_ & _ & Hh & Hle).
    rewrite Ev in Hh. simpl in Hh. injection Hh as <-.
    apply Qltb_false in E6. exact E6.
Qed.

Lemma floor_candidate_fun thr x y z s h h' :
  floor_candidate thr x y z s h -> floor_candidate thr x y z s h' -> h = h'.
Proof. intros (_ & _ & E & _) (_ & _ & E' & _). congruence. Qed.

Lemma find_floor_loop_spec thr x y z surfs :
  Forall surface_wf surfs ->
  forall h0 fl0, exists res,
    find_floor_loop thr x y z (h0, fl0) surfs = Some res /\
    floor_scan_spec thr x y z h0 fl0 surfs res.
Proof.
  induction 1 as [|s rest Hwf _ IH]; intros h0 fl0.
  - exists (h0, fl0). split; [reflexivity|]. left. split; [reflexivity|].
    intros s h Hs. by apply elem_of_nil in Hs.
  - cbn [find_floor_loop].
    destruct (find_floor_body_spec thr x y z h0 fl0 s Hwf)
      as [[Eb Hno] | (hs & Eb & Hc & Hlt)]; rewrite Eb; cbn [mbind option_bind].
    + destruct (IH h0 fl0) as (res & Er & [[-> Hall] | (l1 & s' & l2 & -> & Hfl & Hc & Hlt & H1 & H2)]).
      * exists (h0, fl0). split; [exact Er|]. left. split; [reflexivity|].
        intros s' h Hs'. apply elem_of_cons in Hs' as [->|Hs']; eauto.
      * exists res. split; [exact Er|]. right. exists (s :: l1), s', l2.
        refine (conj eq_refl (conj Hfl (conj Hc (conj Hlt (conj _ H2))))).
        intros s'' h' Hs'' Hc'. apply elem_of_cons in Hs'' as [->|Hs'']; [|eauto].
        apply Hno in Hc'. lra.
    + destruct (IH hs (Some s)) as (res & Er & [[-> Hall] | (l1 & s' & l2 & -> & Hfl & Hc' & Hlt' & H1 & H2)]).
      * exists (hs, Some s). split; [exact Er|]. right. exists [], s, rest.
        refine (conj eq_refl (conj eq_refl (conj Hc (conj Hlt (conj _ Hall))))).
        intros s' h' Hs'. by apply elem_of_nil in Hs'.
      * exists res. split; [exact Er|]. right. exists (s :: l1), s', l2.
        refine (conj eq_refl (conj Hfl (conj Hc' (conj _ (conj _ H2))))); [lra|].
        intros s'' h' Hs'' Hc''. apply elem_of_cons in Hs'' as [->|Hs'']; [|eauto].
        rewrite (floor_candidate_fun _ _ _ _ _ _ _ Hc'' Hc). exact Hlt'.
Qed.

Lemma find_floor_loop_highest thr x y z surfs :
  Forall surface_wf surfs ->
  highest_floor thr x y z surfs (find_floor_loop thr x y z (SENTINEL_H, None) surfs).
Proof.
  intros Hwf.
  destruct (find_floor_loop_spec thr x y z surfs Hwf SENTINEL_H None)
    as ([h fl] & Er & [[E Hall] | (l1 & s & l2 & Hs & Hfl & Hc & Hlt & H1 & H2)]).
  - injection E as -> ->. exists SENTINEL_H, None. split; [exact Er|]. split; [reflexivity | exact Hall].
  - simpl in Hfl, Hc, Hlt, H1, H2. subst fl. exists h, (Some s). split; [exact Er|].
    exists l1, l2. exact (conj Hs (conj Hc (conj Hlt (conj H1 H2)))).
Qed.

(** C1 (amended).  On a well-formed surface list [find_floor] returns the
    greatest plane height [sy] among the surfaces whose widened x/z rectangle
    contains [(x, z)], whose [abs(normal.y)] is at or above the threshold and
    for which [-11000 < sy <= y + 150], together with the first surface in
    list order that attains it; when no surface has such a height it returns
    the sentinel pair (-11000.0, no surface).  The threshold is 0.01 in
    [sm64_port-cat-edition-v0.py] and 0.1 in [sm644k1.x.py]. *)
Theorem find_floor_highest_candidate (surfs : list Surface) (x y z : Q) :
  Forall surface_wf surfs ->
  highest_floor 0.01 x y z surfs (find_floor surfs x y z) /\
  highest_floor 0.1 x y z surfs (find_floor_4k x y z surfs).
Proof.
  intros Hwf. split; apply find_floor_loop_highest; exact Hwf.
Qed.

Lemma make_box_wf x y z w h d col st wp : Forall surface_wf (make_box x y z w h d col st wp).
Proof.
  unfold make_box. destruct col as [[c0 c1] c2].
  repeat constructor; discriminate.
Qed.

Lemma find_floor_highest_candidate_witness :
  Forall surface_wf level_flat /\
  highest_floor 0.01 0 100 0 level_flat (find_floor level_flat 0 100 0) /\
  highest_floor 0.1 0 100 0 level_flat (find_floor_4k 0 100 0 level_flat).
Proof.
  assert (Hwf : Forall surface_wf level_flat) by (repeat constructor; discriminate).
  split; [exact Hwf|].
  exact (find_floor_highest_candidate level_flat 0 100 0 Hwf).
Defined.

(** On [level_flat] a query above the ground finds the top face at height
    0; the four side faces are walls and never qualify. *)
Example find_floor_level_flat :
  exists h, find_floor level_flat 0 100 0 = Some (h, head level_flat) /\ h == 0.
Proof. eexists. split; vm_compute; reflexivity. Qed.

Ltac qdecide := vm_compute; first [reflexivity | discriminate].

(** C1 as stated fails for a floor at or below the sentinel height: the
    top face of [level_deep] is a candidate of height -12000 for the query
    at [y = -12000], yet [find_floor] returns the sentinel and no surface. *)
Lemma find_floor_misses_deep_floor :
  exists s h,
    s ∈ level_deep /\ floor_candidate 0.01 0 (-12000) 0 s h /\ h == -12000 /\
    find_floor level_deep 0 (-12000) 0 = Some (SENTINEL_H, None).
Proof.
  eexists _, _. split; [left|]. split; [|split].
  - unfold floor_candidate, in_bounds. simpl.
    split; [|split; [qdecide | split; [reflexivity | qdecide]]].
    split; [|split; [|split]].
    + eexists. split; [left|]. qdecide.
    + eexists. split; [right; left|]. qdecide.
    + eexists. split; [left|]. qdecide.
    + eexists. split; [right; right; left|]. qdecide.
  - qdecide.
  - vm_compute. reflexivity.
Qed.

(** ** C9: the height bound of [find_floor] *)

(** C9 (amended).  On a well-formed surface list [find_floor] returns a pair
    [(h, fl)].  When it returns a surface, [h <= y + 150]; when it returns no
    surface, [h] is the sentinel -11000, which is [<= y + 150] exactly for
    queries with [y >= -11150]. *)
Theorem find_floor_height_bound (surfs : list Surface) (x y z : Q) :
  Forall surface_wf surfs ->
  exists h fl,
    find_floor surfs x y z = Some (h, fl) /\
    (is_Some fl -> h <= y + STEP_ALLOWANCE) /\
    (fl = None -> h = SENTINEL_H) /\
    (-11150 <= y -> h <= y + STEP_ALLOWANCE).
Proof.
  intros Hwf.
  destruct (find_floor_loop_spec 0.01 x y z surfs Hwf SENTINEL_H None)
    as ([h fl] & Er & [[E Hall] | (l1 & s & l2 & Hs & Hfl & Hc & Hlt & H1 & H2)]).
  - injection E as -> ->. exists SENTINEL_H, None. split; [exact Er|].
    split; [intros [? ?]; discriminate|]. split; [reflexivity|].
    unfold SENTINEL_H, STEP_ALLOWANCE. intros. lra.
  - simpl in Hfl, Hc. subst fl. exists h, (Some s). split; [exact Er|].
    destruct Hc as (_ & _ & _ & Hle).
    split; [intros _; exact Hle|]. split; [discriminate|]. intros _. exact Hle.
Qed.

Lemma find_floor_height_bound_witness :
  Forall surface_wf level_flat /\
  exists h fl,
    find_floor level_flat 0 100 0 = Some (h, fl) /\
    (is_Some fl -> h <= 100 + STEP_ALLOWANCE) /\
    (fl = None -> h = SENTINEL_H) /\
    (-11150 <= 100 -> h <= 100 + STEP_ALLOWANCE).
Proof.
  assert (Hwf : Forall surface_wf level_flat) by (repeat constructor; discriminate).
  split; [exact Hwf|].
  exact (find_floor_height_bound level_flat 0 100 0 Hwf).
Defined.

(** C9 as stated fails far below the level: the sentinel height exceeds
    [y + 150] once [y < -11150]. *)
Lemma find_floor_sentinel_above_allowance :
  find_floor level_flat 0 (-12000) 0 = Some (SENTINEL_H, None) /\
  ~ SENTINEL_H <= -12000 + STEP_ALLOWANCE.
Proof.
  split; [vm_compute; reflexivity|]. vm_compute. intros Hle. apply Hle. reflexivity.
Qed.

(** ** C2: the quarter-step air integration *)

Lemma find_wall_body_total x y z tx tz s :
  surface_wf s -> is_Some (find_wall_body x y z tx tz s).
Proof.
  intros Hwf. unfold find_wall_body.
  destruct (Qgtb _ _); [eauto|].
  destruct (py_min_is_Some (vy <$> verts s)) as [mn ->]; [by apply fmap_nonempty|].
  destruct (py_max_is_Some (vy <$> verts s)) as [mx ->]; [by apply fmap_nonempty|].
  cbn [mbind option_bind].
  destruct (_ || _); [eauto|].
  destruct (verts s) eqn:Ev; [by destruct Hwf|]. simpl. eauto.
Qed.

Lemma find_wall_total surfs x y z dx dz :
  Forall surface_wf surfs -> is_Some (find_wall surfs x y z dx dz).
Proof.
  unfold find_wall. generalize (x + dx * 2) (z + dz * 2). intros tx tz.
  induction 1 as [|s rest Hwf _ IH]; [simpl; eauto|].
  cbn [find_wall_loop].
  destruct (find_wall_body_total x y z tx tz s Hwf) as [[] ->];
    cbn [mbind option_bind]; eauto.
Qed.

Lemma find_floor_total surfs x y z :
  Forall surface_wf surfs -> is_Some (find_floor surfs x y z).
Proof.
  intros Hwf.
  destruct (find_floor_loop_spec 0.01 x y z surfs Hwf SENTINEL_H None) as (res & E & _).
  unfold find_floor. rewrite E. eauto.
Qed.

Lemma air_frame_refl m : air_frame m m.
Proof. destruct m. reflexivity. Qed.

Lemma air_frame_face m m' : air_frame m m' -> face m' = face m.
Proof. intros ->. reflexivity. Qed.

Lemma quarter_pos_succ_r qx qy qz p k :
  quarter_pos qx qy qz (mkVec3f (vx p + qx) (vy p + qy) (vz p + qz)) k
  = quarter_pos qx qy qz p (S k).
Proof.
  unfold quarter_pos. induction k as [|k IH]; [reflexivity|].
  simpl in *. rewrite IH. reflexivity.
Qed.

Section AirStep.
Context `{MathLib}.

(** One pass of the loop body: it either returns with a landing or a
    wall hit at the advanced point, or carries on from it. *)
Lemma air_quarter_spec surfs qx qy qz m :
  Forall surface_wf surfs ->
  let p := mkVec3f (vx (pos m) + qx) (vy (pos m) + qy) (vz (pos m) + qz) in
  exists fy fl,
    floor_at surfs p = Some (fy, fl) /\
    ((vy p <= fy /\
      air_quarter surfs qx qy qz m
      = Some (inr (Land, with_pos_y fy (with_floor_y fy (with_floor fl (with_pos p m)))))) \/
     (fy < vy p /\ exists w,
        wall_at surfs (sy (face m)) p = Some (Some w) /\
        air_quarter surfs qx qy qz m
        = Some (inr (Wall, with_fvel 0 (with_vel_z 0 (with_vel_x 0 (with_wall (Some w)
                      (with_floor_y fy (with_floor fl (with_pos p m))))))))) \/
     (fy < vy p /\
      wall_at surfs (sy (face m)) p = Some None /\
      air_quarter surfs qx qy qz m
      = Some (inl (with_floor_y fy (with_floor fl (with_pos p m)))))).
Proof.
  intros Hwf p.
  destruct (find_floor_total surfs (vx p) (vy p) (vz p) Hwf) as [[fy fl] Ef].
  exists fy, fl. split; [exact Ef|].
  unfold air_quarter. cbn -[find_floor find_wall Qleb].
  change (find_floor surfs (vx (pos m) + qx) (vy (pos m) + qy) (vz (pos m) + qz))
    with (find_floor surfs (vx p) (vy p) (vz p)).
  rewrite Ef. cbn -[find_floor find_wall Qleb].
  destruct (Qleb (vy (pos m) + qy) fy) eqn:E.
  - left. apply Qleb_true in E. split; [exact E | reflexivity].
  - right. apply Qleb_false in E.
    destruct (find_wall_total surfs (vx p) (vy p + 50) (vz p)
                (sins (sy (face m))) (coss (sy (face m))) Hwf) as [w Ew].
    unfold wall_at.
    change (find_wall surfs (vx (pos m) + qx) (vy (pos m) + qy + 50) (vz (pos m) + qz)
              (sins (sy (face m))) (coss (sy (face m))))
      with (find_wall surfs (vx p) (vy p + 50) (vz p)
              (sins (sy (face m))) (coss (sy (face m)))).
    rewrite Ew. cbn [mbind option_bind].
    destruct w as [w|].
    + left. split; [exact E|]. exists w. split; reflexivity.
    + right. split; [exact E|]. split; reflexivity.
Qed.

Lemma air_step_loop_spec surfs qx qy qz n :
  Forall surface_wf surfs ->
  forall m, exists r m',
    air_step_loop n surfs qx qy qz m = Some (r, m') /\
    air_outcome surfs qx qy qz n m r m'.
Proof.
  intros Hwf. induction n as [|n IH]; intros m.
  - exists Air, m. split; [reflexivity|]. split; [apply air_frame_refl|].
    split; [intros j Hj; lia|]. repeat split.
  - cbn [air_step_loop].
    destruct (air_quarter_spec surfs qx qy qz m Hwf)
      as (fy & fl & Ef & [(Hle & ->) | [(Hlt & w & Ew & ->) | (Hlt & Ew & ->)]]);
      cbn [mbind option_bind].
    + eexists Land, _. split; [reflexivity|]. split; [reflexivity|].
      exists 1%nat, fy, fl. split; [lia|]. split; [intros j Hj; lia|].
      split; [exact Ef|]. split; [exact Hle|]. repeat split.
    + eexists Wall, _. split; [reflexivity|]. split; [reflexivity|].
      exists 1%nat, fy, fl, w. split; [lia|]. split; [intros j Hj; lia|].
      split; [exact Ef|]. split; [exact Hlt|]. split; [exact Ew|]. repeat split.
    + set (p := mkVec3f (vx (pos m) + qx) (vy (pos m) + qy) (vz (pos m) + qz)) in *.
      set (m1 := with_floor_y fy (with_floor fl (with_pos p m))).
      destruct (IH m1) as (r & m' & Er & Hfr & Hout).
      exists r, m'. split; [exact Er|]. split; [exact Hfr|].
      assert (Hqp : forall j, quarter_pos qx qy qz (pos m1) j
                              = quarter_pos qx qy qz (pos m) (S j)).
      { intros j. apply quarter_pos_succ_r. }
      assert (Hclear : forall k, (forall j, (1 <= j < k)%nat ->
                 clear_at surfs (sy (face m1)) (quarter_pos qx qy qz (pos m1) j)) ->
               forall j, (1 <= j < S k)%nat ->
                 clear_at surfs (sy (face m)) (quarter_pos qx qy qz (pos m) j)).
      { intros k Hk j Hj. destruct j as [|[|j]]; [lia | |].
        - exists fy, fl. split; [exact Ef|]. split; [exact Hlt | exact Ew].
        - rewrite <- Hqp. apply Hk. lia. }
      destruct r; [| | |exact Hout].
      * destruct Hout as (Hc & Hp & Hv & Hf & Hw).
        split; [|rewrite <- Hqp; repeat split; assumption].
        intros j Hj. apply (Hclear (S n)); [|lia].
        intros j' Hj'. apply Hc. lia.
      * destruct Hout as (k & fy' & fl' & Hk & Hc & Ef' & Hle' & Hp & Hrest).
        exists (S k), fy', fl'. split; [lia|]. split; [apply Hclear, Hc|].
        rewrite <- !Hqp. split; [exact Ef'|]. split; [exact Hle'|].
        split; [exact Hp | exact Hrest].
      * destruct Hout as (k & fy' & fl' & w' & Hk & Hc & Ef' & Hlt' & Ew' & Hp & Hrest).
        exists (S k), fy', fl', w'. split; [lia|]. split; [apply Hclear, Hc|].
        rewrite <- !Hqp. split; [exact Ef'|]. split; [exact Hlt'|].
        split; [exact Ew'|]. split; [exact Hp | exact Hrest].
Qed.

(** Four quarter steps add up to the displacement of the tick. *)
Lemma quarter_pos_four (v p : Vec3f) :
  let q := quarter_pos (vx v / 4) (vy v / 4) (vz v / 4) p 4 in
  vx q == vx p + vx v /\ vy q == vy p + vy v /\ vz q == vz p + vz v.
Proof. simpl. repeat split; field. Qed.

(** C2.  On a well-formed surface list [air_step] returns; it splits the
    displacement [(vel.x, vel.y, vel.z)] into four equal quarter steps, adds
    them one at a time, and after each addition queries [find_floor] and then
    [find_wall] at the new point.  It returns ['land'] at the first quarter
    point at or below the floor height, snapped onto the floor; ['wall'] at
    the first quarter point where a wall is hit, with [vel.x], [vel.z] and
    [fvel] zeroed; and ['air'] only when all four quarter points are clear,
    the character then having moved by the whole displacement. *)
Theorem air_step_quarter_steps (surfs : list Surface) (m : MarioState) :
  Forall surface_wf surfs ->
  exists r m',
    air_step surfs m = Some (r, m') /\
    air_outcome surfs (vx (vel m) / 4) (vy (vel m) / 4) (vz (vel m) / 4) 4 m r m' /\
    (r = Air ->
     vx (pos m') == vx (pos m) + vx (vel m) /\
     vy (pos m') == vy (pos m) + vy (vel m) /\
     vz (pos m') == vz (pos m) + vz (vel m)).
Proof.
  intros Hwf.
  destruct (air_step_loop_spec surfs (vx (vel m) / 4) (vy (vel m) / 4) (vz (vel m) / 4)
              4 Hwf m) as (r & m' & Er & Hout).
  exists r, m'. split; [exact Er|]. split; [exact Hout|].
  intros ->. destruct Hout as (_ & _ & -> & _).
  apply quarter_pos_four.
Qed.

End AirStep.

Lemma air_step_quarter_steps_witness :
  Forall surface_wf level_flat /\
  exists r m',
    air_step (H := scene_math) level_flat mario_falling = Some (r, m') /\
    air_outcome (H := scene_math) level_flat
      (vx (vel mario_falling) / 4) (vy (vel mario_falling) / 4)
      (vz (vel mario_falling) / 4) 4 mario_falling r m' /\
    (r = Air ->
     vx (pos m') == vx (pos mario_falling) + vx (vel mario_falling) /\
     vy (pos m') == vy (pos mario_falling) + vy (vel mario_falling) /\
     vz (pos m') == vz (pos mario_falling) + vz (vel mario_falling)).
Proof.
  assert (Hwf : Forall surface_wf level_flat) by (repeat constructor; discriminate).
  split; [exact Hwf|].
  exact (air_step_quarter_steps (H := scene_math) level_flat mario_falling Hwf).
Defined.

(** Falling at 20 per tick from one unit above the ground, the character
    lands on the first quarter step and is snapped to height 0. *)
Example air_step_lands_on_level_flat :
  exists y,
    (fun rm : StepResult * MarioState => (rm.1, vy (pos rm.2))) <$>
      air_step (H := scene_math) level_flat mario_falling
    = Some (Land, y) /\ y == 0.
Proof. eexists. split; vm_compute; reflexivity. Qed.

(** ** C3: the action dispatch is total *)

Section Dispatch.
Context `{MathLib}.

Lemma ground_step_total surfs m :
  Forall surface_wf surfs -> is_Some (ground_step surfs m).
Proof.
  intros Hwf. unfold ground_step. cbv zeta.
  match goal with |- context [find_floor ?s ?x ?y ?z] =>
    destruct (find_floor_total s x y z Hwf) as [[fy fl] ->] end.
  cbn [mbind option_bind]. destruct (Qgtb _ _); eauto.
Qed.

Lemma air_step_total surfs m :
  Forall surface_wf surfs -> is_Some (air_step surfs m).
Proof.
  intros Hwf. unfold air_step. cbv zeta.
  destruct (air_step_loop_spec surfs (vx (vel m) / 4) (vy (vel m) / 4) (vz (vel m) / 4)
              4 Hwf m) as (r & m' & -> & _). eauto.
Qed.

Ltac handler_total Hwf :=
  cbv zeta;
  repeat match goal with
  | |- is_Some (Some _) => eexists; reflexivity
  | |- context [ground_step ?s ?m] =>
      destruct (ground_step_total s m Hwf) as [[? ?] ->]; cbn [mbind option_bind]
  | |- context [air_step ?s ?m] =>
      destruct (air_step_total s m Hwf) as [[? ?] ->]; cbn [mbind option_bind]
  | |- context [if ?b then _ else _] => destruct b
  end.

Lemma handlers_total (surfs : list Surface) (a : Z) (h : Handler) :
  Forall surface_wf surfs ->
  (a, h) ∈ ACT_TABLE -> forall m c, is_Some (h surfs m c).
Proof.
  intros Hwf Hin m c. unfold ACT_TABLE in Hin.
  repeat (apply elem_of_cons in Hin as [Hin|Hin];
          [injection Hin as _ ->|]); [..|by apply elem_of_nil in Hin].
  - unfold a_idle. handler_total Hwf.
  - unfold a_walk. handler_total Hwf.
  - unfold a_decel. handler_total Hwf.
  - unfold a_crouch. handler_total Hwf.
  - unfold a_jump. handler_total Hwf.
  - unfold a_dbl. handler_total Hwf.
  - unfold a_triple. handler_total Hwf.
  - unfold a_backflip. handler_total Hwf.
  - unfold a_sideflip. handler_total Hwf.
  - unfold a_longjump. handler_total Hwf.
  - unfold a_wallkick. handler_total Hwf.
  - unfold a_freefall. handler_total Hwf.
  - unfold a_dive. handler_total Hwf.
  - unfold a_belly. handler_total Hwf.
  - unfold a_gp. handler_total Hwf.
  - unfold a_gpl. handler_total Hwf.
  - unfold a_knock. handler_total Hwf.
  - unfold a_lava. handler_total Hwf.
  - unfold a_star. handler_total Hwf.
  - unfold a_death. handler_total Hwf.
Qed.

(** C3.  The dispatch of the logic tick is total.  For every action id,
    state and input frame it selects one handler, the table entry of the id
    or [a_idle] when the id has no entry, and on a well-formed surface list
    that handler returns a next state without raising. *)
Theorem dispatch_total (surfs : list Surface) (m : MarioState) (c : Controller) :
  Forall surface_wf surfs ->
  exists (h : Handler) (m' : MarioState),
    dispatch surfs m c = h surfs m c /\
    h surfs m c = Some m' /\
    match ACT_MAP !! action m with
    | Some h' => h = h' /\ (action m, h) ∈ ACT_TABLE
    | None => h = a_idle /\ action m ∉ ACT_TABLE.*1
    end.
Proof.
  intros Hwf. unfold dispatch.
  destruct (ACT_MAP !! action m) as [h|] eqn:E; cbn [default].
  - assert (Hin : (action m, h) ∈ ACT_TABLE).
    { apply (elem_of_list_to_map_2 (M := gmap Z)). exact E. }
    destruct (handlers_total surfs _ _ Hwf Hin m c) as [m' Hm'].
    exists h, m'. auto.
  - destruct (handlers_total surfs ACT_IDLE a_idle Hwf ltac:(left) m c) as [m' Hm'].
    exists a_idle, m'. split; [reflexivity|]. split; [exact Hm'|]. split; [reflexivity|].
    apply (not_elem_of_list_to_map (M := gmap Z)). exact E.
Qed.

End Dispatch.

Lemma dispatch_total_witness :
  Forall surface_wf level_flat /\
  exists (h : Handler) (m' : MarioState),
    dispatch (H := scene_math) level_flat (with_action 0x999%Z mario_default) ctrl_default
    = h level_flat (with_action 0x999%Z mario_default) ctrl_default /\
    h level_flat (with_action 0x999%Z mario_default) ctrl_default = Some m' /\
    match ACT_MAP (H := scene_math) !! action (with_action 0x999%Z mario_default) with
    | Some h' => h = h' /\
        (action (with_action 0x999%Z mario_default), h) ∈ ACT_TABLE (H := scene_math)
    | None => h = a_idle /\ action (with_action 0x999%Z mario_default) ∉ (ACT_TABLE (H := scene_math)).*1
    end.
Proof.
  assert (Hwf : Forall surface_wf level_flat) by (repeat constructor; discriminate).
  split; [exact Hwf|].
  exact (dispatch_total (H := scene_math) level_flat (with_action 0x999%Z mario_default)
           ctrl_default Hwf).
Defined.

(** ** C4: the jump chain of the walking action *)

Section JumpChain.
Context `{MathLib}.

Lemma ground_step_cases surfs m :
  Forall surface_wf surfs ->
  exists fy fl,
    let m1 := with_floor_y fy (with_floor fl
                (with_pos_z (vz (pos m) + vz (vel m))
                   (with_pos_x (vx (pos m) + vx (vel m)) m))) in
    ground_step surfs m = Some (Air, m1) \/
    ground_step surfs m = Some (Ground, with_pos_y fy m1).
Proof.
  intros Hwf. unfold ground_step. cbv zeta.
  match goal with |- context [find_floor ?s ?x ?y ?z] =>
    destruct (find_floor_total s x y z Hwf) as [[fy fl] ->] end.
  exists fy, fl. cbn [mbind option_bind].
  destruct (Qgtb _ _); [left | right]; reflexivity.
Qed.

(** A walking tick without a press: the window timer counts down while it
    is positive, and the counter is reset once it is not. *)
Lemma walk_tick_counters surfs m c :
  Forall surface_wf surfs -> plain_walk_input c ->
  exists m',
    a_walk surfs m c = Some m' /\
    (if (jtimer m >? 0)%Z
     then jtimer m' = (jtimer m - 1)%Z /\ jcount m' = jcount m
     else jtimer m' = jtimer m /\ jcount m' = 0%Z).
Proof.
  intros Hwf (HA & HB & Hs). unfold a_walk. rewrite HA, HB.
  destruct (Qeq_bool (stick_mag c) 0) eqn:E; [apply Qeq_bool_iff in E; contradiction|].
  cbv zeta.
  match goal with |- context [ground_step ?s ?m0] =>
    destruct (ground_step_cases s m0 Hwf) as (fy & fl & [-> | ->]) end;
    cbn [mbind option_bind StepResult_eqb];
    match goal with |- context [if (jtimer ?x >? 0)%Z then _ else _] =>
      change (jtimer x) with (jtimer m) end;
    destruct (jtimer m >? 0)%Z; eexists; (split; [reflexivity|]); split; reflexivity.
Qed.

Lemma walk_ticks_counters surfs c n :
  Forall surface_wf surfs -> plain_walk_input c ->
  forall m, (0 <= jtimer m)%Z ->
  exists m',
    walk_ticks n surfs c m = Some m' /\
    ((Z.of_nat n <= jtimer m)%Z ->
     jcount m' = jcount m /\ jtimer m' = (jtimer m - Z.of_nat n)%Z) /\
    ((jtimer m < Z.of_nat n)%Z -> jcount m' = 0%Z /\ jtimer m' = 0%Z).
Proof.
  intros Hwf Hc. induction n as [|n IH]; intros m Ht.
  - exists m. split; [reflexivity|]. split; intros; [split|]; lia.
  - cbn [walk_ticks].
    destruct (walk_tick_counters surfs m c Hwf Hc) as (m1 & -> & H1).
    cbn [mbind option_bind].
    destruct (jtimer m >? 0)%Z eqn:E.
    + destruct H1 as [Ht1 Hc1].
      destruct (IH m1 ltac:(lia)) as (m' & Em' & Hle & Hgt).
      exists m'. split; [exact Em'|]. split; intros Hn.
      * destruct Hle as [-> ->]; [lia|]. split; [congruence | lia].
      * apply Hgt. lia.
    + destruct H1 as [Ht1 Hc1].
      destruct (IH m1 ltac:(lia)) as (m' & Em' & Hle & Hgt).
      exists m'. split; [exact Em'|]. split; intros Hn; [lia|].
      assert (jtimer m = 0)%Z by lia.
      destruct (Z.le_gt_cases (Z.of_nat n) (jtimer m1)) as [Hcase|Hcase].
      * destruct (Hle Hcase) as [-> ->]. lia.
      * apply Hgt. exact Hcase.
Qed.

(** An air step on a well-formed surface list returns and writes only the
    fields of [air_frame]; the vertical velocity is left as it was. *)
Lemma air_step_keeps surfs m :
  Forall surface_wf surfs ->
  exists r m',
    air_step surfs m = Some (r, m') /\ air_frame m m' /\ vy (vel m') = vy (vel m).
Proof.
  intros Hwf. unfold air_step. cbv zeta.
  destruct (air_step_loop_spec surfs (vx (vel m) / 4) (vy (vel m) / 4) (vz (vel m) / 4)
              4 Hwf m) as (r & m' & -> & Hfr & Hout).
  exists r, m'. split; [reflexivity|]. split; [exact Hfr|].
  destruct r.
  - destruct Hout as (_ & _ & -> & _). reflexivity.
  - destruct Hout as (k & fy & fl & _ & _ & _ & _ & _ & _ & _ & -> & _). reflexivity.
  - destruct Hout as (k & fy & fl & w & _ & _ & _ & _ & _ & _ & _ & _ & _ & -> & _).
    reflexivity.
  - destruct Hout.
Qed.

Lemma air_frame_counters m m' :
  air_frame m m' ->
  jcount m' = jcount m /\ jtimer m' = jtimer m /\ atimer m' = atimer m /\
  action m' = action m.
Proof. intros ->. repeat split. Qed.

(** The jump-press branch of [a_walk]. *)
Lemma walk_jump_press surfs m c :
  bit_set (pressed c) IN_A = true -> jump_press_rule surfs m c.
Proof.
  intros HA. unfold jump_press_rule.
  set (lj := Qgtb (fvel m) 10 && bit_set (down c) IN_Z_D).
  set (tgt := if (jcount m + 1 >=? 3)%Z && Qgtb (fvel m) 15 then ACT_TRIPLE
              else if (jcount m + 1 >=? 2)%Z then ACT_DBL_JUMP else ACT_JUMP).
  assert (E : a_walk surfs m c
              = Some (if lj then set_act ACT_LONG_JUMP m
                      else set_act tgt (with_jcount (jcount m + 1)%Z (with_jtimer 5%Z m)))).
  { unfold a_walk, lj, tgt. rewrite HA. cbv zeta.
    cbn [jcount fvel with_jcount with_jtimer].
    destruct (Qgtb (fvel m) 10 && bit_set (down c) IN_Z_D); [reflexivity|].
    destruct (jcount m + 1 >=? 3)%Z; destruct (Qgtb (fvel m) 15);
      destruct (jcount m + 1 >=? 2)%Z; reflexivity. }
  eexists. split; [exact E|].
  assert (Hlj : lj = true <-> 10 < fvel m /\ bit_set (down c) IN_Z_D = true).
  { unfold lj. rewrite andb_true_iff, Qgtb_true. reflexivity. }
  destruct lj.
  - split; [intros _; repeat split|]. intros Hn. destruct Hn. apply Hlj. reflexivity.
  - split; [intros Hy; apply Hlj in Hy; discriminate|]. intros _.
    split; [reflexivity|]. split; [reflexivity|].
    change (action (set_act tgt _)) with tgt. unfold tgt.
    destruct (Z.geb_spec (jcount m + 1) 3); cbn [andb];
      [destruct (Qgtb (fvel m) 15) eqn:E15;
       [apply Qgtb_true in E15 | apply Qgtb_false in E15] |];
      try destruct (Z.geb_spec (jcount m + 1) 2);
      unfold ACT_TRIPLE, ACT_DBL_JUMP, ACT_JUMP;
      (split; [|split]); (split; [intros Heq; try discriminate Heq | intros Hp]);
      try reflexivity; try lia;
      try (split; [lia|]); try lra;
      try (intros [? ?]; (lia || lra));
      try (destruct Hp as [? Hp]; try lia; try lra; exfalso; apply Hp; split; (lia || lra)).
Qed.

(** The first tick of the triple jump. *)
Lemma triple_first_tick surfs m c :
  Forall surface_wf surfs -> atimer m = 0%Z -> triple_launch surfs m c.
Proof.
  intros Hwf Ht. unfold triple_launch, a_triple. rewrite Ht. cbn [Z.eqb]. cbv zeta.
  destruct (bit_set (pressed c) IN_Z).
  - eexists. split; [reflexivity|]. split; [reflexivity | discriminate].
  - match goal with |- context [air_step ?s ?m0] =>
      destruct (air_step_keeps s m0 Hwf) as (r & m1 & -> & _ & Hv) end.
    cbn [mbind option_bind]. eexists. split; [reflexivity|].
    split; [discriminate|]. intros _.
    destruct (StepResult_eqb r Land);
      match goal with |- vy (vel ?x) == _ => change (vy (vel x)) with (vy (vel m1)) end;
      rewrite Hv; vm_compute; reflexivity.
Qed.

Ltac counters_frame Hwf :=
  cbv zeta; unfold update_air, take_dmg; cbv zeta;
  repeat match goal with
  | |- context [if ?b then _ else _] => destruct b
  | |- context [ground_step ?s ?m0] =>
      destruct (ground_step_cases s m0 Hwf) as (? & ? & [-> | ->]);
      cbn [mbind option_bind]
  | |- context [air_step ?s ?m0] =>
      let Hfr := fresh "Hfr" in
      destruct (air_step_keeps s m0 Hwf) as (? & ? & -> & Hfr & _);
      apply air_frame_counters in Hfr; cbn in Hfr; destruct Hfr as (? & ? & _);
      cbn [mbind option_bind]
  end;
  intros [= <-]; cbn; split; congruence.

(** Between jumps the counter and its window timer are written only by the
    walking and idle handlers: every other handler leaves both alone. *)
Lemma handlers_keep_counters (surfs : list Surface) (m : MarioState) (c : Controller) :
  Forall surface_wf surfs -> counters_kept surfs m c.
Proof.
  intros Hwf a h Hin Hi Hw m'. unfold ACT_TABLE in Hin.
  repeat (apply elem_of_cons in Hin as [Hin|Hin];
          [injection Hin as -> ->|]); [..|by apply elem_of_nil in Hin].
  - contradiction.
  - contradiction.
  - unfold a_decel. counters_frame Hwf.
  - unfold a_crouch. counters_frame Hwf.
  - unfold a_jump. counters_frame Hwf.
  - unfold a_dbl. counters_frame Hwf.
  - unfold a_triple. counters_frame Hwf.
  - unfold a_backflip. counters_frame Hwf.
  - unfold a_sideflip. counters_frame Hwf.
  - unfold a_longjump. counters_frame Hwf.
  - unfold a_wallkick. counters_frame Hwf.
  - unfold a_freefall. counters_frame Hwf.
  - unfold a_dive. counters_frame Hwf.
  - unfold a_belly. counters_frame Hwf.
  - unfold a_gp. counters_frame Hwf.
  - unfold a_gpl. counters_frame Hwf.
  - unfold a_knock. counters_frame Hwf.
  - unfold a_lava. counters_frame Hwf.
  - unfold a_star. counters_frame Hwf.
  - unfold a_death. counters_frame Hwf.
Qed.

(** One walking tick that reaches the ground step, whatever the timer. *)
Lemma walk_tick_single surfs m c :
  Forall surface_wf surfs -> plain_walk_input c -> walk_tick_rule surfs m c.
Proof.
  intros Hwf Hc. destruct (walk_tick_counters surfs m c Hwf Hc) as (m' & E & Hr).
  exists m'. split; [exact E|].
  destruct (Z.gtb_spec (jtimer m) 0); (split; [intros ?; try lia; exact Hr
                                             | intros ?; try lia; exact Hr]).
Qed.

(** The two exits of [a_walk] that come before the ground step. *)
Lemma walk_exits_keep surfs m c :
  bit_set (pressed c) IN_A = false ->
  bit_set (pressed c) IN_B = true \/ stick_mag c == 0 ->
  walk_exit_rule surfs m c.
Proof.
  intros HA Hex. unfold walk_exit_rule, a_walk. rewrite HA.
  destruct (bit_set (pressed c) IN_B) eqn:HB.
  - eexists. split; [reflexivity|]. repeat split.
  - destruct Hex as [Hex|Hex]; [discriminate|].
    apply Qeq_bool_iff in Hex. rewrite Hex.
    eexists. split; [reflexivity|]. repeat split.
Qed.

(** The idle handler on the counter and its timer. *)
Lemma idle_counters surfs m c :
  Forall surface_wf surfs -> idle_counter_rule surfs m c.
Proof.
  intros Hwf. unfold idle_counter_rule, a_idle. cbv zeta.
  destruct (bit_set (pressed c) IN_A);
    [eexists; split; [reflexivity|]; split; reflexivity|].
  destruct (bit_set (pressed c) IN_Z);
    [eexists; split; [reflexivity|]; split; reflexivity|].
  destruct (bit_set (pressed c) IN_B);
    [eexists; split; [reflexivity|]; split; reflexivity|].
  destruct (Qgtb (stick_mag c) 0);
    [eexists; split; [reflexivity|]; split; reflexivity|].
  match goal with |- context [ground_step ?s ?m0] =>
    destruct (ground_step_cases s m0 Hwf) as (fy & fl & [-> | ->]) end;
    cbn [mbind option_bind]; eexists; (split; [reflexivity|]); split; reflexivity.
Qed.

(** C4 (amended).  In the walking action a jump-press becomes a long jump
    when [fvel > 10] and crouch is held.  Otherwise it sets the window timer
    to 5, increments the consecutive-jump counter, and goes to the triple
    jump exactly when the counter had reached 2 and [fvel > 15], else to the
    double jump when the counter had reached 1, else to a single jump.  A
    walking tick without a press that reaches the ground step counts the
    window timer down while it is positive and resets the counter when it is
    not, so the counter outlives five walking ticks and is 0 from the sixth.
    A walking tick without a jump press that leaves for the dive or for the
    deceleration writes neither; the idle handler never writes the timer
    and resets the counter exactly on a jump press; and no other handler
    writes either of them.  On its first tick the triple-jump handler sets
    [vel.y] to exactly 69.0, whatever the forward speed. *)
Theorem walk_jump_chain (surfs : list Surface) (m : MarioState) (c : Controller) :
  Forall surface_wf surfs ->
  (bit_set (pressed c) IN_A = true -> jump_press_rule surfs m c) /\
  (plain_walk_input c -> (0 <= jtimer m)%Z -> jump_window_rule surfs m c) /\
  counters_kept surfs m c /\
  (atimer m = 0%Z -> triple_launch surfs m c) /\
  (plain_walk_input c -> walk_tick_rule surfs m c) /\
  (bit_set (pressed c) IN_A = false ->
   bit_set (pressed c) IN_B = true \/ stick_mag c == 0 ->
   walk_exit_rule surfs m c) /\
  idle_counter_rule surfs m c.
Proof.
  intros Hwf. split; [|split; [|split; [|split; [|split; [|split]]]]].
  - apply walk_jump_press.
  - intros Hc Ht n. apply walk_ticks_counters; assumption.
  - apply handlers_keep_counters, Hwf.
  - apply triple_first_tick, Hwf.
  - apply walk_tick_single, Hwf.
  - apply walk_exits_keep.
  - apply idle_counters, Hwf.
Qed.

End JumpChain.

Lemma walk_jump_chain_witness :
  Forall surface_wf level_flat /\
  (bit_set (pressed ctrl_jump) IN_A = true /\
   jump_press_rule (H := scene_math) level_flat mario_walking ctrl_jump) /\
  (plain_walk_input ctrl_stick /\ (0 <= jtimer mario_walking)%Z /\
   jump_window_rule (H := scene_math) level_flat mario_walking ctrl_stick) /\
  counters_kept (H := scene_math) level_flat mario_walking ctrl_stick /\
  (atimer mario_walking = 0%Z /\
   triple_launch (H := scene_math) level_flat mario_walking ctrl_stick) /\
  (plain_walk_input ctrl_stick /\
   walk_tick_rule (H := scene_math) level_flat mario_walking ctrl_stick) /\
  (bit_set (pressed ctrl_default) IN_A = false /\
   (bit_set (pressed ctrl_default) IN_B = true \/ stick_mag ctrl_default == 0) /\
   walk_exit_rule (H := scene_math) level_flat mario_walking ctrl_default) /\
  idle_counter_rule (H := scene_math) level_flat mario_walking ctrl_jump.
Proof.
  assert (Hwf : Forall surface_wf level_flat) by (repeat constructor; discriminate).
  assert (HA : bit_set (pressed ctrl_jump) IN_A = true) by reflexivity.
  assert (Hc : plain_walk_input ctrl_stick).
  { split; [reflexivity|]. split; [reflexivity|]. vm_compute. discriminate. }
  assert (Ht : (0 <= jtimer mario_walking)%Z) by (simpl; lia).
  assert (Ha : atimer mario_walking = 0%Z) by reflexivity.
  assert (HnA : bit_set (pressed ctrl_default) IN_A = false) by reflexivity.
  assert (Hex : bit_set (pressed ctrl_default) IN_B = true \/ stick_mag ctrl_default == 0)
    by (right; reflexivity).
  split; [exact Hwf|]. split; [|split; [|split; [|split; [|split; [|split]]]]].
  - split; [exact HA|].
    exact (proj1 (walk_jump_chain (H := scene_math) level_flat mario_walking ctrl_jump Hwf) HA).
  - split; [exact Hc|]. split; [exact Ht|].
    exact (proj1 (proj2 (walk_jump_chain (H := scene_math) level_flat mario_walking
                           ctrl_stick Hwf)) Hc Ht).
  - exact (proj1 (proj2 (proj2 (walk_jump_chain (H := scene_math) level_flat mario_walking
                                  ctrl_stick Hwf)))).
  - split; [exact Ha|].
    exact (proj1 (proj2 (proj2 (proj2 (walk_jump_chain (H := scene_math) level_flat
                                         mario_walking ctrl_stick Hwf)))) Ha).
  - split; [exact Hc|].
    exact (proj1 (proj2 (proj2 (proj2 (proj2 (walk_jump_chain (H := scene_math) level_flat
                                                mario_walking ctrl_stick Hwf))))) Hc).
  - split; [exact HnA|]. split; [exact Hex|].
    exact (proj1 (proj2 (proj2 (proj2 (proj2 (proj2
             (walk_jump_chain (H := scene_math) level_flat mario_walking
                ctrl_default Hwf)))))) HnA Hex).
  - exact (proj2 (proj2 (proj2 (proj2 (proj2 (proj2
             (walk_jump_chain (H := scene_math) level_flat mario_walking
                ctrl_jump Hwf))))))).
Defined.

(** C4 as stated fails in three places.  With crouch held, a press at
    counter 2 and speed 20 is a long jump, not a triple jump.  At counter 2
    and speed 12 the press is a double jump, not a single one.  And after
    five walking ticks the window timer is 0 while the counter is still 2,
    so the next press is a triple jump. *)
Lemma walk_jump_chain_as_stated_fails :
  ((2 <= jcount mario_walking)%Z /\ 15 < fvel mario_walking /\
   action <$> a_walk (H := scene_math) level_flat mario_walking ctrl_crouch_jump
   = Some ACT_LONG_JUMP) /\
  (jcount (with_fvel 12 mario_walking) = 2%Z /\
   action <$> a_walk (H := scene_math) level_flat (with_fvel 12 mario_walking) ctrl_jump
   = Some ACT_DBL_JUMP) /\
  ((fun m => (jtimer m, jcount m)) <$>
     walk_ticks (H := scene_math) 5 level_flat ctrl_stick mario_walking
   = Some (0, 2)%Z /\
   action <$> (walk_ticks (H := scene_math) 5 level_flat ctrl_stick mario_walking
               ≫= fun m => a_walk (H := scene_math) level_flat m ctrl_jump)
   = Some ACT_TRIPLE).
Proof.
  split; [|split].
  - split; [simpl; lia|]. split; [vm_compute; reflexivity|]. vm_compute. reflexivity.
  - split; vm_compute; reflexivity.
  - split; vm_compute; reflexivity.
Qed.

(** ** C5 and C10: the damage gate and the health bounds *)

(** C5.  With the invulnerability timer positive, [take_dmg] leaves the
    whole state unchanged.  A call that finds the timer not positive applies
    the damage, clamps the health at 0 and sets the timer to 60, so that a
    second call with no countdown in between changes nothing: the health
    stays what the first call left, and it is not negative. *)
Theorem take_dmg_gate (m : MarioState) (amt1 amt2 : Z) :
  ((inv m > 0)%Z -> take_dmg amt1 m = m) /\
  ((inv m <= 0)%Z ->
   let m1 := take_dmg amt1 m in
   inv m1 = 60%Z /\ hurt m1 = 10%Z /\
   health m1 = Z.max 0 (health m - amt1) /\
   take_dmg amt2 m1 = m1 /\
   health (take_dmg amt2 m1) = health m1 /\
   (0 <= health (take_dmg amt2 m1))%Z).
Proof.
  split.
  - intros Hinv. unfold take_dmg.
    destruct (inv m >? 0)%Z eqn:E; [reflexivity | lia].
  - intros Hinv. unfold take_dmg at 1.
    destruct (inv m >? 0)%Z eqn:E; [lia|]. cbv zeta.
    set (m1 := with_inv 60%Z _).
    assert (E1 : take_dmg amt2 m1 = m1) by reflexivity.
    rewrite E1. cbn. repeat split. lia.
Qed.

Lemma take_dmg_gate_witness :
  ((inv (with_inv 3%Z mario_default) > 0)%Z /\
   take_dmg 0x100 (with_inv 3%Z mario_default) = with_inv 3%Z mario_default) /\
  ((inv mario_default <= 0)%Z /\
   let m1 := take_dmg 0x100 mario_default in
   inv m1 = 60%Z /\ hurt m1 = 10%Z /\
   health m1 = Z.max 0 (health mario_default - 0x100) /\
   take_dmg 0x200 m1 = m1 /\
   health (take_dmg 0x200 m1) = health m1 /\
   (0 <= health (take_dmg 0x200 m1))%Z).
Proof.
  split.
  - assert (Hinv : (inv (with_inv 3%Z mario_default) > 0)%Z) by (simpl; lia).
    split; [exact Hinv|].
    exact (proj1 (take_dmg_gate (with_inv 3%Z mario_default) 0x100 0x200) Hinv).
  - assert (Hinv : (inv mario_default <= 0)%Z) by (simpl; lia).
    split; [exact Hinv|].
    exact (proj2 (take_dmg_gate mario_default 0x100 0x200) Hinv).
Defined.

Lemma wedges_range (m : MarioState) :
  (0 <= health m <= 0x880)%Z -> (0 <= wedges m <= 8)%Z.
Proof.
  intros Hh. unfold wedges.
  rewrite Z.shiftr_div_pow2 by lia.
  change 0xF%Z with (Z.ones 4). rewrite Z.land_ones by lia.
  assert (0 <= health m / 2 ^ 8 <= 8)%Z.
  { split; [apply Z.div_pos; lia|].
    assert (health m / 2 ^ 8 < 9)%Z by (apply Z.div_lt_upper_bound; lia). lia. }
  rewrite Z.mod_small; lia.
Qed.

Lemma health_op_bounds (m : MarioState) (op : HealthOp) :
  op_nonneg op -> (0 <= health m <= 0x880)%Z ->
  (0 <= health (health_op m op) <= 0x880)%Z.
Proof.
  intros Hop Hh. destruct op as [amt|amt|]; simpl in *.
  - lia.
  - unfold take_dmg. destruct (inv m >? 0)%Z; simpl; lia.
  - unfold tick_timers. cbv zeta.
    destruct (inv m >? 0)%Z; destruct (hurt _ >? 0)%Z; simpl; lia.
Qed.

(** C10 (amended).  Starting from a health in [0, 0x880], every sequence of
    [heal] and [take_dmg] calls with non-negative amounts, interleaved with
    timer countdowns, keeps the health in [0, 0x880], and the wedge count
    [(health >> 8) & 0xF] in [0, 8]. *)
Theorem health_bounded (ops : list HealthOp) (m : MarioState) :
  Forall op_nonneg ops ->
  (0 <= health m <= 0x880)%Z ->
  (0 <= health (health_ops ops m) <= 0x880)%Z /\
  (0 <= wedges (health_ops ops m) <= 8)%Z.
Proof.
  intros Hops. revert m. unfold health_ops.
  induction Hops as [|op ops Hop _ IH]; intros m Hh; simpl.
  - split; [exact Hh | apply wedges_range, Hh].
  - apply IH, health_op_bounds; assumption.
Qed.

Lemma health_bounded_witness :
  Forall op_nonneg [OpDmg 0x300; OpHeal 0x40; OpTick; OpDmg 0x900] /\
  (0 <= health mario_default <= 0x880)%Z /\
  (0 <= health (health_ops [OpDmg 0x300; OpHeal 0x40; OpTick; OpDmg 0x900] mario_default)
   <= 0x880)%Z /\
  (0 <= wedges (health_ops [OpDmg 0x300; OpHeal 0x40; OpTick; OpDmg 0x900] mario_default)
   <= 8)%Z.
Proof.
  assert (Hops : Forall op_nonneg [OpDmg 0x300; OpHeal 0x40; OpTick; OpDmg 0x900])
    by (repeat constructor; simpl; lia).
  assert (Hh : (0 <= health mario_default <= 0x880)%Z) by (simpl; lia).
  split; [exact Hops|]. split; [exact Hh|].
  exact (health_bounded _ mario_default Hops Hh).
Defined.

(** C10 as stated fails for a negative amount: [heal(-0x100)] on an empty
    health leaves 0 by [-0x100], and the wedge count becomes 15. *)
Lemma heal_negative_escapes :
  let m := with_health 0%Z mario_default in
  (0 <= health m <= 0x880)%Z /\
  health (heal (-0x100) m) = (-0x100)%Z /\
  wedges (heal (-0x100) m) = 15%Z /\
  health (take_dmg (-1) mario_default) = 0x881%Z.
Proof. cbv zeta. split; [simpl; lia|]. repeat split. Qed.

(** ** C6: collecting is idempotent *)

Section Collecting.
Context `{MathLib}.

Lemma interact_body_spent cur_lvl ctrl mario o :
  spent o -> interact_body cur_lvl ctrl mario o = (mario, o, None).
Proof.
  intros Hs. unfold interact_body, interactable.
  destruct Hs as [-> | ->]; cbn [negb orb]; [reflexivity|].
  destruct (o_active o); reflexivity.
Qed.

Lemma get_star_new l s m :
  has_star l s m = false ->
  stars (get_star l s m) = (stars m + 1)%Z /\
  has_star l s (get_star l s m) = true /\
  coins (get_star l s m) = coins m /\ lives (get_star l s m) = lives m.
Proof.
  unfold has_star, get_star. intros Hno. apply bool_decide_eq_false in Hno.
  destruct (lvl_stars m !! l) as [cur|] eqn:E; cbn [default] in Hno; cbv zeta.
  - rewrite E. cbn [default]. rewrite (bool_decide_eq_false_2 _ Hno).
    cbn. rewrite lookup_insert_eq. cbn [default].
    split; [reflexivity|]. split; [|split; reflexivity].
    apply bool_decide_eq_true. set_solver.
  - cbn [lvl_stars with_lvl_stars]. rewrite lookup_insert_eq. cbn [default].
    rewrite (bool_decide_eq_false_2 _ Hno).
    cbn. rewrite lookup_insert_eq. cbn [default].
    split; [reflexivity|]. split; [|split; reflexivity].
    apply bool_decide_eq_true. set_solver.
Qed.

(** The first interaction with a collectible: the flags flip and the reward
    is added once. *)
Lemma interact_body_collects cur_lvl ctrl mario o :
  collectable cur_lvl mario o ->
  exists mario' o',
    interact_body cur_lvl ctrl mario o = (mario', o', None) /\
    o_collected o' = true /\ o_active o' = false /\
    coins mario' = (coins mario + coin_reward o)%Z /\
    lives mario' = (lives mario + life_reward o)%Z /\
    stars mario' = (stars mario + star_reward o)%Z /\
    (o_type o = STAR -> has_star cur_lvl (o_star_id o) mario' = true).
Proof.
  intros (Hc & Hi & Hs). unfold interact_body. rewrite Hi. cbn [negb].
  unfold coin_reward, life_reward, star_reward.
  destruct (o_type o) eqn:Et; try discriminate Hc; cbn [is_coin].
  1-3: eexists _, _; split; [reflexivity|]; cbn;
       repeat split; try lia; intros; discriminate.
  - rewrite Hs. cbn [negb].
    destruct (get_star_new cur_lvl (o_star_id o) mario Hs) as (Hst & Hhas & Hco & Hli).
    eexists _, _. split; [reflexivity|].
    split; [reflexivity|]. split; [reflexivity|].
    unfold has_star in Hhas |- *.
    cbn [coins lives stars lvl_stars set_act with_prev_act with_action with_astate
         with_atimer o_star_id owith_active owith_collected].
    rewrite Hco, Hli, Hst. repeat split; try lia. intros _. exact Hhas.
  - eexists _, _. split; [reflexivity|]. cbn.
    repeat split; try lia. intros; discriminate.
Qed.

(** A run of interaction keeps every spent object where and as it is. *)
Lemma interact_loop_keeps_spent cur_lvl ctrl objs :
  forall mario i o,
    objs !! i = Some o -> spent o ->
    (interact_loop cur_lvl ctrl mario objs).1.2 !! i = Some o.
Proof.
  induction objs as [|a rest IH]; intros mario i o Hi Hs; [discriminate|].
  cbn [interact_loop].
  destruct (interact_body cur_lvl ctrl mario a) as [[m1 a'] w] eqn:Eb.
  destruct i as [|i]; simpl in Hi.
  - injection Hi as ->. rewrite (interact_body_spent _ _ _ _ Hs) in Eb.
    injection Eb as <- <- <-.
    destruct (interact_loop cur_lvl ctrl mario rest) as [[m2 rest'] r]. reflexivity.
  - destruct w as [w|]; [exact Hi|].
    specialize (IH m1 i o Hi Hs).
    destruct (interact_loop cur_lvl ctrl m1 rest) as [[m2 rest'] r]. exact IH.
Qed.

(** A spent object adds nothing to a run: the character and the warp
    result are those of the run without it. *)
Lemma interact_loop_skips_spent cur_lvl ctrl o l2 :
  spent o ->
  forall l1 mario,
    (interact_loop cur_lvl ctrl mario (l1 ++ o :: l2)).1.1
    = (interact_loop cur_lvl ctrl mario (l1 ++ l2)).1.1 /\
    (interact_loop cur_lvl ctrl mario (l1 ++ o :: l2)).2
    = (interact_loop cur_lvl ctrl mario (l1 ++ l2)).2.
Proof.
  intros Hs. induction l1 as [|a l1 IH]; intros mario.
  - cbn [app interact_loop]. rewrite (interact_body_spent _ _ _ _ Hs).
    destruct (interact_loop cur_lvl ctrl mario l2) as [[m2 rest'] r]. split; reflexivity.
  - cbn [app interact_loop].
    destruct (interact_body cur_lvl ctrl mario a) as [[m1 a'] [w|]]; [split; reflexivity|].
    destruct (IH m1) as [IH1 IH2].
    destruct (interact_loop cur_lvl ctrl m1 (l1 ++ o :: l2)) as [[m2 rest2] r2].
    destruct (interact_loop cur_lvl ctrl m1 (l1 ++ l2)) as [[m3 rest3] r3].
    simpl in *. subst. split; reflexivity.
Qed.

Lemma update_objs_keeps_inactive mario frame (objs : list Obj) i o :
  objs !! i = Some o -> o_active o = false ->
  update_objs mario frame objs !! i = Some o.
Proof.
  intros Hi Ha. unfold update_objs. rewrite list_lookup_fmap, Hi. simpl.
  unfold update_obj. rewrite Ha. reflexivity.
Qed.

Lemma update_objs_delete mario frame (objs : list Obj) i :
  update_objs mario frame (delete i objs)
  = delete i (update_objs mario frame objs).
Proof.
  unfold update_objs. revert i. induction objs as [|a l IH]; intros [|i];
    simpl; try reflexivity. f_equal. apply IH.
Qed.

(** A whole logic tick leaves an inactive object where and as it is, and
    treats the character as if the object were not in the list. *)
Lemma objs_tick_inactive cur_lvl ctrl frame mario (objs : list Obj) i o :
  objs !! i = Some o -> o_active o = false ->
  (objs_tick cur_lvl ctrl frame mario objs).1.2 !! i = Some o /\
  (objs_tick cur_lvl ctrl frame mario objs).1.1
  = (objs_tick cur_lvl ctrl frame mario (delete i objs)).1.1 /\
  (objs_tick cur_lvl ctrl frame mario objs).2
  = (objs_tick cur_lvl ctrl frame mario (delete i objs)).2.
Proof.
  intros Hi Ha. unfold objs_tick, interact_objs.
  pose proof (update_objs_keeps_inactive mario frame objs i o Hi Ha) as Hu.
  split; [apply interact_loop_keeps_spent; [exact Hu | left; exact Ha]|].
  rewrite update_objs_delete.
  rewrite <- (take_drop_middle _ _ _ Hu) at 1 3.
  rewrite delete_take_drop.
  apply interact_loop_skips_spent. left. exact Ha.
Qed.

(** A run over [l1 ++ l] that passes [l1] without a warp goes on over [l]
    from the state it has reached. *)
Lemma interact_loop_app cur_lvl ctrl l :
  forall l1 mario m1 l1',
    interact_loop cur_lvl ctrl mario l1 = (m1, l1', None) ->
    length l1' = length l1 /\
    interact_loop cur_lvl ctrl mario (l1 ++ l)
    = (let '(m2, l', r) := interact_loop cur_lvl ctrl m1 l in (m2, l1' ++ l', r)).
Proof.
  induction l1 as [|a l1 IH]; intros mario m1 l1' Hl1.
  - injection Hl1 as <- <-. split; [reflexivity|]. cbn [app].
    destruct (interact_loop cur_lvl ctrl mario l) as [[m2 l'] r]. reflexivity.
  - cbn [app interact_loop] in Hl1 |- *.
    destruct (interact_body cur_lvl ctrl mario a) as [[ma a'] [w|]]; [discriminate|].
    destruct (interact_loop cur_lvl ctrl ma l1) as [[mb l1b] rb] eqn:El1.
    injection Hl1 as <- <- ->.
    destruct (IH ma mb l1b El1) as [Hlen ->].
    split; [simpl; f_equal; exact Hlen|].
    destruct (interact_loop cur_lvl ctrl mb l) as [[m2 l'] r]. reflexivity.
Qed.

(** The run that reaches a collectible collects it in place. *)
Lemma interact_objs_collects cur_lvl ctrl mario o l1 l2 m1 l1' :
  interact_loop cur_lvl ctrl mario l1 = (m1, l1', None) ->
  collectable cur_lvl m1 o ->
  exists o',
    (interact_objs cur_lvl ctrl (l1 ++ o :: l2) mario).1.2 !! length l1 = Some o' /\
    o_collected o' = true /\ o_active o' = false.
Proof.
  intros Hl1 Hc. unfold interact_objs.
  destruct (interact_loop_app cur_lvl ctrl (o :: l2) l1 mario m1 l1' Hl1) as [Hlen ->].
  destruct (interact_body_collects cur_lvl ctrl m1 o Hc)
    as (m2 & o' & Eb & Hco & Hac & _).
  exists o'. cbn [interact_loop]. rewrite Eb.
  destruct (interact_loop cur_lvl ctrl m2 l2) as [[m3 l2'] r]. cbn [fst snd].
  split; [|split; assumption].
  rewrite <- Hlen. rewrite list_lookup_middle; reflexivity.
Qed.

Lemma update_objs_all_inactive mario frame (objs : list Obj) :
  Forall (fun o => o_active o = false) objs ->
  update_objs mario frame objs = objs.
Proof.
  unfold update_objs. induction 1 as [|o l Ho _ IH]; [reflexivity|].
  rewrite fmap_cons, IH. unfold update_obj. rewrite Ho. reflexivity.
Qed.

Lemma interact_loop_all_spent cur_lvl ctrl mario (objs : list Obj) :
  Forall spent objs ->
  interact_loop cur_lvl ctrl mario objs = (mario, objs, None).
Proof.
  induction 1 as [|o l Ho _ IH]; [reflexivity|].
  cbn [interact_loop]. rewrite (interact_body_spent _ _ _ _ Ho), IH. reflexivity.
Qed.

(** With every object inactive a logic tick changes nothing at all. *)
Lemma objs_tick_all_inactive cur_lvl ctrl frame mario (objs : list Obj) :
  Forall (fun o => o_active o = false) objs ->
  objs_tick cur_lvl ctrl frame mario objs = (mario, objs, None).
Proof.
  intros Hall. unfold objs_tick, interact_objs.
  rewrite (update_objs_all_inactive _ _ _ Hall).
  apply interact_loop_all_spent.
  eapply Forall_impl; [exact Hall|]. intros o Ho. left. exact Ho.
Qed.

Lemma objs_ticks_all_inactive n cur_lvl ctrl :
  forall frame mario (objs : list Obj),
    Forall (fun o => o_active o = false) objs ->
    objs_ticks n cur_lvl ctrl frame mario objs = (mario, objs).
Proof.
  induction n as [|n IH]; intros frame mario objs Hall; [reflexivity|].
  cbn [objs_ticks]. rewrite (objs_tick_all_inactive _ _ _ _ _ Hall).
  apply IH, Hall.
Qed.

(** A star within range whose id is already held: the guard
    [if not mario.has_star(cur_lvl, o.star_id)] skips the whole branch. *)
Lemma interact_body_held_star cur_lvl ctrl mario o :
  o_type o = STAR -> interactable mario o = true ->
  has_star cur_lvl (o_star_id o) mario = true ->
  interact_body cur_lvl ctrl mario o = (mario, o, None).
Proof.
  intros Et Hi Hh. unfold interact_body. rewrite Hi, Et, Hh. reflexivity.
Qed.

(** A pipe within range under a jump press returns its warp. *)
Lemma interact_body_pipe cur_lvl ctrl mario o :
  o_type o = PIPE -> interactable mario o = true ->
  bit_set (pressed ctrl) IN_A = true ->
  interact_body cur_lvl ctrl mario o = (mario, o, Some (o_warp o)).
Proof.
  intros Et Hi Hp. unfold interact_body. rewrite Hi, Et, Hp. reflexivity.
Qed.

(** The run that reaches such a pipe returns there: the pipe and every
    object behind it are as they were, and so is the character. *)
Lemma interact_objs_pipe_returns cur_lvl ctrl mario o l1 l2 m1 l1' :
  interact_loop cur_lvl ctrl mario l1 = (m1, l1', None) ->
  o_type o = PIPE -> interactable m1 o = true ->
  bit_set (pressed ctrl) IN_A = true ->
  interact_objs cur_lvl ctrl (l1 ++ o :: l2) mario
  = (m1, l1' ++ o :: l2, Some (o_warp o)).
Proof.
  intros Hl1 Et Hi Hp. unfold interact_objs.
  destruct (interact_loop_app cur_lvl ctrl (o :: l2) l1 mario m1 l1' Hl1) as [_ ->].
  cbn [interact_loop]. rewrite (interact_body_pipe cur_lvl ctrl m1 o Et Hi Hp).
  reflexivity.
Qed.

(** C6 (amended).  A coin or one-up within range, active and not yet
    collected, and a star within range whose id the character does not hold
    yet, is collected by the interaction step that visits it: [collected] is
    set, [active] is cleared, and the counter of its kind grows by its value
    (coins by [o.coins], lives by 1, stars by 1) once; a run of
    [interact_objs] that reaches the object without a warp return collects it
    in place.  From then on the object is inert: interaction with it changes
    neither the object nor the character, every later logic tick leaves it in
    place unchanged and handles the character as if the object were absent,
    and any number of ticks over a list of inactive objects changes
    nothing.  A star within range whose id is already held is passed over:
    the object, the character and the counters are as before.  And a run
    that reaches a pipe within range under a jump press returns there with
    the pipe's target: the objects behind the pipe are not visited, and the
    character is as the objects before the pipe left it. *)
Theorem collect_once (cur_lvl : Z) (ctrl : Controller) (frame : Z)
  (mario : MarioState) (o : Obj) (objs : list Obj) (i n : nat) :
  (collectable cur_lvl mario o ->
   exists mario' o',
     interact_body cur_lvl ctrl mario o = (mario', o', None) /\
     o_collected o' = true /\ o_active o' = false /\
     coins mario' = (coins mario + coin_reward o)%Z /\
     lives mario' = (lives mario + life_reward o)%Z /\
     stars mario' = (stars mario + star_reward o)%Z /\
     (o_type o = STAR -> has_star cur_lvl (o_star_id o) mario' = true)) /\
  (forall l1 l2 m0 l1',
     interact_loop cur_lvl ctrl m0 l1 = (mario, l1', None) ->
     collectable cur_lvl mario o ->
     exists o',
       (interact_objs cur_lvl ctrl (l1 ++ o :: l2) m0).1.2 !! length l1 = Some o' /\
       o_collected o' = true /\ o_active o' = false) /\
  (spent o -> interact_body cur_lvl ctrl mario o = (mario, o, None)) /\
  (objs !! i = Some o -> o_active o = false ->
   (objs_tick cur_lvl ctrl frame mario objs).1.2 !! i = Some o /\
   (objs_tick cur_lvl ctrl frame mario objs).1.1
   = (objs_tick cur_lvl ctrl frame mario (delete i objs)).1.1 /\
   (objs_tick cur_lvl ctrl frame mario objs).2
   = (objs_tick cur_lvl ctrl frame mario (delete i objs)).2) /\
  (Forall (fun o => o_active o = false) objs ->
   objs_ticks n cur_lvl ctrl frame mario objs = (mario, objs)) /\
  (o_type o = STAR -> interactable mario o = true ->
   has_star cur_lvl (o_star_id o) mario = true ->
   interact_body cur_lvl ctrl mario o = (mario, o, None)) /\
  (forall l1 l2 m0 l1',
     interact_loop cur_lvl ctrl m0 l1 = (mario, l1', None) ->
     o_type o = PIPE -> interactable mario o = true ->
     bit_set (pressed ctrl) IN_A = true ->
     interact_objs cur_lvl ctrl (l1 ++ o :: l2) m0
     = (mario, l1' ++ o :: l2, Some (o_warp o))).
Proof.
  split; [apply interact_body_collects|].
  split; [intros l1 l2 m0 l1'; apply interact_objs_collects|].
  split; [apply interact_body_spent|].
  split; [apply objs_tick_inactive|].
  split; [apply objs_ticks_all_inactive|].
  split; [apply interact_body_held_star|].
  intros l1 l2 m0 l1'. apply interact_objs_pipe_returns.
Qed.

End Collecting.

Lemma collect_once_witness :
  (collectable (H := scene_math) 0 mario_default coin_here /\
   exists mario' o',
     interact_body (H := scene_math) 0 ctrl_default mario_default coin_here
     = (mario', o', None) /\
     o_collected o' = true /\ o_active o' = false /\
     coins mario' = (coins mario_default + coin_reward coin_here)%Z /\
     lives mario' = (lives mario_default + life_reward coin_here)%Z /\
     stars mario' = (stars mario_default + star_reward coin_here)%Z /\
     (o_type coin_here = STAR -> has_star 0 (o_star_id coin_here) mario' = true)) /\
  (interact_loop (H := scene_math) 0 ctrl_default mario_default []
   = (mario_default, [], None) /\
   exists o',
     (interact_objs (H := scene_math) 0 ctrl_default ([] ++ coin_here :: [pipe_here])
        mario_default).1.2 !! length ([] : list Obj) = Some o' /\
     o_collected o' = true /\ o_active o' = false) /\
  (spent coin_taken /\
   interact_body (H := scene_math) 0 ctrl_default mario_default coin_taken
   = (mario_default, coin_taken, None)) /\
  ([coin_taken] !! 0%nat = Some coin_taken /\ o_active coin_taken = false /\
   (objs_tick (H := scene_math) 0 ctrl_default 7 mario_default
      [coin_taken]).1.2 !! 0%nat = Some coin_taken /\
   (objs_tick (H := scene_math) 0 ctrl_default 7 mario_default
      [coin_taken]).1.1
   = (objs_tick (H := scene_math) 0 ctrl_default 7 mario_default
        (delete 0%nat [coin_taken])).1.1 /\
   (objs_tick (H := scene_math) 0 ctrl_default 7 mario_default
      [coin_taken]).2
   = (objs_tick (H := scene_math) 0 ctrl_default 7 mario_default
        (delete 0%nat [coin_taken])).2) /\
  (Forall (fun o => o_active o = false) [coin_taken] /\
   objs_ticks (H := scene_math) 3 0 ctrl_default 7 mario_default [coin_taken]
   = (mario_default, [coin_taken])) /\
  (o_type star_here = STAR /\
   interactable (H := scene_math) mario_with_star star_here = true /\
   has_star 0 (o_star_id star_here) mario_with_star = true /\
   interact_body (H := scene_math) 0 ctrl_jump mario_with_star star_here
   = (mario_with_star, star_here, None)) /\
  (interact_loop (H := scene_math) 0 ctrl_jump mario_default []
   = (mario_default, [], None) /\
   o_type pipe_here = PIPE /\
   interactable (H := scene_math) mario_default pipe_here = true /\
   bit_set (pressed ctrl_jump) IN_A = true /\
   interact_objs (H := scene_math) 0 ctrl_jump ([] ++ pipe_here :: [coin_here])
     mario_default
   = (mario_default, [] ++ pipe_here :: [coin_here], Some (o_warp pipe_here))).
Proof.
  assert (Hc : collectable (H := scene_math) 0 mario_default coin_here).
  { split; [reflexivity|]. split; [vm_compute; reflexivity | exact I]. }
  assert (Hs : spent coin_taken) by (left; reflexivity).
  assert (Hi : [coin_taken] !! 0%nat = Some coin_taken) by reflexivity.
  assert (Ha : o_active coin_taken = false) by reflexivity.
  assert (Hall : Forall (fun o => o_active o = false) [coin_taken])
    by (repeat constructor).
  assert (Hl : interact_loop (H := scene_math) 0 ctrl_default mario_default []
               = (mario_default, [], None)) by reflexivity.
  assert (Hst : o_type star_here = STAR) by reflexivity.
  assert (Hsi : interactable (H := scene_math) mario_with_star star_here = true)
    by (vm_compute; reflexivity).
  assert (Hsh : has_star 0 (o_star_id star_here) mario_with_star = true)
    by (vm_compute; reflexivity).
  assert (Hlj : interact_loop (H := scene_math) 0 ctrl_jump mario_default []
                = (mario_default, [], None)) by reflexivity.
  assert (Hpt : o_type pipe_here = PIPE) by reflexivity.
  assert (Hpi : interactable (H := scene_math) mario_default pipe_here = true)
    by (vm_compute; reflexivity).
  assert (Hpa : bit_set (pressed ctrl_jump) IN_A = true) by reflexivity.
  split; [|split; [|split; [|split; [|split; [|split]]]]].
  - split; [exact Hc|].
    exact (proj1 (collect_once (H := scene_math) 0 ctrl_default 7 mario_default
                    coin_here [coin_taken] 0 3) Hc).
  - split; [exact Hl|].
    exact (proj1 (proj2 (collect_once (H := scene_math) 0 ctrl_default 7 mario_default
                           coin_here [coin_taken] 0 3))
             [] [pipe_here] mario_default [] Hl Hc).
  - split; [exact Hs|].
    exact (proj1 (proj2 (proj2 (collect_once (H := scene_math) 0 ctrl_default 7
                                  mario_default coin_taken [coin_taken] 0 3))) Hs).
  - split; [exact Hi|]. split; [exact Ha|].
    exact (proj1 (proj2 (proj2 (proj2 (collect_once (H := scene_math) 0
                                         ctrl_default 7 mario_default coin_taken
                                         [coin_taken] 0 3)))) Hi Ha).
  - split; [exact Hall|].
    exact (proj1 (proj2 (proj2 (proj2 (proj2 (collect_once (H := scene_math) 0
                                         ctrl_default 7 mario_default coin_taken
                                         [coin_taken] 0 3))))) Hall).
  - split; [exact Hst|]. split; [exact Hsi|]. split; [exact Hsh|].
    exact (proj1 (proj2 (proj2 (proj2 (proj2 (proj2
             (collect_once (H := scene_math) 0 ctrl_jump 7 mario_with_star star_here
                [coin_taken] 0 3)))))) Hst Hsi Hsh).
  - split; [exact Hlj|]. split; [exact Hpt|]. split; [exact Hpi|]. split; [exact Hpa|].
    exact (proj2 (proj2 (proj2 (proj2 (proj2 (proj2
             (collect_once (H := scene_math) 0 ctrl_jump 7 mario_default pipe_here
                [coin_taken] 0 3))))))
             [] [coin_here] mario_default [] Hlj Hpt Hpi Hpa).
Defined.

(** A coin at the character's feet: the first run collects it and adds its
    value, and three further ticks leave coin and count as they are. *)
Example coin_scenario :
  let '(m1, objs1, _) :=
    interact_objs (H := scene_math) 0 ctrl_default [coin_here] mario_default in
  coins m1 = 1%Z /\ objs1 = [coin_taken] /\
  objs_ticks (H := scene_math) 3 0 ctrl_default 7 m1 objs1 = (m1, objs1).
Proof. vm_compute. repeat split. Qed.

(** C6 as stated fails in two ways.  A star within range whose id the
    character already holds is not collected: it stays active, and the star
    count does not move.  And a coin within range that comes after a warp
    pipe in the list is not visited in a run where the pipe returns. *)
Lemma held_star_is_not_collected :
  (is_collectible (o_type star_here) = true /\
   interactable (H := scene_math) mario_with_star star_here = true /\
   interact_body (H := scene_math) 0 ctrl_default mario_with_star star_here
   = (mario_with_star, star_here, None) /\
   o_active star_here = true /\ o_collected star_here = false) /\
  (interactable (H := scene_math) mario_default coin_here = true /\
   interact_objs (H := scene_math) 0 ctrl_jump [pipe_here; coin_here] mario_default
   = (mario_default, [pipe_here; coin_here], Some 3%Z)).
Proof.
  split.
  - split; [reflexivity|]. split; [vm_compute; reflexivity|].
    split; [vm_compute; reflexivity|]. split; reflexivity.
  - split; vm_compute; reflexivity.
Qed.

(** ** C7: the painter's sort *)





Section PySortFacts.
Context {A : Type} (key : A -> Q) (reverse : bool).

Local Abbreviation ord := (sort_ord key reverse).
Local Abbreviation in_order := (in_sort_order key reverse).
Local Abbreviation ins := (py_sort_insert key reverse).
Local Abbreviation same_key d := (fun p => Qeq_bool (key p) d).

Lemma sorts_before_lt x y :
  sorts_before key reverse x y = true <-> ord x < ord y.
Proof.
  unfold sorts_before, sort_ord. destruct reverse; rewrite Qltb_true; split; intros; lra.
Qed.

Lemma sorts_before_ge x y :
  sorts_before key reverse x y = false <-> ord y <= ord x.
Proof.
  unfold sorts_before, sort_ord. destruct reverse; rewrite Qltb_false; split; intros; lra.
Qed.

Lemma same_key_ord x d : Qeq_bool (key x) d = true <-> ord x == (if reverse then - d else d).
Proof.
  rewrite Qeq_bool_iff. unfold sort_ord. destruct reverse; split; intros; lra.
Qed.

Lemma py_sort_insert_perm x l : ins x l ≡ₚ x :: l.
Proof.
  induction l as [|y t IH]; simpl; [reflexivity|].
  destruct (sorts_before key reverse x y); [reflexivity|].
  rewrite IH. apply Permutation_swap.
Qed.

Lemma py_sort_insert_sorted x l :
  StronglySorted in_order l -> StronglySorted in_order (ins x l).
Proof.
  induction 1 as [|y t Hs IH Hall]; simpl.
  - repeat constructor.
  - destruct (sorts_before key reverse x y) eqn:E.
    + apply sorts_before_lt in E. constructor; [constructor; assumption|].
      constructor; [unfold in_sort_order; lra|].
      eapply Forall_impl; [exact Hall|]. unfold in_sort_order. intros z Hz. simpl in Hz. lra.
    + apply sorts_before_ge in E. constructor; [exact IH|].
      rewrite (py_sort_insert_perm x t). constructor; [exact E | exact Hall].
Qed.

(** Inserting [x] puts it behind every entry of its own key. *)
Lemma py_sort_insert_filter x l d :
  StronglySorted in_order l ->
  List.filter (same_key d) (ins x l)
  = List.filter (same_key d) l ++ List.filter (same_key d) [x].
Proof.
  induction 1 as [|y t Hs IH Hall]; simpl; [reflexivity|].
  destruct (sorts_before key reverse x y) eqn:E.
  - apply sorts_before_lt in E. simpl.
    destruct (Qeq_bool (key x) d) eqn:Ex; [|rewrite app_nil_r; reflexivity].
    apply same_key_ord in Ex.
    assert (Ey : Qeq_bool (key y) d = false).
    { destruct (Qeq_bool (key y) d) eqn:Ey; [|reflexivity].
      apply same_key_ord in Ey. lra. }
    rewrite Ey.
    assert (Et : List.filter (same_key d) t = []).
    { clear IH Hs. induction Hall as [|z t' Hz _ IHt]; simpl; [reflexivity|].
      destruct (Qeq_bool (key z) d) eqn:Ez; [|exact IHt].
      apply same_key_ord in Ez. unfold in_sort_order in Hz. lra. }
    rewrite Et. reflexivity.
  - simpl. rewrite IH. simpl.
    destruct (Qeq_bool (key y) d); reflexivity.
Qed.

Lemma py_sort_foldl l :
  forall acc, StronglySorted in_order acc ->
    let out := foldl (fun acc x => ins x acc) acc l in
    StronglySorted in_order out /\
    out ≡ₚ acc ++ l /\
    forall d, List.filter (same_key d) out
              = List.filter (same_key d) acc ++ List.filter (same_key d) l.
Proof.
  induction l as [|x l IH]; intros acc Hacc; simpl.
  - split; [exact Hacc|]. split; [by rewrite app_nil_r|].
    intros d. by rewrite app_nil_r.
  - destruct (IH (ins x acc) (py_sort_insert_sorted x acc Hacc)) as (Hs & Hp & Hf).
    split; [exact Hs|]. split.
    + rewrite Hp, py_sort_insert_perm. simpl. apply Permutation_middle.
    + intros d. rewrite Hf, py_sort_insert_filter by exact Hacc.
      rewrite <- app_assoc. simpl. destruct (Qeq_bool (key x) d); reflexivity.
Qed.

Lemma sorted_lookup_order (l : list A) :
  StronglySorted in_order l ->
  forall i j a b, l !! i = Some a -> l !! j = Some b -> (i < j)%nat -> in_order a b.
Proof.
  induction 1 as [|x t Hs IH Hall]; intros i j a b Ha Hb Hij.
  - discriminate.
  - destruct j as [|j]; [lia|]. simpl in Hb. destruct i as [|i]; simpl in Ha.
    + injection Ha as <-. rewrite Forall_forall in Hall.
      apply Hall. eapply list_elem_of_lookup_2. exact Hb.
    + apply (IH i j); [assumption..|lia].
Qed.

(** [py_sort] is a stable sort on [ord]. *)
Lemma py_sort_stable (l : list A) :
  let out := py_sort key reverse l in
  out ≡ₚ l /\
  (forall i j a b, out !! i = Some a -> out !! j = Some b ->
                   ord b < ord a -> (j < i)%nat) /\
  (forall d, List.filter (same_key d) out = List.filter (same_key d) l).
Proof.
  destruct (py_sort_foldl l [] (SSorted_nil _)) as (Hs & Hp & Hf).
  split; [exact Hp|]. split; [|exact Hf].
  intros i j a b Ha Hb Hlt.
  destruct (Nat.lt_trichotomy i j) as [Hij | [-> | Hij]]; [| |exact Hij].
  - pose proof (sorted_lookup_order _ Hs i j a b Ha Hb Hij) as Hab.
    unfold in_sort_order in Hab. lra.
  - rewrite Ha in Hb. injection Hb as ->. lra.
Qed.


End PySortFacts.

Lemma fills_render_draw (polys : list Poly) :
  fills (render_draw polys)
  = (fun p : Poly => (_cc p.1.1.2, p.1.2)) <$> render_order polys.
Proof.
  unfold render_draw. induction (render_order polys) as [|p l IH]; [reflexivity|].
  change (flat_map draw_poly (p :: l)) with (draw_poly p ++ flat_map draw_poly l).
  unfold fills in *. rewrite flat_map_app, IH.
  destruct p as [[[z col] pts] rt]. unfold draw_poly.
  destruct (Qltb z 2000 && negb (is_shadow rt)); reflexivity.
Qed.





Section PainterFacts.
Context `{MathLib}.

(** *** [render] *)






(** *** [render_faces] *)







End PainterFacts.


(** The sort on a small scene: the two faces of depth 300 keep their
    insertion order behind the farther ones. *)
Example render_order_scene :
  poly_depth <$> render_order polys_scene = [2500; 900; 300; 300] /\
  (fun p : Poly => p.2) <$> render_order polys_scene = [TagS; TagO; TagE; TagM].
Proof. split; reflexivity. Qed.

(** [render_faces] on two faces at depths 300 and 600: the far one is
    filled first. *)
Example render_faces_scene :
  (fun cmds => fst <$> fills4k cmds)
    <$> Cat4k.render_faces (H := scene_math) faces4k_scene cam_origin 0 0
  = Some [(0, 0, 200)%Z; (200, 0, 0)%Z].
Proof. vm_compute. reflexivity. Qed.


(** ** C8: where the airborne actions land *)

Section Landing.
Context `{MathLib}.

Lemma air_handlers_in_table (k : AirAction) : (air_id k, air_handler k) ∈ ACT_TABLE.
Proof.
  destruct k; cbn [air_id air_handler];
    [ apply (list_elem_of_lookup_2 _ 4) | apply (list_elem_of_lookup_2 _ 5)
    | apply (list_elem_of_lookup_2 _ 6) | apply (list_elem_of_lookup_2 _ 7)
    | apply (list_elem_of_lookup_2 _ 8) | apply (list_elem_of_lookup_2 _ 9)
    | apply (list_elem_of_lookup_2 _ 10) | apply (list_elem_of_lookup_2 _ 11)
    | apply (list_elem_of_lookup_2 _ 12) | apply (list_elem_of_lookup_2 _ 14)
    | apply (list_elem_of_lookup_2 _ 16) | apply (list_elem_of_lookup_2 _ 17) ];
    reflexivity.
Qed.

Lemma airborne_landing_core surfs (k : AirAction) m c m1 m2 :
  air_phase k m c = Some m1 ->
  air_step surfs m1 = Some (Land, m2) ->
  exists m', air_handler k surfs m c = Some m' /\ action m' = landing_action k c.
Proof.
  intros Hph Hair.
  destruct k; cbn [air_phase air_handler landing_action] in Hph |- *; cbv zeta in Hph;
    unfold a_jump, a_dbl, a_triple, a_backflip, a_sideflip, a_longjump, a_wallkick,
      a_freefall, a_dive, a_gp, a_knock, a_lava; cbv zeta.
  all: try (destruct (bit_set (pressed c) IN_A && (wktimer m >? 0)%Z);
            cbn [orb] in Hph; [discriminate|]).
  all: try (destruct (bit_set (pressed c) IN_Z); cbn [orb] in Hph; [discriminate|]).
  all: try (destruct (bit_set (pressed c) IN_B); cbn [orb] in Hph; [discriminate|]).
  all: try (destruct (astate m =? 0)%Z; [discriminate|]).
  all: injection Hph as <-;
    match type of Hair with air_step _ ?T = _ =>
      match goal with |- context [air_step _ ?X] => change X with T end
    end;
    rewrite Hair; cbn [mbind option_bind StepResult_eqb];
    eexists; (split; [reflexivity|]).
  all: try reflexivity.
  destruct (wktimer _ >? 0)%Z; reflexivity.
Qed.

Lemma slide_kick_landing surfs (mx : Catsct.MarioStateX) c m2 :
  Catsct.air_step_x surfs (slide_kick_phase mx) = Some (Land, m2) ->
  exists m', Catsct.a_slide_kick surfs mx c = Some m' /\
             action (Catsct.core m') = Catsct.ACT_SLIDE_KICK_SL.
Proof.
  intros Hair. unfold Catsct.a_slide_kick. unfold slide_kick_phase in Hair.
  cbv zeta in Hair |- *.
  destruct (atimer (Catsct.core mx) =? 0)%Z.
  all: match type of Hair with Catsct.air_step_x _ ?T = _ =>
    match goal with |- context [Catsct.air_step_x _ ?X] => change X with T end
  end.
  all: rewrite Hair; cbn [mbind option_bind StepResult_eqb];
    eexists; split; reflexivity.
Qed.

(** C8 (amended).  When the air step of an airborne action reports a
    landing, the next action is: walking if the stick magnitude is positive
    and idle otherwise, for jump, double jump, triple jump, wall kick and
    freefall; idle whatever the stick, for backflip, side flip, long jump,
    knockback and lava boost; belly slide for the dive; the ground-pound
    landing for the ground pound; and, in [catsctsm641.x.py], the slide-kick
    slide for the slide kick. *)
Theorem airborne_landing (surfs : list Surface) (k : AirAction) (m : MarioState)
  (c : Controller) (mx : Catsct.MarioStateX) :
  (air_id k, air_handler k) ∈ ACT_TABLE /\
  (fst <$> (air_phase k m c ≫= air_step surfs) = Some Land ->
   exists m', air_handler k surfs m c = Some m' /\ action m' = landing_action k c) /\
  (fst <$> Catsct.air_step_x surfs (slide_kick_phase mx) = Some Land ->
   exists m', Catsct.a_slide_kick surfs mx c = Some m' /\
              action (Catsct.core m') = Catsct.ACT_SLIDE_KICK_SL).
Proof.
  split; [apply air_handlers_in_table|]. split.
  - intros Hland. destruct (air_phase k m c) as [m1|] eqn:Hph; [|discriminate].
    cbn [mbind option_bind] in Hland.
    destruct (air_step surfs m1) as [[r m2]|] eqn:Hair; [|discriminate].
    injection Hland as ->. eapply airborne_landing_core; eassumption.
  - intros Hland.
    destruct (Catsct.air_step_x surfs (slide_kick_phase mx)) as [[r m2]|] eqn:Hair;
      [|discriminate].
    injection Hland as ->. eapply slide_kick_landing; eassumption.
Qed.

End Landing.

Lemma airborne_landing_witness :
  fst <$> (air_phase (H := scene_math) AJump (with_action ACT_JUMP mario_falling) ctrl_stick
           ≫= air_step (H := scene_math) level_flat) = Some Land /\
  fst <$> Catsct.air_step_x (H := scene_math) level_flat
            (slide_kick_phase (H := scene_math) mario_x_default) = Some Land /\
  (exists m', air_handler (H := scene_math) AJump level_flat
                (with_action ACT_JUMP mario_falling) ctrl_stick = Some m' /\
              action m' = landing_action AJump ctrl_stick) /\
  (exists m', Catsct.a_slide_kick (H := scene_math) level_flat mario_x_default ctrl_stick
              = Some m' /\
              action (Catsct.core m') = Catsct.ACT_SLIDE_KICK_SL).
Proof.
  assert (H1 : fst <$> (air_phase (H := scene_math) AJump
                          (with_action ACT_JUMP mario_falling) ctrl_stick
                        ≫= air_step (H := scene_math) level_flat) = Some Land)
    by (vm_compute; reflexivity).
  assert (H2 : fst <$> Catsct.air_step_x (H := scene_math) level_flat
                         (slide_kick_phase (H := scene_math) mario_x_default) = Some Land)
    by (vm_compute; reflexivity).
  split; [exact H1|]. split; [exact H2|]. split.
  - exact (proj1 (proj2 (airborne_landing (H := scene_math) level_flat AJump
                           (with_action ACT_JUMP mario_falling) ctrl_stick
                           mario_x_default)) H1).
  - exact (proj2 (proj2 (airborne_landing (H := scene_math) level_flat AJump
                           (with_action ACT_JUMP mario_falling) ctrl_stick
                           mario_x_default)) H2).
Defined.

(** C8 as stated fails for the backflip (and likewise for side flip, long
    jump, knockback and lava boost): with the stick held it lands into the
    idle action, not into walking. *)
Lemma backflip_lands_idle_with_stick :
  0 < stick_mag ctrl_stick /\
  fst <$> (air_phase (H := scene_math) ABackflip mario_backflip ctrl_stick
           ≫= air_step (H := scene_math) level_flat) = Some Land /\
  action <$> dispatch (H := scene_math) level_flat mario_backflip ctrl_stick
  = Some ACT_IDLE /\
  ACT_IDLE <> ACT_WALKING.
Proof.
  split; [vm_compute; reflexivity|]. split; [|split].
  - vm_compute. reflexivity.
  - vm_compute. reflexivity.
  - discriminate.
Qed.

(** * Further properties of the program *)

(** ** Scalar helpers: [clamp], [approach_f32], [approach_angle], [_cc] *)

Lemma py_min2_cases a b : (b < a /\ py_min2 a b = b) \/ (a <= b /\ py_min2 a b = a).
Proof.
  unfold py_min2. destruct (Qltb b a) eqn:E.
  - left. split; [apply Qltb_true, E | reflexivity].
  - right. split; [apply Qltb_false, E | reflexivity].
Qed.

Lemma py_max2_cases a b : (a < b /\ py_max2 a b = b) \/ (b <= a /\ py_max2 a b = a).
Proof.
  unfold py_max2. destruct (Qltb a b) eqn:E.
  - left. split; [apply Qltb_true, E | reflexivity].
  - right. split; [apply Qltb_false, E | reflexivity].
Qed.

Lemma clamp_cases v lo hi :
  lo <= hi ->
  (v <= lo /\ clamp v lo hi = lo) \/
  (lo <= v /\ v < hi /\ clamp v lo hi = v) \/
  (hi <= v /\ clamp v lo hi == hi).
Proof.
  intros Hlh. unfold clamp.
  destruct (py_min2_cases hi v) as [[H1 ->] | [H1 ->]].
  - destruct (py_max2_cases lo v) as [[H2 ->] | [H2 ->]].
    + right. left. repeat split; try reflexivity; lra.
    + left. split; [exact H2 | reflexivity].
  - right. right. split; [exact H1|].
    destruct (py_max2_cases lo hi) as [[H2 ->] | [H2 ->]]; lra.
Qed.

(** X1.  With [lo <= hi], [clamp(v, lo, hi)] lies in [[lo, hi]], returns a
    value that is already in the interval, and clamping twice is clamping
    once. *)
Theorem clamp_interval (v lo hi : Q) :
  lo <= hi ->
  lo <= clamp v lo hi <= hi /\
  (lo <= v <= hi -> clamp v lo hi == v) /\
  clamp (clamp v lo hi) lo hi == clamp v lo hi.
Proof.
  intros Hlh.
  assert (Hin : forall u, lo <= u <= hi -> clamp u lo hi == u).
  { intros u Hu. destruct (clamp_cases u lo hi Hlh) as [[H1 E] | [(H1 & H2 & E) | [H1 E]]];
      rewrite E; lra. }
  assert (Hr : lo <= clamp v lo hi <= hi).
  { destruct (clamp_cases v lo hi Hlh) as [[H1 E] | [(H1 & H2 & E) | [H1 E]]];
      rewrite E; lra. }
  split; [exact Hr|]. split; [apply Hin|]. apply Hin, Hr.
Qed.

Lemma clamp_interval_witness :
  1 <= 5 /\
  (1 <= clamp 3 1 5 <= 5 /\
   (1 <= 3 <= 5 /\ clamp 3 1 5 == 3) /\
   clamp (clamp 3 1 5) 1 5 == clamp 3 1 5).
Proof.
  assert (H15 : 1 <= 5) by lra.
  assert (H3 : 1 <= 3 <= 5) by lra.
  split; [exact H15|].
  destruct (clamp_interval 3 1 5 H15) as (A & B & C).
  split; [exact A|]. split; [|exact C]. split; [exact H3 | exact (B H3)].
Defined.

(** *** [approach_f32] *)



Lemma inject_Z_succ_nat n : inject_Z (Z.of_nat (S n)) == inject_Z (Z.of_nat n) + 1.
Proof. rewrite Nat2Z.inj_succ. unfold Z.succ. rewrite inject_Z_plus. reflexivity. Qed.





(** *** [approach_angle] and the float modulus *)

Lemma py_fmod_range x m : 0 < m -> 0 <= py_fmod x m /\ py_fmod x m < m.
Proof.
  intros Hm. unfold py_fmod.
  pose proof (Qfloor_le (x / m)) as H1.
  pose proof (Qlt_floor (x / m)) as H2.
  rewrite inject_Z_plus in H2. change (inject_Z 1) with 1 in H2.
  set (f := inject_Z (Qfloor (x / m))) in *.
  assert (Hx : m * (x / m) == x) by (apply Qmult_div_r; lra).
  assert (A : m * f <= m * (x / m)) by (apply Qmult_le_l; assumption).
  assert (B : m * (x / m) < m * (f + 1)) by (apply Qmult_lt_l; assumption).
  rewrite Hx in A, B.
  assert (m * (f + 1) == m * f + m) by ring.
  split; lra.
Qed.

(** X3.  [approach_angle] turns the short way round.  The signed difference
    [d] it computes is the difference [tgt - cur] reduced by a whole number
    of turns into [[-180, 180)]; for a step [inc >= 0] the result is [tgt]
    when [|d| <= inc], and otherwise [cur] moved by [inc] in the direction of
    the sign of [d].  The result is not reduced modulo 360. *)
Theorem approach_angle_short_way (cur tgt inc : Q) :
  0 <= inc ->
  let d := py_fmod (tgt - cur + 180) 360 - 180 in
  -180 <= d /\ d < 180 /\
  (exists k : Z, d == tgt - cur - 360 * inject_Z k) /\
  (- inc <= d <= inc -> approach_angle cur tgt inc = tgt) /\
  (inc < d -> approach_angle cur tgt inc = cur + inc) /\
  (d < - inc -> approach_angle cur tgt inc = cur - inc).
Proof.
  intros Hi. cbv zeta.
  destruct (py_fmod_range (tgt - cur + 180) 360 ltac:(lra)) as [R1 R2].
  split; [lra|]. split; [lra|]. split.
  { exists (Qfloor ((tgt - cur + 180) / 360)). unfold py_fmod. ring. }
  unfold approach_angle. cbv zeta.
  set (d := py_fmod (tgt - cur + 180) 360 - 180) in *.
  destruct (Qgtb d inc) eqn:E1; [apply Qgtb_true in E1 | apply Qgtb_false in E1].
  - split; [intros; lra|]. split; [reflexivity | intros; lra].
  - destruct (Qltb d (- inc)) eqn:E2; [apply Qltb_true in E2 | apply Qltb_false in E2].
    + split; [intros; lra|]. split; [intros; lra | reflexivity].
    + split; [reflexivity|]. split; intros; lra.
Qed.

Lemma approach_angle_short_way_witness :
  0 <= 11.25 /\
  -180 <= py_fmod (10 - 350 + 180) 360 - 180 /\
  py_fmod (10 - 350 + 180) 360 - 180 < 180 /\
  (exists k : Z, py_fmod (10 - 350 + 180) 360 - 180 == 10 - 350 - 360 * inject_Z k) /\
  (11.25 < py_fmod (10 - 350 + 180) 360 - 180 /\
   approach_angle 350 10 11.25 = 350 + 11.25).
Proof.
  assert (Hi : 0 <= 11.25) by (vm_compute; discriminate).
  split; [exact Hi|].
  destruct (approach_angle_short_way 350 10 11.25 Hi) as (A & B & C & _ & D & _).
  split; [exact A|]. split; [exact B|]. split; [exact C|].
  assert (Hd : 11.25 < py_fmod (10 - 350 + 180) 360 - 180) by (vm_compute; reflexivity).
  split; [exact Hd | exact (D Hd)].
Defined.

(** *** Colour clamping *)

(** X4.  [_cc] puts every component into [[0, 255]], leaves a colour whose
    components are in that range as it is, and is idempotent; the same
    range holds when the components are floats truncated by [int]. *)
Theorem _cc_range (c : Color) (f : Q * Q * Q) :
  (let '(r, g, b) := _cc c in
   (0 <= r <= 255 /\ 0 <= g <= 255 /\ 0 <= b <= 255)%Z) /\
  (let '(r, g, b) := _cc_f f in
   (0 <= r <= 255 /\ 0 <= g <= 255 /\ 0 <= b <= 255)%Z) /\
  _cc (_cc c) = _cc c /\
  (let '(r, g, b) := c in
   (0 <= r <= 255 /\ 0 <= g <= 255 /\ 0 <= b <= 255)%Z -> _cc c = c).
Proof.
  destruct c as [[r g] b]. destruct f as [[fr fg] fb].
  unfold _cc_f, _cc. split; [lia|]. split; [lia|]. split.
  - f_equal; [f_equal|]; lia.
  - intros Hc. f_equal; [f_equal|]; lia.
Qed.

(** ** Collision: [find_wall], and floors made by the constructors *)

Lemma find_wall_body_spec x y z tx tz s :
  surface_wf s ->
  exists b, find_wall_body x y z tx tz s = Some b /\
            (b = true <-> wall_hit x y z tx tz s).
Proof.
  intros Hwf. unfold find_wall_body, wall_hit. cbv zeta.
  destruct (Qgtb (Qabs (vy (normal s))) 0.7) eqn:En.
  { apply Qgtb_true in En. exists false. split; [reflexivity|].
    split; [discriminate|]. intros [Hn _]. lra. }
  apply Qgtb_false in En.
  destruct (py_min_is_Some (vy <$> verts s) (fmap_nonempty _ _ Hwf)) as [mn Emn].
  destruct (py_max_is_Some (vy <$> verts s) (fmap_nonempty _ _ Hwf)) as [mx Emx].
  rewrite Emn, Emx. cbn [mbind option_bind].
  pose proof (min_margin vy (verts s) mn y Emn) as Hmn.
  pose proof (max_margin vy (verts s) mx y Emx) as Hmx.
  destruct (verts s) as [|p1 rest] eqn:Ev; [by destruct Hwf|].
  cbn [head mbind option_bind].
  destruct (Qltb y (mn - 10)) eqn:E1.
  { apply Qltb_true in E1. exists false. split; [reflexivity|].
    split; [discriminate|]. intros (_ & Hlo & _). apply Hmn in Hlo. lra. }
  apply Qltb_false in E1.
  destruct (Qgtb y (mx + 10)) eqn:E2.
  { apply Qgtb_true in E2. exists false. split; [reflexivity|].
    split; [discriminate|]. intros (_ & _ & Hhi & _). apply Hmx in Hhi. lra. }
  apply Qgtb_false in E2. cbn [orb].
  eexists. split; [reflexivity|].
  rewrite andb_true_iff, Qgtb_true, Qleb_true. split.
  - intros [H1 H2]. split; [exact En|]. split; [apply Hmn, E1|].
    split; [apply Hmx, E2|]. exists p1. auto.
  - intros (_ & _ & _ & p & [= <-] & H1 & H2). auto.
Qed.

Lemma find_wall_loop_spec x y z tx tz surfs :
  Forall surface_wf surfs ->
  first_wall x y z tx tz surfs (find_wall_loop x y z tx tz surfs).
Proof.
  induction 1 as [|s rest Hs Hrest IH]; cbn [find_wall_loop].
  - exists None. split; [reflexivity | constructor].
  - destruct (find_wall_body_spec x y z tx tz s Hs) as (b & -> & Hb).
    cbn [mbind option_bind]. destruct b.
    + exists (Some s). split; [reflexivity|]. exists [], rest.
      split; [reflexivity|]. split; [apply Hb; reflexivity | constructor].
    + destruct IH as (r & -> & Hr). exists r. split; [reflexivity|].
      assert (Hn : ~ wall_hit x y z tx tz s).
      { intros Hh. apply Hb in Hh. discriminate. }
      destruct r as [s'|].
      * destruct Hr as (l1 & l2 & -> & Hh & Hl1).
        exists (s :: l1), l2. split; [reflexivity|]. split; [exact Hh|].
        constructor; assumption.
      * constructor; assumption.
Qed.

(** X5.  On surfaces that have vertices, [find_wall] returns without
    raising, and what it returns is the first surface in list order that
    blocks the move from [(x, z)] to [(x + 2 dx, z + 2 dz)]: one with
    [|normal.y| <= 0.7] whose vertical extent, widened by 10, contains [y],
    with the start strictly in front of its plane and the target on or
    behind it.  It returns [None] exactly when no surface blocks. *)
Theorem find_wall_first_hit (surfs : list Surface) (x y z dx dz : Q) :
  Forall surface_wf surfs ->
  first_wall x y z (x + dx * 2) (z + dz * 2) surfs (find_wall surfs x y z dx dz).
Proof. intros Hwf. unfold find_wall. cbv zeta. apply find_wall_loop_spec, Hwf. Qed.

Lemma find_wall_first_hit_witness :
  Forall surface_wf level_flat /\
  first_wall 0 (-10) 1005 (0 + 0 * 2) (1005 + (-5) * 2) level_flat
             (find_wall level_flat 0 (-10) 1005 0 (-5)).
Proof.
  assert (Hwf : Forall surface_wf level_flat) by (repeat constructor; discriminate).
  split; [exact Hwf|].
  exact (find_wall_first_hit level_flat 0 (-10) 1005 0 (-5) Hwf).
Defined.

(** The scene of the witness: walking into the front face of the box from
    outside is blocked by that face, the second surface of the box. *)
Example find_wall_level_flat :
  find_wall level_flat 0 (-10) 1005 0 (-5) = Some (level_flat !! 1%nat).
Proof. vm_compute. reflexivity. Qed.

(** *** Floors are not fallen through *)

Lemma find_floor_at_least surfs x y z s h :
  Forall surface_wf surfs -> s ∈ surfs ->
  floor_candidate 0.01 x y z s h -> SENTINEL_H < h ->
  exists h' s', find_floor surfs x y z = Some (h', Some s') /\
                h <= h' /\ h' <= y + STEP_ALLOWANCE /\
                0.01 <= Qabs (vy (normal s')).
Proof.
  intros Hwf Hin Hc Hh.
  destruct (find_floor_loop_highest 0.01 x y z surfs Hwf) as (h' & fl & E & Hm).
  unfold find_floor. rewrite E. destruct fl as [s'|].
  - destruct Hm as (l1 & l2 & -> & Hc' & Hs & H1 & H2).
    exists h', s'. split; [reflexivity|]. split.
    + apply elem_of_app in Hin as [Hin|Hin].
      * apply Qlt_le_weak, (H1 s h Hin Hc).
      * apply elem_of_cons in Hin as [->|Hin].
        -- rewrite (floor_candidate_fun _ _ _ _ _ _ _ Hc Hc'). lra.
        -- apply (H2 s h Hin Hc).
    + destruct Hc' as (_ & Hn & _ & Hle). split; assumption.
  - destruct Hm as [-> Hall]. specialize (Hall s h Hin Hc). lra.
Qed.

Lemma plane_y_level x z s p1 :
  normal s = mkVec3f 0 1 0 -> plane_y x z s p1 == vy p1.
Proof. intros Hn. unfold plane_y. rewrite Hn. cbn [vx vy vz]. field. Qed.

Lemma box_top_candidate bx by' bz w h d col st wp x y z :
  0 <= w -> 0 <= d ->
  bx - w / 2 - 10 <= x <= bx + w / 2 + 10 ->
  bz - d / 2 - 10 <= z <= bz + d / 2 + 10 ->
  by' + h / 2 <= y + STEP_ALLOWANCE ->
  exists s hs, box_top bx by' bz w h d col st wp = Some s /\
               floor_candidate 0.01 x y z s hs /\ hs == by' + h / 2.
Proof.
  intros Hw Hd Hx Hz Hy. destruct col as [[c0 c1] c2].
  unfold box_top, make_box. cbv zeta. cbn [head].
  eexists. eexists. split; [reflexivity|].
  unfold floor_candidate, in_bounds. cbn [verts normal head vy].
  split; [split; [|split; [|split]]|].
  - split; [|split; [|split]].
    + eexists. split; [apply list_elem_of_here|]. cbn [vx]. lra.
    + eexists. split; [apply list_elem_of_further, list_elem_of_here|]. cbn [vx]. lra.
    + eexists. split; [apply list_elem_of_here|]. cbn [vz]. lra.
    + eexists. split; [do 2 apply list_elem_of_further; apply list_elem_of_here|].
      cbn [vz]. lra.
  - vm_compute. discriminate.
  - reflexivity.
  - rewrite plane_y_level by reflexivity. exact Hy.
  - rewrite plane_y_level by reflexivity. reflexivity.
Qed.

(** X6.  A box is not fallen through.  In any level that contains the top
    face of [make_box(bx, by, bz, w, h, d, ...)] with [w, d >= 0], a floor
    query at a point over the footprint of the box (widened by 10), from a
    height no more than 150 below the top, returns a floor surface at least
    as high as the top of the box, [by + h/2], provided the top lies above
    the sentinel height; the returned height is within the step allowance. *)
Theorem box_top_is_floor (surfs : list Surface) (bx by' bz w h d : Q) (col : Color)
  (st wp : Z) (top : Surface) (x y z : Q) :
  Forall surface_wf surfs ->
  box_top bx by' bz w h d col st wp = Some top -> top ∈ surfs ->
  0 <= w -> 0 <= d ->
  bx - w / 2 - 10 <= x <= bx + w / 2 + 10 ->
  bz - d / 2 - 10 <= z <= bz + d / 2 + 10 ->
  SENTINEL_H < by' + h / 2 -> by' + h / 2 <= y + STEP_ALLOWANCE ->
  exists fy s, find_floor surfs x y z = Some (fy, Some s) /\
               by' + h / 2 <= fy /\ fy <= y + STEP_ALLOWANCE.
Proof.
  intros Hwf Etop Hin Hw Hd Hx Hz Hs Hy.
  destruct (box_top_candidate bx by' bz w h d col st wp x y z Hw Hd Hx Hz Hy)
    as (s & hs & Es & Hc & Hhs).
  rewrite Etop in Es. injection Es as <-.
  destruct (find_floor_at_least surfs x y z top hs Hwf Hin Hc ltac:(lra))
    as (fy & s' & E & H1 & H2 & _).
  exists fy, s'. split; [exact E|]. split; lra.
Qed.

Lemma box_top_is_floor_witness :
  Forall surface_wf level_flat /\
  box_top 0 (-10) 0 2000 20 2000 (200, 200, 200)%Z SURF_DEFAULT (-1)%Z
    = head level_flat /\
  (exists top, head level_flat = Some top /\ top ∈ level_flat) /\
  0 <= 2000 /\ 0 <= 2000 /\
  0 - 2000 / 2 - 10 <= 1005 <= 0 + 2000 / 2 + 10 /\
  0 - 2000 / 2 - 10 <= -300 <= 0 + 2000 / 2 + 10 /\
  SENTINEL_H < -10 + 20 / 2 /\ -10 + 20 / 2 <= 40 + STEP_ALLOWANCE /\
  exists fy s, find_floor level_flat 1005 40 (-300) = Some (fy, Some s) /\
               -10 + 20 / 2 <= fy /\ fy <= 40 + STEP_ALLOWANCE.
Proof.
  assert (Hwf : Forall surface_wf level_flat) by (repeat constructor; discriminate).
  assert (Hw : 0 <= 2000) by lra.
  assert (Hx : 0 - 2000 / 2 - 10 <= 1005 <= 0 + 2000 / 2 + 10)
    by (split; vm_compute; discriminate).
  assert (Hz : 0 - 2000 / 2 - 10 <= -300 <= 0 + 2000 / 2 + 10)
    by (split; vm_compute; discriminate).
  assert (Hs : SENTINEL_H < -10 + 20 / 2) by (vm_compute; reflexivity).
  assert (Hy : -10 + 20 / 2 <= 40 + STEP_ALLOWANCE) by (vm_compute; discriminate).
  destruct level_flat as [|top rest] eqn:El; [discriminate El|].
  assert (Et : box_top 0 (-10) 0 2000 20 2000 (200, 200, 200)%Z SURF_DEFAULT (-1)%Z
               = Some top).
  { unfold box_top. change (make_box _ _ _ _ _ _ _ _ _) with level_flat. rewrite El.
    reflexivity. }
  assert (Hin : top ∈ top :: rest) by apply list_elem_of_here.
  split; [exact Hwf|]. split; [exact Et|]. split; [exists top; auto|].
  split; [exact Hw|]. split; [exact Hw|]. split; [exact Hx|]. split; [exact Hz|].
  split; [exact Hs|]. split; [exact Hy|].
  exact (box_top_is_floor (top :: rest) 0 (-10) 0 2000 20 2000 (200, 200, 200)%Z
           SURF_DEFAULT (-1)%Z top 1005 40 (-300) Hwf Et Hin Hw Hw Hx Hz Hs Hy).
Defined.

(** ** Quads: [make_quad], [make_ground], [make_slope], [make_stairs] *)

Lemma Qdiv_nonzero a b : ~ a / b == 0 -> ~ a == 0 /\ ~ b == 0.
Proof.
  intros Hn. split; intros E; apply Hn; unfold Qdiv; rewrite E.
  - ring.
  - change (/ 0) with 0. ring.
Qed.

(** The height [find_floor] computes for a surface passes through every
    point that lies on the plane of its first vertex and normal. *)
Lemma plane_y_on_plane (s : Surface) (p1 : Vec3f) (x y z : Q) :
  ~ vy (normal s) == 0 ->
  vx (normal s) * (x - vx p1) + vy (normal s) * (y - vy p1)
    + vz (normal s) * (z - vz p1) == 0 ->
  plane_y x z s p1 == y.
Proof.
  intros Hn Hd. unfold plane_y. cbv zeta.
  set (a := vx (normal s)) in *. set (b := vy (normal s)) in *.
  set (c := vz (normal s)) in *.
  assert (G : - (x * a + z * c - (a * vx p1 + b * vy p1 + c * vz p1)) == y * b) by lra.
  rewrite G. apply Qdiv_mult_l, Hn.
Qed.

Lemma find_floor_returns_candidate surfs x y z h s :
  Forall surface_wf surfs -> find_floor surfs x y z = Some (h, Some s) ->
  s ∈ surfs /\ floor_candidate 0.01 x y z s h.
Proof.
  intros Hwf E.
  destruct (find_floor_loop_highest 0.01 x y z surfs Hwf) as (h' & fl & E' & Hm).
  unfold find_floor in E. rewrite E in E'. injection E' as <- <-.
  destruct Hm as (l1 & l2 & -> & Hc & _). split; [|exact Hc].
  apply elem_of_app. right. apply list_elem_of_here.
Qed.

Lemma find_wall_returns_hit surfs x y z dx dz s :
  Forall surface_wf surfs -> find_wall surfs x y z dx dz = Some (Some s) ->
  s ∈ surfs /\ wall_hit x y z (x + dx * 2) (z + dz * 2) s.
Proof.
  intros Hwf E.
  destruct (find_wall_loop_spec x y z (x + dx * 2) (z + dz * 2) surfs Hwf)
    as (r & E' & Hr).
  unfold find_wall in E. cbv zeta in E. rewrite E in E'. injection E' as <-.
  destruct Hr as (l1 & l2 & -> & Hh & _). split; [|exact Hh].
  apply elem_of_app. right. apply list_elem_of_here.
Qed.

Section Quads.
Context `{MathLib}.

Lemma make_quad_normal_dot p1 p2 p3 p4 col st :
  let n := normal (make_quad p1 p2 p3 p4 col st) in
  vx n * (vx p2 - vx p1) + vy n * (vy p2 - vy p1) + vz n * (vz p2 - vz p1) == 0 /\
  vx n * (vx p3 - vx p1) + vy n * (vy p3 - vy p1) + vz n * (vz p3 - vz p1) == 0.
Proof.
  unfold make_quad. cbv zeta. cbn [normal vx vy vz].
  match goal with |- context [if ?b then _ else _] => set (m := if b then _ else _) end.
  unfold Qdiv. split; ring.
Qed.

(** X7.  The collision plane of a quad passes through its first three
    vertices: for a surface built by [make_quad] whose normal is not
    horizontal, the height that [find_floor] computes from the first vertex
    and the normal equals [p1.y], [p2.y] and [p3.y] at the horizontal
    positions of [p1], [p2] and [p3]. *)
Theorem make_quad_plane_through_vertices (p1 p2 p3 p4 : Vec3f) (col : Color) (st : Z) :
  let s := make_quad p1 p2 p3 p4 col st in
  ~ vy (normal s) == 0 ->
  head (verts s) = Some p1 /\
  plane_y (vx p1) (vz p1) s p1 == vy p1 /\
  plane_y (vx p2) (vz p2) s p1 == vy p2 /\
  plane_y (vx p3) (vz p3) s p1 == vy p3.
Proof.
  intros s Hn.
  destruct (make_quad_normal_dot p1 p2 p3 p4 col st) as [Hu Hv]. fold s in Hu, Hv.
  split; [reflexivity|]. split; [|split].
  - apply plane_y_on_plane; [exact Hn | ring].
  - apply plane_y_on_plane; [exact Hn | exact Hu].
  - apply plane_y_on_plane; [exact Hn | exact Hv].
Qed.

Lemma make_ground_candidate x z w d y col st qx qy qz :
  let g := make_ground x z w d y col st in
  0.01 <= Qabs (vy (normal g)) -> 0 <= w -> 0 <= d ->
  x - w / 2 - 10 <= qx <= x + w / 2 + 10 ->
  z - d / 2 - 10 <= qz <= z + d / 2 + 10 ->
  y <= qy + STEP_ALLOWANCE ->
  exists h, floor_candidate 0.01 qx qy qz g h /\ h == y.
Proof.
  intros g Hn Hw Hd Hx Hz Hy.
  assert (Hny : ~ vy (normal g) == 0).
  { intros E. rewrite E in Hn. vm_compute in Hn. apply Hn. reflexivity. }
  assert (Hp : plane_y qx qz g (mkVec3f (x - w / 2) y (z - d / 2)) == y).
  { revert Hny. unfold g, make_ground, make_quad. cbv zeta. cbn [normal vx vy vz].
    match goal with |- context [if ?b then _ else _] => set (m := if b then _ else _) end.
    intros Hny. apply plane_y_on_plane; [exact Hny|].
    cbn [normal vx vy vz]. unfold Qdiv. ring. }
  exists (plane_y qx qz g (mkVec3f (x - w / 2) y (z - d / 2))).
  split; [|exact Hp].
  unfold floor_candidate, in_bounds. split; [|split; [exact Hn|split; [reflexivity|]]].
  - unfold g, make_ground, make_quad. cbv zeta. cbn [verts].
    split; [|split; [|split]].
    + eexists. split; [apply list_elem_of_here|]. cbn [vx]. lra.
    + eexists. split; [apply list_elem_of_further, list_elem_of_here|]. cbn [vx]. lra.
    + eexists. split; [apply list_elem_of_here|]. cbn [vz]. lra.
    + eexists. split; [do 2 apply list_elem_of_further; apply list_elem_of_here|].
      cbn [vz]. lra.
  - rewrite Hp. exact Hy.
Qed.

(** X8.  A ground quad is not fallen through.  In any level that contains
    [make_ground(x, z, w, d, y, ...)] with [w, d >= 0] and a floor-eligible
    normal, a floor query over the footprint of the quad (widened by 10),
    from a height no more than 150 below [y], returns a floor surface of
    height at least [y], provided [y] lies above the sentinel height. *)
Theorem ground_is_floor (surfs : list Surface) (x z w d y : Q) (col : Color) (st : Z)
  (qx qy qz : Q) :
  Forall surface_wf surfs ->
  make_ground x z w d y col st ∈ surfs ->
  0.01 <= Qabs (vy (normal (make_ground x z w d y col st))) ->
  0 <= w -> 0 <= d ->
  x - w / 2 - 10 <= qx <= x + w / 2 + 10 ->
  z - d / 2 - 10 <= qz <= z + d / 2 + 10 ->
  SENTINEL_H < y -> y <= qy + STEP_ALLOWANCE ->
  exists fy s, find_floor surfs qx qy qz = Some (fy, Some s) /\
               y <= fy /\ fy <= qy + STEP_ALLOWANCE.
Proof.
  intros Hwf Hin Hn Hw Hd Hx Hz Hs Hy.
  destruct (make_ground_candidate x z w d y col st qx qy qz Hn Hw Hd Hx Hz Hy)
    as (h & Hc & Hh).
  destruct (find_floor_at_least surfs qx qy qz _ h Hwf Hin Hc ltac:(lra))
    as (fy & s' & E & H1 & H2 & _).
  exists fy, s'. split; [exact E|]. split; lra.
Qed.

(** X9.  The collision height of a slope is the linear interpolation of its
    two end heights along [z], whatever [x] is: for
    [make_slope(x1, y1, z1, x2, y2, z2, w, ...)] with a normal that is not
    horizontal, the plane height at [(x, z)] is
    [y1 + (y2 - y1) * (z - z1) / (z2 - z1)]. *)
Theorem make_slope_height (x1 y1 z1 x2 y2 z2 w : Q) (col : Color) (st : Z) (x z : Q) :
  let s := make_slope x1 y1 z1 x2 y2 z2 w col st in
  ~ vy (normal s) == 0 ->
  exists p1, head (verts s) = Some p1 /\
    plane_y x z s p1 == y1 + (y2 - y1) * (z - z1) / (z2 - z1).
Proof.
  cbv zeta. unfold make_slope, make_quad. cbv zeta. cbn [normal verts head vx vy vz].
  match goal with |- context [if ?b then _ else _] => set (m := if b then _ else _) end.
  intros Hn. eexists. split; [reflexivity|].
  apply Qdiv_nonzero in Hn as [Hr Hm].
  assert (Hr' : ~ w * (z2 - z1) == 0).
  { intros E. apply Hr.
    assert (E2 : (z1 - z1) * (x2 + w / 2 - (x1 - w / 2))
                 - (x1 + w / 2 - (x1 - w / 2)) * (z2 - z1) == - (w * (z2 - z1))) by field.
    rewrite E2, E. reflexivity. }
  unfold plane_y. cbn [normal vx vy vz]. field.
  split; [|split; [exact Hm|]].
  - intros E. apply Hr'. rewrite E. ring.
  - intros E. apply Hr'.
    assert (E2 : (z1 - z1) * (x2 * 2 + w - (x1 * 2 - w))
                 - (x1 * 2 + w - (x1 * 2 - w)) * (z2 - z1) == - 2 * (w * (z2 - z1)))
      by ring.
    rewrite E2 in E. lra.
Qed.

Lemma make_ground_normal_zero x z w d y col st :
  w == 0 \/ d == 0 ->
  let n := normal (make_ground x z w d y col st) in
  vx n == 0 /\ vy n == 0 /\ vz n == 0.
Proof.
  intros Hwd. unfold make_ground, make_quad. cbv zeta. cbn [normal vx vy vz].
  match goal with |- context [if ?b then _ else _] => set (m := if b then _ else _) end.
  unfold Qdiv. split; [ring|]. split; [|ring].
  assert (E : (z - d / 2 - (z - d / 2)) * (x + w / 2 - (x - w / 2))
              - (x + w / 2 - (x - w / 2)) * (z + d / 2 - (z - d / 2)) == - (w * d))
    by field.
  rewrite E. destruct Hwd as [-> | ->]; ring.
Qed.

(** X10.  A ground quad of zero width or zero depth is inert.  Its normal
    is the zero vector, so on any level no floor query and no wall query
    ever returns it.  (Calls such as [make_ground(0,0,0,2000,3000,...)] in
    the level builders pass [w = 0].) *)
Theorem degenerate_ground_inert (surfs : list Surface) (x z w d y : Q) (col : Color)
  (st : Z) (qx qy qz dx dz : Q) :
  w == 0 \/ d == 0 ->
  Forall surface_wf surfs ->
  (forall h s, find_floor surfs qx qy qz = Some (h, Some s) ->
               s <> make_ground x z w d y col st) /\
  (forall s, find_wall surfs qx qy qz dx dz = Some (Some s) ->
             s <> make_ground x z w d y col st).
Proof.
  intros Hwd Hwf.
  destruct (make_ground_normal_zero x z w d y col st Hwd) as (Nx & Ny & Nz).
  split.
  - intros h s E ->.
    destruct (find_floor_returns_candidate _ _ _ _ _ _ Hwf E) as [_ (_ & Hn & _)].
    rewrite Ny in Hn. vm_compute in Hn. apply Hn. reflexivity.
  - intros s E ->.
    destruct (find_wall_returns_hit _ _ _ _ _ _ _ Hwf E)
      as [_ (_ & _ & _ & p1 & _ & H1 & _)].
    rewrite Nx, Nz in H1. lra.
Qed.

(** X11.  Every surface that the geometry constructors build has exactly
    four vertices, so on a level assembled from them the floor and wall
    queries never raise. *)
Theorem constructors_four_vertices (x y z w h d : Q) (col : Color) (st wp : Z)
  (p1 p2 p3 p4 : Vec3f) (x2 y2 z2 : Q) (n : Z) (dr : Q * Q) :
  Forall four_verts (make_box x y z w h d col st wp) /\
  four_verts (make_quad p1 p2 p3 p4 col st) /\
  four_verts (make_ground x z w d y col st) /\
  four_verts (make_slope x y z x2 y2 z2 w col st) /\
  Forall four_verts (make_stairs x y z n w h d dr col) /\
  length (make_stairs x y z n w h d dr col) = (5 * Z.to_nat n)%nat /\
  (forall surfs qx qy qz dx dz,
     Forall four_verts surfs ->
     is_Some (find_floor surfs qx qy qz) /\ is_Some (find_wall surfs qx qy qz dx dz)).
Proof.
  assert (Hbox : forall x y z w h d col st wp,
             Forall four_verts (make_box x y z w h d col st wp)).
  { intros. destruct col0 as [[c0 c1] c2]. repeat constructor. }
  split; [apply Hbox|]. split; [reflexivity|]. split; [reflexivity|].
  split; [reflexivity|]. split; [|split].
  - unfold make_stairs. apply Forall_forall. intros s Hs.
    apply list_elem_of_In, in_flat_map in Hs as (i & _ & Hs).
    apply list_elem_of_In in Hs.
    exact (proj1 (Forall_forall _ _) (Hbox _ _ _ _ _ _ _ _ _) s Hs).
  - unfold make_stairs. rewrite <- (length_seqZ 0 n).
    induction (seqZ 0 n) as [|a l IH]; [reflexivity|].
    cbn [flat_map length]. rewrite length_app, IH.
    destruct col as [[c0 c1] c2]. cbn [make_box length]. lia.
  - intros surfs qx qy qz dx dz Hs.
    assert (Hwf : Forall surface_wf surfs).
    { eapply Forall_impl; [exact Hs|]. intros s Hl E. unfold four_verts in Hl.
      rewrite E in Hl. discriminate. }
    split; [apply find_floor_total, Hwf | apply find_wall_total, Hwf].
Qed.

End Quads.

Lemma make_quad_plane_through_vertices_witness :
  ~ vy (normal (make_quad (H := scene_math) (mkVec3f 0 0 0) (mkVec3f 4 0 0)
                  (mkVec3f 4 3 (-4)) (mkVec3f 0 3 (-4)) (1, 2, 3)%Z SURF_DEFAULT)) == 0 /\
  (head (verts (make_quad (H := scene_math) (mkVec3f 0 0 0) (mkVec3f 4 0 0)
                  (mkVec3f 4 3 (-4)) (mkVec3f 0 3 (-4)) (1, 2, 3)%Z SURF_DEFAULT))
   = Some (mkVec3f 0 0 0) /\
   plane_y (vx (mkVec3f 0 0 0)) (vz (mkVec3f 0 0 0))
     (make_quad (H := scene_math) (mkVec3f 0 0 0) (mkVec3f 4 0 0)
        (mkVec3f 4 3 (-4)) (mkVec3f 0 3 (-4)) (1, 2, 3)%Z SURF_DEFAULT) (mkVec3f 0 0 0)
   == vy (mkVec3f 0 0 0) /\
   plane_y (vx (mkVec3f 4 0 0)) (vz (mkVec3f 4 0 0))
     (make_quad (H := scene_math) (mkVec3f 0 0 0) (mkVec3f 4 0 0)
        (mkVec3f 4 3 (-4)) (mkVec3f 0 3 (-4)) (1, 2, 3)%Z SURF_DEFAULT) (mkVec3f 0 0 0)
   == vy (mkVec3f 4 0 0) /\
   plane_y (vx (mkVec3f 4 3 (-4))) (vz (mkVec3f 4 3 (-4)))
     (make_quad (H := scene_math) (mkVec3f 0 0 0) (mkVec3f 4 0 0)
        (mkVec3f 4 3 (-4)) (mkVec3f 0 3 (-4)) (1, 2, 3)%Z SURF_DEFAULT) (mkVec3f 0 0 0)
   == vy (mkVec3f 4 3 (-4))).
Proof.
  assert (Hn : ~ vy (normal (make_quad (H := scene_math) (mkVec3f 0 0 0) (mkVec3f 4 0 0)
                  (mkVec3f 4 3 (-4)) (mkVec3f 0 3 (-4)) (1, 2, 3)%Z SURF_DEFAULT)) == 0)
    by (vm_compute; discriminate).
  split; [exact Hn|].
  exact (make_quad_plane_through_vertices (H := scene_math) (mkVec3f 0 0 0) (mkVec3f 4 0 0)
           (mkVec3f 4 3 (-4)) (mkVec3f 0 3 (-4)) (1, 2, 3)%Z SURF_DEFAULT Hn).
Defined.

Lemma ground_is_floor_witness :
  Forall surface_wf level_ground /\
  make_ground (H := scene_math) 0 0 4000 4000 0 (34, 180, 34)%Z SURF_DEFAULT
    ∈ level_ground /\
  0.01 <= Qabs (vy (normal (make_ground (H := scene_math) 0 0 4000 4000 0
                              (34, 180, 34)%Z SURF_DEFAULT))) /\
  0 <= 4000 /\
  0 - 4000 / 2 - 10 <= 1500 <= 0 + 4000 / 2 + 10 /\
  0 - 4000 / 2 - 10 <= -2005 <= 0 + 4000 / 2 + 10 /\
  SENTINEL_H < 0 /\ 0 <= 30 + STEP_ALLOWANCE /\
  exists fy s, find_floor level_ground 1500 30 (-2005) = Some (fy, Some s) /\
               0 <= fy /\ fy <= 30 + STEP_ALLOWANCE.
Proof.
  assert (Hwf : Forall surface_wf level_ground) by (repeat constructor; discriminate).
  assert (Hin : make_ground (H := scene_math) 0 0 4000 4000 0 (34, 180, 34)%Z SURF_DEFAULT
                ∈ level_ground) by apply list_elem_of_here.
  assert (Hn : 0.01 <= Qabs (vy (normal (make_ground (H := scene_math) 0 0 4000 4000 0
                                           (34, 180, 34)%Z SURF_DEFAULT))))
    by (vm_compute; discriminate).
  assert (Hw : 0 <= 4000) by lra.
  assert (Hx : 0 - 4000 / 2 - 10 <= 1500 <= 0 + 4000 / 2 + 10)
    by (split; vm_compute; discriminate).
  assert (Hz : 0 - 4000 / 2 - 10 <= -2005 <= 0 + 4000 / 2 + 10)
    by (split; vm_compute; discriminate).
  assert (Hs : SENTINEL_H < 0) by (vm_compute; reflexivity).
  assert (Hy : 0 <= 30 + STEP_ALLOWANCE) by (vm_compute; discriminate).
  split; [exact Hwf|]. split; [exact Hin|]. split; [exact Hn|]. split; [exact Hw|].
  split; [exact Hx|]. split; [exact Hz|]. split; [exact Hs|]. split; [exact Hy|].
  exact (ground_is_floor (H := scene_math) level_ground 0 0 4000 4000 0 (34, 180, 34)%Z
           SURF_DEFAULT 1500 30 (-2005) Hwf Hin Hn Hw Hw Hx Hz Hs Hy).
Defined.

Lemma make_slope_height_witness :
  ~ vy (normal (make_slope (H := scene_math) 0 400 (-500) 0 0 500 300 (60, 60, 100)%Z
                  2%Z)) == 0 /\
  exists p1,
    head (verts (make_slope (H := scene_math) 0 400 (-500) 0 0 500 300 (60, 60, 100)%Z
                   2%Z)) = Some p1 /\
    plane_y 70 250 (make_slope (H := scene_math) 0 400 (-500) 0 0 500 300
                      (60, 60, 100)%Z 2%Z) p1
    == 400 + (0 - 400) * (250 - -500) / (500 - -500).
Proof.
  assert (Hn : ~ vy (normal (make_slope (H := scene_math) 0 400 (-500) 0 0 500 300
                               (60, 60, 100)%Z 2%Z)) == 0)
    by (vm_compute; discriminate).
  split; [exact Hn|].
  exact (make_slope_height (H := scene_math) 0 400 (-500) 0 0 500 300 (60, 60, 100)%Z 2%Z
           70 250 Hn).
Defined.

Lemma degenerate_ground_inert_witness :
  (0 == 0 \/ 2000 == 0) /\
  Forall surface_wf level_inside_ground /\
  (forall h s, find_floor level_inside_ground 0 3000 0 = Some (h, Some s) ->
               s <> make_ground (H := scene_math) 0 0 0 2000 3000 (180, 160, 130)%Z
                      SURF_DEFAULT) /\
  (forall s, find_wall level_inside_ground 0 3000 0 0 1 = Some (Some s) ->
             s <> make_ground (H := scene_math) 0 0 0 2000 3000 (180, 160, 130)%Z
                    SURF_DEFAULT).
Proof.
  assert (Hwd : 0 == 0 \/ 2000 == 0) by (left; reflexivity).
  assert (Hwf : Forall surface_wf level_inside_ground)
    by (repeat constructor; discriminate).
  split; [exact Hwd|]. split; [exact Hwf|].
  exact (degenerate_ground_inert (H := scene_math) level_inside_ground 0 0 0 2000 3000
           (180, 160, 130)%Z SURF_DEFAULT 0 3000 0 0 1 Hwd Hwf).
Defined.

(** The floor of [_b_inside] as built: a query right on it finds nothing. *)
Example inside_ground_is_missed :
  find_floor level_inside_ground 0 3000 0 = Some (SENTINEL_H, None).
Proof. vm_compute. reflexivity. Qed.

(** ** Physics steps: [ground_step] and [update_air] *)

Section PhysicsFacts.
Context `{MathLib}.

(** X12.  A ground step moves the character horizontally by its velocity,
    leaves the velocity alone and returns only ['ground'] or ['air'].  On
    ['ground'] the character stands exactly on the floor found under the
    new position, which is no more than 10 below its old height and, when a
    surface was found, no more than 250 above it; on ['air'] the height is
    unchanged and the floor is more than 10 below. *)
Theorem ground_step_snap (surfs : list Surface) (m : MarioState) :
  Forall surface_wf surfs ->
  exists r m',
    ground_step surfs m = Some (r, m') /\
    vx (pos m') = vx (pos m) + vx (vel m) /\
    vz (pos m') = vz (pos m) + vz (vel m) /\
    vel m' = vel m /\ fvel m' = fvel m /\ action m' = action m /\
    find_floor surfs (vx (pos m')) (vy (pos m) + 100) (vz (pos m'))
      = Some (floor_y m', floor m') /\
    ((r = Ground /\ vy (pos m') = floor_y m' /\
      vy (pos m) - 10 <= floor_y m' /\
      (is_Some (floor m') -> floor_y m' <= vy (pos m) + 250)) \/
     (r = Air /\ vy (pos m') = vy (pos m) /\ floor_y m' + 10 < vy (pos m))).
Proof.
  intros Hwf. unfold ground_step. cbv zeta.
  cbn [pos vel with_pos_x with_pos_z with_pos vx vy vz].
  set (x' := vx (pos m) + vx (vel m)). set (z' := vz (pos m) + vz (vel m)).
  destruct (find_floor_loop_highest 0.01 x' (vy (pos m) + 100) z' surfs Hwf)
    as (fy & fl & E & Hm).
  unfold find_floor. rewrite E. cbn [mbind option_bind].
  assert (Hb : is_Some fl -> fy <= vy (pos m) + 250).
  { intros [s ->]. destruct Hm as (l1 & l2 & _ & (_ & _ & _ & Hle) & _).
    unfold STEP_ALLOWANCE in Hle. lra. }
  match goal with |- context [Qgtb ?a (fy + 10)] => change a with (vy (pos m)) end.
  destruct (Qgtb (vy (pos m)) (fy + 10)) eqn:Eg.
  - apply Qgtb_true in Eg. eexists. eexists. split; [reflexivity|]. cbn.
    repeat (split; [reflexivity|]). split; [exact E|]. right.
    split; [reflexivity|]. split; [reflexivity | exact Eg].
  - apply Qgtb_false in Eg. eexists. eexists. split; [reflexivity|]. cbn.
    repeat (split; [reflexivity|]). split; [exact E|]. left.
    split; [reflexivity|]. split; [reflexivity|]. split; [lra | exact Hb].
Qed.

(** *** Gravity and terminal velocity *)

Lemma update_air_fields m :
  let m' := update_air m in
  fvel m' = fvel m * AIR_DRAG /\
  vx (vel m') = fvel m' * sins (sy (face m)) /\
  vz (vel m') = fvel m' * coss (sy (face m)) /\
  vy (vel m') = (if Qltb (vy (vel m) + GRAVITY) MAX_FALL then MAX_FALL
                 else vy (vel m) + GRAVITY) /\
  face m' = face m /\ pos m' = pos m.
Proof.
  unfold update_air. cbv zeta. cbn.
  destruct (Qltb (vy (vel m) + GRAVITY) MAX_FALL); cbn; repeat split.
Qed.

Lemma update_air_floor m : MAX_FALL <= vy (vel (update_air m)).
Proof.
  destruct (update_air_fields m) as (_ & _ & _ & -> & _).
  destruct (Qltb _ MAX_FALL) eqn:E; [lra|]. apply Qltb_false in E. exact E.
Qed.

Lemma Qpower_succ_nat (a : Q) (n : nat) :
  a ^ Z.of_nat (S n) == a ^ Z.of_nat n * a.
Proof.
  rewrite Nat2Z.inj_succ. unfold Z.succ.
  rewrite Qpower_plus' by lia. rewrite Qpower_1_r. reflexivity.
Qed.

Lemma update_air_iter m n :
  let m' := Nat.iter (S n) update_air m in
  let g := inject_Z (Z.of_nat (S n)) * GRAVITY in
  MAX_FALL <= vy (vel m') /\
  (MAX_FALL <= vy (vel m) + g -> vy (vel m') == vy (vel m) + g) /\
  (vy (vel m) + g <= MAX_FALL -> vy (vel m') == MAX_FALL) /\
  fvel m' == fvel m * AIR_DRAG ^ Z.of_nat (S n) /\
  vx (vel m') = fvel m' * sins (sy (face m)) /\
  vz (vel m') = fvel m' * coss (sy (face m)) /\
  face m' = face m /\ pos m' = pos m.
Proof.
  cbv zeta. induction n as [|n IH].
  - change (Nat.iter 1 update_air m) with (update_air m).
    destruct (update_air_fields m) as (F1 & F2 & F3 & F4 & F5 & F6).
    split; [apply update_air_floor|]. rewrite F4.
    change (inject_Z (Z.of_nat 1)) with 1.
    destruct (Qltb _ MAX_FALL) eqn:E;
      [apply Qltb_true in E | apply Qltb_false in E].
    + split; [intros; lra|]. split; [intros; reflexivity|].
      split; [rewrite F1; reflexivity|]. auto.
    + split; [intros; lra|]. split; [intros; lra|].
      split; [rewrite F1; reflexivity|]. auto.
  - rewrite Nat.iter_succ.
    set (r := Nat.iter (S n) update_air m) in *.
    destruct IH as (I1 & I2 & I3 & I4 & I5 & I6 & I7 & I8).
    destruct (update_air_fields r) as (F1 & F2 & F3 & F4 & F5 & F6).
    split; [apply update_air_floor|].
    pose proof (inject_Z_succ_nat (S n)) as HS.
    set (N := inject_Z (Z.of_nat (S n))) in *.
    set (N' := inject_Z (Z.of_nat (S (S n)))) in *.
    assert (HN : N' * GRAVITY == N * GRAVITY + GRAVITY) by (rewrite HS; ring).
    assert (HG : GRAVITY == -4) by reflexivity.
    assert (HM : MAX_FALL == -75) by reflexivity.
    rewrite F4, F2, F3, F1, F5, F6, I7, I8.
    split; [|split; [|split; [|auto]]].
    + intros Hge. specialize (I2 ltac:(lra)).
      destruct (Qltb _ MAX_FALL) eqn:E;
        [apply Qltb_true in E | apply Qltb_false in E]; lra.
    + intros Hle.
      destruct (Qltb _ MAX_FALL) eqn:E;
        [reflexivity | apply Qltb_false in E].
      destruct (Qlt_le_dec (vy (vel m) + N * GRAVITY) MAX_FALL) as [Hc|Hc].
      * specialize (I3 ltac:(lra)). lra.
      * specialize (I2 Hc). lra.
    + rewrite (Qpower_succ_nat AIR_DRAG (S n)), I4. ring.
Qed.

(** X13.  Gravity and the fall-speed limit of [update_air].  After [n + 1]
    consecutive updates the vertical velocity is never below [MAX_FALL]; it
    has dropped by [GRAVITY] per update as long as that stays at or above
    the limit, and it is exactly [MAX_FALL] from then on.  The forward speed
    has been multiplied by [AIR_DRAG] per update, and the horizontal
    velocity is the forward speed along the facing, which the updates leave
    alone together with the position. *)
Theorem update_air_terminal_velocity (m : MarioState) (n : nat) :
  let m' := Nat.iter (S n) update_air m in
  let g := inject_Z (Z.of_nat (S n)) * GRAVITY in
  MAX_FALL <= vy (vel m') /\
  (MAX_FALL <= vy (vel m) + g -> vy (vel m') == vy (vel m) + g) /\
  (vy (vel m) + g <= MAX_FALL -> vy (vel m') == MAX_FALL) /\
  fvel m' == fvel m * AIR_DRAG ^ Z.of_nat (S n) /\
  vx (vel m') = fvel m' * sins (sy (face m)) /\
  vz (vel m') = fvel m' * coss (sy (face m)) /\
  face m' = face m /\ pos m' = pos m.
Proof. exact (update_air_iter m n). Qed.

End PhysicsFacts.

Lemma ground_step_snap_witness :
  Forall surface_wf level_flat /\
  exists r m',
    ground_step level_flat (with_pos_y 5 mario_default) = Some (r, m') /\
    vx (pos m') = vx (pos (with_pos_y 5 mario_default))
                  + vx (vel (with_pos_y 5 mario_default)) /\
    vz (pos m') = vz (pos (with_pos_y 5 mario_default))
                  + vz (vel (with_pos_y 5 mario_default)) /\
    vel m' = vel (with_pos_y 5 mario_default) /\
    fvel m' = fvel (with_pos_y 5 mario_default) /\
    action m' = action (with_pos_y 5 mario_default) /\
    find_floor level_flat (vx (pos m')) (vy (pos (with_pos_y 5 mario_default)) + 100)
      (vz (pos m')) = Some (floor_y m', floor m') /\
    ((r = Ground /\ vy (pos m') = floor_y m' /\
      vy (pos (with_pos_y 5 mario_default)) - 10 <= floor_y m' /\
      (is_Some (floor m') -> floor_y m' <= vy (pos (with_pos_y 5 mario_default)) + 250)) \/
     (r = Air /\ vy (pos m') = vy (pos (with_pos_y 5 mario_default)) /\
      floor_y m' + 10 < vy (pos (with_pos_y 5 mario_default)))).
Proof.
  assert (Hwf : Forall surface_wf level_flat) by (repeat constructor; discriminate).
  split; [exact Hwf|].
  exact (ground_step_snap level_flat (with_pos_y 5 mario_default) Hwf).
Defined.

(** From rest, the fall speed reaches the limit on the 19th update and
    stays there. *)
Example update_air_reaches_limit :
  vy (vel (Nat.iter 18 (update_air (H := scene_math)) mario_default)) == -72 /\
  vy (vel (Nat.iter 19 (update_air (H := scene_math)) mario_default)) == MAX_FALL /\
  vy (vel (Nat.iter 40 (update_air (H := scene_math)) mario_default)) == MAX_FALL.
Proof. repeat split; vm_compute; reflexivity. Qed.

(** ** The action state machine as a whole *)

Section ActionFacts.
Context `{MathLib}.

Lemma dispatch_in_table surfs m c :
  exists a h, (a, h) ∈ ACT_TABLE /\ dispatch surfs m c = h surfs m c /\
              (a = action m \/ a = ACT_IDLE).
Proof.
  unfold dispatch. destruct (ACT_MAP !! action m) as [h|] eqn:E; cbn [default].
  - exists (action m), h. split; [|auto].
    apply (elem_of_list_to_map_2 (M := gmap Z)). exact E.
  - exists ACT_IDLE, a_idle. split; [apply list_elem_of_here | auto].
Qed.

Lemma air_frame_stats m m' :
  air_frame m m' ->
  coins m' = coins m /\ stars m' = stars m /\ lives m' = lives m /\
  lvl_stars m' = lvl_stars m /\ health m' = health m /\ inv m' = inv m /\
  hurt m' = hurt m.
Proof. intros ->. repeat split. Qed.

Ltac stats_frame Hwf :=
  cbv zeta; unfold update_air; cbv zeta;
  repeat match goal with
  | |- context [if ?b then _ else _] => destruct b
  | |- context [ground_step ?s ?m0] =>
      destruct (ground_step_cases s m0 Hwf) as (? & ? & [-> | ->]);
      cbn [mbind option_bind]
  | |- context [air_step ?s ?m0] =>
      let Hfr := fresh "Hfr" in
      destruct (air_step_keeps s m0 Hwf) as (? & ? & -> & Hfr & _);
      apply air_frame_stats in Hfr; cbn in Hfr;
      destruct Hfr as (? & ? & ? & ? & ? & ? & ?);
      cbn [mbind option_bind]
  end;
  intros [= <-]; cbn;
  (split; [repeat split; congruence | left; repeat split; congruence]).

Lemma a_lava_frame surfs m c m' :
  Forall surface_wf surfs -> a_lava surfs m c = Some m' ->
  stats_kept m m' /\ (health_kept m m' \/ (atimer m = 0%Z /\
     (inv m <= 0)%Z /\ health m' = Z.max 0 (health m - 0x100) /\ inv m' = 60%Z /\
     hurt m' = 10%Z)).
Proof.
  intros Hwf. unfold stats_kept, health_kept, a_lava. cbv zeta.
  set (m0 := if (atimer m =? 0)%Z then _ else m).
  destruct (air_step_keeps surfs (update_air m0) Hwf) as (r & m1 & -> & Hfr & _).
  apply air_frame_stats in Hfr.
  assert (Hu : coins (update_air m0) = coins m0 /\ stars (update_air m0) = stars m0 /\
               lives (update_air m0) = lives m0 /\
               lvl_stars (update_air m0) = lvl_stars m0 /\
               health (update_air m0) = health m0 /\ inv (update_air m0) = inv m0 /\
               hurt (update_air m0) = hurt m0).
  { unfold update_air. cbv zeta. destruct (Qltb _ MAX_FALL); repeat split. }
  destruct Hfr as (F1 & F2 & F3 & F4 & F5 & F6 & F7).
  destruct Hu as (U1 & U2 & U3 & U4 & U5 & U6 & U7).
  rewrite U1 in F1. rewrite U2 in F2. rewrite U3 in F3. rewrite U4 in F4.
  rewrite U5 in F5. rewrite U6 in F6. rewrite U7 in F7.
  clear U1 U2 U3 U4 U5 U6 U7.
  cbn [mbind option_bind]. intros [= <-].
  assert (Hm1 : forall (f : MarioState -> Z),
             (forall x a, f (with_atimer a x) = f x) ->
             (forall x a, f (set_act a x) = f x) ->
             f (with_atimer (atimer (if StepResult_eqb r Land then set_act ACT_IDLE m1 else m1)
                             + 1)%Z
                  (if StepResult_eqb r Land then set_act ACT_IDLE m1 else m1)) = f m1).
  { intros f Ha Hs. rewrite Ha. destruct (StepResult_eqb r Land); [apply Hs | reflexivity]. }
  rewrite (Hm1 coins), (Hm1 stars), (Hm1 lives), (Hm1 health), (Hm1 inv), (Hm1 hurt)
    by reflexivity.
  assert (Hl : lvl_stars (with_atimer
                 (atimer (if StepResult_eqb r Land then set_act ACT_IDLE m1 else m1) + 1)%Z
                 (if StepResult_eqb r Land then set_act ACT_IDLE m1 else m1))
               = lvl_stars m1).
  { destruct (StepResult_eqb r Land); reflexivity. }
  rewrite Hl, F1, F2, F3, F4, F5, F6, F7. clear Hm1 Hl F1 F2 F3 F4 F5 F6 F7.
  unfold m0. destruct (atimer m =? 0)%Z eqn:Et; [|split; [|left]; repeat split].
  unfold take_dmg. cbv zeta.
  cbn [inv with_vel_z with_vel_x with_vel with_fvel with_vel_y].
  destruct (inv m >? 0)%Z eqn:Ei; [split; [|left]; repeat split|].
  split; [repeat split|]. right.
  split; [lia|]. split; [lia|]. repeat split.
Qed.

Lemma handlers_frame surfs a h m c m' :
  Forall surface_wf surfs -> (a, h) ∈ ACT_TABLE -> h surfs m c = Some m' ->
  stats_kept m m' /\ (health_kept m m' \/ (a = ACT_LAVA_BOOST /\ atimer m = 0%Z /\
     (inv m <= 0)%Z /\ health m' = Z.max 0 (health m - 0x100) /\ inv m' = 60%Z /\
     hurt m' = 10%Z)).
Proof.
  intros Hwf Hin.
  assert (Hlava : a_lava surfs m c = Some m' ->
    stats_kept m m' /\ (health_kept m m' \/ (ACT_LAVA_BOOST = ACT_LAVA_BOOST /\
       atimer m = 0%Z /\ (inv m <= 0)%Z /\ health m' = Z.max 0 (health m - 0x100) /\
       inv m' = 60%Z /\ hurt m' = 10%Z))).
  { intros E. destruct (a_lava_frame surfs m c m' Hwf E) as [Hs [Hk | Hb]].
    - split; [exact Hs | left; exact Hk].
    - split; [exact Hs | right; split; [reflexivity | exact Hb]]. }
  unfold stats_kept, health_kept. unfold ACT_TABLE in Hin.
  repeat (apply elem_of_cons in Hin as [Hin|Hin];
          [injection Hin as -> ->|]); [..|by apply elem_of_nil in Hin].
  - unfold a_idle. stats_frame Hwf.
  - unfold a_walk. stats_frame Hwf.
  - unfold a_decel. stats_frame Hwf.
  - unfold a_crouch. stats_frame Hwf.
  - unfold a_jump. stats_frame Hwf.
  - unfold a_dbl. stats_frame Hwf.
  - unfold a_triple. stats_frame Hwf.
  - unfold a_backflip. stats_frame Hwf.
  - unfold a_sideflip. stats_frame Hwf.
  - unfold a_longjump. stats_frame Hwf.
  - unfold a_wallkick. stats_frame Hwf.
  - unfold a_freefall. stats_frame Hwf.
  - unfold a_dive. stats_frame Hwf.
  - unfold a_belly. stats_frame Hwf.
  - unfold a_gp. stats_frame Hwf.
  - unfold a_gpl. stats_frame Hwf.
  - unfold a_knock. stats_frame Hwf.
  - exact Hlava.
  - unfold a_star. stats_frame Hwf.
  - unfold a_death. stats_frame Hwf.
Qed.

(** X14.  No action handler touches the coin, star or life counters or the
    set of held stars, and none heals.  The health, the invulnerability
    timer and the hurt timer are left alone by every dispatch except the
    first tick of the lava boost with the invulnerability timer not
    positive, which takes [0x100] of health (not below 0) and sets the two
    timers to 60 and 10. *)
Theorem dispatch_frame (surfs : list Surface) (m : MarioState) (c : Controller)
  (m' : MarioState) :
  Forall surface_wf surfs ->
  dispatch surfs m c = Some m' ->
  stats_kept m m' /\ (health_kept m m' \/ lava_burn m m').
Proof.
  intros Hwf E.
  destruct (dispatch_in_table surfs m c) as (a & h & Hin & Eh & Ha).
  rewrite Eh in E.
  destruct (handlers_frame surfs a h m c m' Hwf Hin E) as [Hs Hh].
  split; [exact Hs|]. destruct Hh as [Hh | (-> & Hh)]; [left; exact Hh|].
  right. unfold lava_burn. split; [|exact Hh].
  destruct Ha as [Ha | Ha]; [symmetry; exact Ha | discriminate Ha].
Qed.


(** *** The fall-speed limit is never broken *)

Ltac vfall_frame Hwf Hv0 :=
  cbv zeta;
  repeat match goal with
  | |- context [if ?b then _ else _] => destruct b
  | |- context [ground_step ?s ?m0] =>
      destruct (ground_step_cases s m0 Hwf) as (? & ? & [-> | ->]);
      cbn [mbind option_bind]
  | |- context [air_step ?s ?m0] =>
      let Hvy := fresh "Hvy" in
      destruct (air_step_keeps s m0 Hwf) as (? & ? & -> & _ & Hvy);
      cbn [mbind option_bind]
  end;
  intros [= <-];
  cbn [vel vy with_atimer with_astate with_action with_prev_act set_act with_wktimer
       with_fvel with_vel_x with_vel_z with_vel_y with_vel with_jcount with_jtimer
       with_pos_y with_pos with_floor with_floor_y with_pos_x with_pos_z with_peak_y
       with_face_y with_face set_fvel];
  first
    [ exact Hv0
    | match goal with Hvy : vy (vel ?x) = _ |- _ <= vy (vel ?x) =>
        rewrite Hvy; first [apply update_air_floor | exact Hv0] end
    | vm_compute; discriminate
    | match goal with |- context [Qabs ?q] =>
        pose proof (Qabs_nonneg q); unfold MAX_FALL; lra end ].

Lemma handlers_fall_limit surfs a h m c m' :
  Forall surface_wf surfs -> (a, h) ∈ ACT_TABLE ->
  MAX_FALL <= vy (vel m) -> h surfs m c = Some m' ->
  MAX_FALL <= vy (vel m').
Proof.
  intros Hwf Hin Hv0. unfold ACT_TABLE in Hin.
  repeat (apply elem_of_cons in Hin as [Hin|Hin];
          [injection Hin as -> ->|]); [..|by apply elem_of_nil in Hin].
  - unfold a_idle. vfall_frame Hwf Hv0.
  - unfold a_walk. vfall_frame Hwf Hv0.
  - unfold a_decel. vfall_frame Hwf Hv0.
  - unfold a_crouch. vfall_frame Hwf Hv0.
  - unfold a_jump. vfall_frame Hwf Hv0.
  - unfold a_dbl. vfall_frame Hwf Hv0.
  - unfold a_triple. vfall_frame Hwf Hv0.
  - unfold a_backflip. vfall_frame Hwf Hv0.
  - unfold a_sideflip. vfall_frame Hwf Hv0.
  - unfold a_longjump. vfall_frame Hwf Hv0.
  - unfold a_wallkick. vfall_frame Hwf Hv0.
  - unfold a_freefall. vfall_frame Hwf Hv0.
  - unfold a_dive. vfall_frame Hwf Hv0.
  - unfold a_belly. vfall_frame Hwf Hv0.
  - unfold a_gp. vfall_frame Hwf Hv0.
  - unfold a_gpl. vfall_frame Hwf Hv0.
  - unfold a_knock. vfall_frame Hwf Hv0.
  - unfold a_lava. vfall_frame Hwf Hv0.
  - unfold a_star. vfall_frame Hwf Hv0.
  - unfold a_death. cbv zeta. intros [= <-]. cbn.
    destruct (py_max2_cases (vy (vel m) + GRAVITY) MAX_FALL) as [[_ ->] | [? ->]]; lra.
Qed.

(** X15.  The fall-speed limit is an invariant of the state machine: if
    the vertical velocity is at or above [MAX_FALL] before a dispatch, it is
    at or above [MAX_FALL] after it, whatever the action and the input. *)
Theorem dispatch_fall_limit (surfs : list Surface) (m : MarioState) (c : Controller)
  (m' : MarioState) :
  Forall surface_wf surfs ->
  MAX_FALL <= vy (vel m) ->
  dispatch surfs m c = Some m' ->
  MAX_FALL <= vy (vel m').
Proof.
  intros Hwf Hv E.
  destruct (dispatch_in_table surfs m c) as (a & h & Hin & Eh & _).
  rewrite Eh in E. exact (handlers_fall_limit surfs a h m c m' Hwf Hin Hv E).
Qed.

End ActionFacts.

Lemma dispatch_frame_witness :
  Forall surface_wf level_flat /\
  exists m',
    dispatch (H := scene_math) level_flat mario_lava ctrl_default = Some m' /\
    stats_kept mario_lava m' /\ (health_kept mario_lava m' \/ lava_burn mario_lava m').
Proof.
  assert (Hwf : Forall surface_wf level_flat) by (repeat constructor; discriminate).
  split; [exact Hwf|].
  destruct (dispatch (H := scene_math) level_flat mario_lava ctrl_default) as [m'|] eqn:E.
  - exists m'. split; [reflexivity|].
    exact (dispatch_frame (H := scene_math) level_flat mario_lava ctrl_default m' Hwf E).
  - exfalso. vm_compute in E. discriminate E.
Defined.

(** The lava boost of the witness does burn: the health drops by [0x100]. *)
Example lava_boost_burns :
  health <$> dispatch (H := scene_math) level_flat mario_lava ctrl_default
  = Some (0x880 - 0x100)%Z.
Proof. vm_compute. reflexivity. Qed.

Lemma dispatch_fall_limit_witness :
  Forall surface_wf level_flat /\
  MAX_FALL <= vy (vel mario_falling) /\
  exists m',
    dispatch (H := scene_math) level_flat mario_falling ctrl_default = Some m' /\
    MAX_FALL <= vy (vel m').
Proof.
  assert (Hwf : Forall surface_wf level_flat) by (repeat constructor; discriminate).
  assert (Hv : MAX_FALL <= vy (vel mario_falling)) by (vm_compute; discriminate).
  split; [exact Hwf|]. split; [exact Hv|].
  destruct (dispatch (H := scene_math) level_flat mario_falling ctrl_default)
    as [m'|] eqn:E.
  - exists m'. split; [reflexivity|].
    exact (dispatch_fall_limit (H := scene_math) level_flat mario_falling ctrl_default m'
             Hwf Hv E).
  - exfalso. vm_compute in E. discriminate E.
Defined.

(** ** Timed actions: ground-pound landing, star dance, ground-pound hover, death *)

Section TimedActions.
Context `{MathLib}.

Lemma dispatch_at surfs m c a h :
  action m = a -> ACT_MAP !! a = Some h -> dispatch surfs m c = h surfs m c.
Proof. intros <- E. unfold dispatch. rewrite E. reflexivity. Qed.

Lemma ACT_MAP_lookup a h : (a, h) ∈ ACT_TABLE -> ACT_MAP !! a = Some h.
Proof.
  intros Hin. apply (elem_of_list_to_map_1 (M := gmap Z)); [|exact Hin].
  assert (E : (ACT_TABLE).*1
              = [ACT_IDLE; ACT_WALKING; ACT_DECEL; ACT_CROUCH; ACT_JUMP; ACT_DBL_JUMP;
                 ACT_TRIPLE; ACT_BACKFLIP; ACT_SIDEFLIP; ACT_LONG_JUMP; ACT_WALLKICK;
                 ACT_FREEFALL; ACT_DIVE; ACT_BELLY_SLIDE; ACT_GROUND_POUND; ACT_GP_LAND;
                 ACT_KNOCKBACK; ACT_LAVA_BOOST; ACT_STAR_DANCE; ACT_DEATH])
    by reflexivity.
  rewrite E. apply (bool_decide_unpack _). vm_compute. exact I.
Qed.

Lemma ACT_MAP_gpl : ACT_MAP !! ACT_GP_LAND = Some a_gpl.
Proof. apply ACT_MAP_lookup, (list_elem_of_lookup_2 _ 15). reflexivity. Qed.

Lemma ACT_MAP_star : ACT_MAP !! ACT_STAR_DANCE = Some a_star.
Proof. apply ACT_MAP_lookup, (list_elem_of_lookup_2 _ 18). reflexivity. Qed.

Lemma ACT_MAP_gp : ACT_MAP !! ACT_GROUND_POUND = Some a_gp.
Proof. apply ACT_MAP_lookup, (list_elem_of_lookup_2 _ 14). reflexivity. Qed.

Lemma ACT_MAP_death : ACT_MAP !! ACT_DEATH = Some a_death.
Proof. apply ACT_MAP_lookup, (list_elem_of_lookup_2 _ 19). reflexivity. Qed.

Lemma dispatch_run_app surfs l1 l2 m :
  dispatch_run surfs (l1 ++ l2) m = dispatch_run surfs l1 m ≫= dispatch_run surfs l2.
Proof.
  revert m. induction l1 as [|c l1 IH]; intros m; [reflexivity|].
  cbn [app dispatch_run]. destruct (dispatch surfs m c) as [m1|]; [|reflexivity].
  cbn [mbind option_bind]. apply IH.
Qed.

(** An invariant indexed by the number of ticks run so far is carried
    along a run, as long as each dispatch below the bound carries it one
    tick further. *)
Lemma dispatch_run_inv (P : nat -> MarioState -> Prop) (Q : Controller -> Prop)
  (bound : nat) surfs :
  (forall k m c, (k < bound)%nat -> Q c -> P k m ->
                 exists m', dispatch surfs m c = Some m' /\ P (S k) m') ->
  forall cs k m, Forall Q cs -> (k + length cs <= bound)%nat -> P k m ->
                 exists m', dispatch_run surfs cs m = Some m' /\ P (k + length cs)%nat m'.
Proof.
  intros Hstep cs. induction cs as [|c cs IH]; intros k m HQ Hb HP.
  - exists m. split; [reflexivity|]. rewrite Nat.add_0_r. exact HP.
  - cbn [length] in Hb. apply Forall_cons in HQ as [Hc HQ].
    destruct (Hstep k m c ltac:(lia) Hc HP) as (m1 & E1 & HP1).
    destruct (IH (S k) m1 HQ ltac:(lia) HP1) as (m' & E' & HP').
    exists m'. cbn [dispatch_run]. rewrite E1. cbn [mbind option_bind].
    split; [exact E'|]. cbn [length]. rewrite Nat.add_succ_r. exact HP'.
Qed.

Lemma Forall_any_input (cs : list Controller) : Forall (fun _ => True) cs.
Proof. apply Forall_forall. auto. Qed.

(** *** Ground-pound landing *)

Lemma gpl_hold_step surfs m0 k m c :
  (k < 5)%nat ->
  action m = ACT_GP_LAND /\ atimer m = Z.of_nat k /\ pos m = pos m0 /\ vel m = vel m0 ->
  exists m', dispatch surfs m c = Some m' /\
    (action m' = ACT_GP_LAND /\ atimer m' = Z.of_nat (S k) /\ pos m' = pos m0 /\
     vel m' = vel m0).
Proof.
  intros Hk (Ha & Ht & Hp & Hv).
  rewrite (dispatch_at surfs m c ACT_GP_LAND a_gpl Ha ACT_MAP_gpl).
  unfold a_gpl. cbv zeta. cbn [atimer with_atimer]. rewrite Ht.
  destruct (Z.gtb_spec (Z.of_nat k + 1) 5); [lia|].
  eexists. split; [reflexivity|]. cbn. repeat split; try assumption. lia.
Qed.

Lemma gpl_idle_step surfs m0 k m c :
  (k < 15)%nat -> idle_input c ->
  action m = ACT_GP_LAND /\ atimer m = Z.of_nat k /\ pos m = pos m0 /\ vel m = vel m0 ->
  exists m', dispatch surfs m c = Some m' /\
    (action m' = ACT_GP_LAND /\ atimer m' = Z.of_nat (S k) /\ pos m' = pos m0 /\
     vel m' = vel m0).
Proof.
  intros Hk [HA Hs] (Ha & Ht & Hp & Hv).
  rewrite (dispatch_at surfs m c ACT_GP_LAND a_gpl Ha ACT_MAP_gpl).
  unfold a_gpl. cbv zeta. cbn [atimer with_atimer]. rewrite Ht, HA, Hs.
  destruct (Z.gtb_spec (Z.of_nat k + 1) 15); [lia|].
  destruct (Z.of_nat k + 1 >? 5)%Z;
    (eexists; split; [reflexivity|]; cbn; repeat split; try assumption; lia).
Qed.

(** X16.  The landing of a ground pound cannot be cut short.  From the
    start of [ACT_GP_LAND], for the first five dispatches the action stays
    [ACT_GP_LAND] whatever the input, and position and velocity do not
    move; a jump press on the sixth dispatch is the first that is honoured.
    With no jump press and the stick at rest the action is still
    [ACT_GP_LAND] after 15 dispatches and is [ACT_IDLE] after the 16th. *)
Theorem gp_land_recovery (surfs : list Surface) (m : MarioState)
  (cs cs2 : list Controller) (c c2 : Controller) :
  action m = ACT_GP_LAND -> atimer m = 0%Z ->
  (length cs <= 5)%nat ->
  Forall idle_input (cs2 ++ [c2]) -> length cs2 = 15%nat ->
  (exists m', dispatch_run surfs cs m = Some m' /\
     action m' = ACT_GP_LAND /\ atimer m' = Z.of_nat (length cs) /\
     pos m' = pos m /\ vel m' = vel m) /\
  (length cs = 5%nat -> bit_set (pressed c) IN_A = true ->
   action <$> dispatch_run surfs (cs ++ [c]) m = Some ACT_JUMP) /\
  action <$> dispatch_run surfs cs2 m = Some ACT_GP_LAND /\
  action <$> dispatch_run surfs (cs2 ++ [c2]) m = Some ACT_IDLE.
Proof.
  intros Ha Ht Hl Hidle Hl2.
  assert (P0 : action m = ACT_GP_LAND /\ atimer m = Z.of_nat 0 /\ pos m = pos m /\
               vel m = vel m) by auto.
  destruct (dispatch_run_inv
              (fun k m' => action m' = ACT_GP_LAND /\ atimer m' = Z.of_nat k /\
                           pos m' = pos m /\ vel m' = vel m)
              (fun _ => True) 5 surfs
              (fun k m1 c1 Hk _ => gpl_hold_step surfs m k m1 c1 Hk)
              cs 0%nat m (Forall_any_input cs) Hl P0) as (m1 & E1 & Q1).
  cbn [Nat.add] in Q1.
  apply Forall_app in Hidle as [Hidle2 Hc2].
  assert (Hc2' : idle_input c2) by (inversion Hc2; assumption).
  clear Hc2. rename Hc2' into Hc2.
  destruct (dispatch_run_inv
              (fun k m' => action m' = ACT_GP_LAND /\ atimer m' = Z.of_nat k /\
                           pos m' = pos m /\ vel m' = vel m)
              idle_input 15 surfs
              (fun k m1 c1 => gpl_idle_step surfs m k m1 c1)
              cs2 0%nat m Hidle2 ltac:(cbn [Nat.add]; lia) P0) as (m2 & E2 & Q2).
  cbn [Nat.add] in Q2. rewrite Hl2 in Q2.
  split; [exists m1; split; [exact E1 | exact Q1]|]. split; [|split].
  - intros Hl5 HA. rewrite dispatch_run_app, E1. cbn [mbind option_bind dispatch_run].
    destruct Q1 as (A1 & T1 & _). rewrite Hl5 in T1.
    rewrite (dispatch_at surfs m1 c ACT_GP_LAND a_gpl A1 ACT_MAP_gpl).
    unfold a_gpl. cbv zeta. cbn [atimer with_atimer]. rewrite T1, HA. reflexivity.
  - rewrite E2. cbn. f_equal. apply Q2.
  - rewrite dispatch_run_app, E2. cbn [mbind option_bind dispatch_run].
    destruct Q2 as (A2 & T2 & _). destruct Hc2 as [HA Hs].
    rewrite (dispatch_at surfs m2 c2 ACT_GP_LAND a_gpl A2 ACT_MAP_gpl).
    unfold a_gpl. cbv zeta. cbn [atimer with_atimer]. rewrite T2, HA, Hs. reflexivity.
Qed.

(** *** Star dance *)

Lemma star_step surfs m0 k m c :
  (k < 90)%nat ->
  action m = ACT_STAR_DANCE /\ atimer m = Z.of_nat k /\ pos m = pos m0 /\
  (k <> 0%nat -> vel m = mkVec3f 0 0 0 /\ fvel m = 0) ->
  exists m', dispatch surfs m c = Some m' /\
    (action m' = ACT_STAR_DANCE /\ atimer m' = Z.of_nat (S k) /\ pos m' = pos m0 /\
     (S k <> 0%nat -> vel m' = mkVec3f 0 0 0 /\ fvel m' = 0)).
Proof.
  intros Hk (Ha & Ht & Hp & _).
  rewrite (dispatch_at surfs m c ACT_STAR_DANCE a_star Ha ACT_MAP_star).
  unfold a_star. cbv zeta.
  cbn [atimer with_atimer with_fvel with_vel_x with_vel_y with_vel_z with_vel].
  rewrite Ht. destruct (Z.gtb_spec (Z.of_nat k + 1) 90); [lia|].
  eexists. split; [reflexivity|]. cbn. repeat split; try assumption. lia.
Qed.

(** X17.  The star dance holds the character for exactly 91 dispatches,
    whatever the input.  From the start of [ACT_STAR_DANCE] the action is
    unchanged after any number of dispatches up to 90, with the position
    where it was and, from the first dispatch on, velocity and forward
    speed zero; the 91st dispatch sets [ACT_IDLE]. *)
Theorem star_dance_duration (surfs : list Surface) (m : MarioState)
  (cs : list Controller) (c : Controller) :
  action m = ACT_STAR_DANCE -> atimer m = 0%Z ->
  (length cs <= 90)%nat ->
  (exists m', dispatch_run surfs cs m = Some m' /\
     action m' = ACT_STAR_DANCE /\ atimer m' = Z.of_nat (length cs) /\
     pos m' = pos m /\
     (cs <> [] -> vel m' = mkVec3f 0 0 0 /\ fvel m' = 0)) /\
  (length cs = 90%nat ->
   exists m', dispatch_run surfs (cs ++ [c]) m = Some m' /\
     action m' = ACT_IDLE /\ prev_act m' = ACT_STAR_DANCE /\ pos m' = pos m).
Proof.
  intros Ha Ht Hl.
  assert (P0 : action m = ACT_STAR_DANCE /\ atimer m = Z.of_nat 0 /\ pos m = pos m /\
               (0%nat <> 0%nat -> vel m = mkVec3f 0 0 0 /\ fvel m = 0)).
  { repeat split; auto; contradiction. }
  destruct (dispatch_run_inv
              (fun k m' => action m' = ACT_STAR_DANCE /\ atimer m' = Z.of_nat k /\
                           pos m' = pos m /\
                           (k <> 0%nat -> vel m' = mkVec3f 0 0 0 /\ fvel m' = 0))
              (fun _ => True) 90 surfs
              (fun k m1 c1 Hk _ => star_step surfs m k m1 c1 Hk)
              cs 0%nat m (Forall_any_input cs) Hl P0) as (m1 & E1 & A1 & T1 & P1 & V1).
  cbn [Nat.add] in T1, V1. split.
  - exists m1. split; [exact E1|]. split; [exact A1|]. split; [exact T1|].
    split; [exact P1|]. intros Hne. apply V1. destruct cs; [contradiction | discriminate].
  - intros Hl90. rewrite dispatch_run_app, E1. cbn [mbind option_bind dispatch_run].
    rewrite (dispatch_at surfs m1 c ACT_STAR_DANCE a_star A1 ACT_MAP_star).
    unfold a_star. cbv zeta.
    cbn [atimer with_atimer with_fvel with_vel_x with_vel_y with_vel_z with_vel].
    rewrite T1, Hl90. cbn [Z.of_nat Pos.of_succ_nat Z.add Z.gtb Z.compare Pos.compare].
    eexists. split; [reflexivity|]. cbn. auto.
Qed.

(** *** Ground-pound hover *)

Lemma gp_hover_step surfs m0 k m c :
  (k < 10)%nat ->
  action m = ACT_GROUND_POUND /\ astate m = 0%Z /\ atimer m = Z.of_nat k /\
  pos m = pos m0 /\ (k <> 0%nat -> vel m = mkVec3f 0 0 0 /\ fvel m = 0) ->
  exists m', dispatch surfs m c = Some m' /\
    (action m' = ACT_GROUND_POUND /\ astate m' = 0%Z /\ atimer m' = Z.of_nat (S k) /\
     pos m' = pos m0 /\ (S k <> 0%nat -> vel m' = mkVec3f 0 0 0 /\ fvel m' = 0)).
Proof.
  intros Hk (Ha & Hs & Ht & Hp & _).
  rewrite (dispatch_at surfs m c ACT_GROUND_POUND a_gp Ha ACT_MAP_gp).
  unfold a_gp. rewrite Hs. cbn [Z.eqb]. cbv zeta.
  cbn [atimer with_atimer with_fvel with_vel_x with_vel_y with_vel_z with_vel].
  rewrite Ht. destruct (Z.gtb_spec (Z.of_nat k + 1) 10); [lia|].
  eexists. split; [reflexivity|]. cbn. repeat split; try assumption. lia.
Qed.

(** X18.  A ground pound hovers for ten dispatches and starts its drop on
    the eleventh, whatever the input.  From the start of
    [ACT_GROUND_POUND] the character keeps its position through the first
    ten dispatches with velocity zero; the eleventh sets the vertical
    velocity to -60.0 and the phase to 1, still without moving. *)
Theorem ground_pound_hover (surfs : list Surface) (m : MarioState)
  (cs : list Controller) (c : Controller) :
  action m = ACT_GROUND_POUND -> astate m = 0%Z -> atimer m = 0%Z ->
  (length cs <= 10)%nat ->
  (exists m', dispatch_run surfs cs m = Some m' /\
     action m' = ACT_GROUND_POUND /\ astate m' = 0%Z /\ pos m' = pos m /\
     (cs <> [] -> vel m' = mkVec3f 0 0 0 /\ fvel m' = 0)) /\
  (length cs = 10%nat ->
   exists m', dispatch_run surfs (cs ++ [c]) m = Some m' /\
     action m' = ACT_GROUND_POUND /\ astate m' = 1%Z /\ pos m' = pos m /\
     vel m' = mkVec3f 0 (-60.0) 0).
Proof.
  intros Ha Hs Ht Hl.
  assert (P0 : action m = ACT_GROUND_POUND /\ astate m = 0%Z /\ atimer m = Z.of_nat 0 /\
               pos m = pos m /\
               (0%nat <> 0%nat -> vel m = mkVec3f 0 0 0 /\ fvel m = 0)).
  { repeat split; auto; contradiction. }
  destruct (dispatch_run_inv
              (fun k m' => action m' = ACT_GROUND_POUND /\ astate m' = 0%Z /\
                           atimer m' = Z.of_nat k /\ pos m' = pos m /\
                           (k <> 0%nat -> vel m' = mkVec3f 0 0 0 /\ fvel m' = 0))
              (fun _ => True) 10 surfs
              (fun k m1 c1 Hk _ => gp_hover_step surfs m k m1 c1 Hk)
              cs 0%nat m (Forall_any_input cs) Hl P0)
    as (m1 & E1 & A1 & S1 & T1 & P1 & V1).
  cbn [Nat.add] in T1, V1. split.
  - exists m1. split; [exact E1|]. split; [exact A1|]. split; [exact S1|].
    split; [exact P1|]. intros Hne. apply V1. destruct cs; [contradiction | discriminate].
  - intros Hl10. rewrite dispatch_run_app, E1. cbn [mbind option_bind dispatch_run].
    rewrite (dispatch_at surfs m1 c ACT_GROUND_POUND a_gp A1 ACT_MAP_gp).
    unfold a_gp. rewrite S1. cbn [Z.eqb]. cbv zeta.
    cbn [atimer with_atimer with_fvel with_vel_x with_vel_y with_vel_z with_vel].
    rewrite T1, Hl10. cbn [Z.of_nat Pos.of_succ_nat Z.add Z.gtb Z.compare Pos.compare].
    eexists. split; [reflexivity|]. cbn. auto.
Qed.

(** *** Death *)

Lemma death_step surfs m0 k m c :
  action m = ACT_DEATH /\ vx (pos m) = vx (pos m0) /\ vz (pos m) = vz (pos m0) /\
  (k <> 0%nat -> vx (vel m) = 0 /\ vz (vel m) = 0 /\ fvel m = 0 /\
                 MAX_FALL <= vy (vel m)) ->
  exists m', dispatch surfs m c = Some m' /\
    (action m' = ACT_DEATH /\ vx (pos m') = vx (pos m0) /\ vz (pos m') = vz (pos m0) /\
     (S k <> 0%nat -> vx (vel m') = 0 /\ vz (vel m') = 0 /\ fvel m' = 0 /\
                      MAX_FALL <= vy (vel m'))).
Proof.
  intros (Ha & Hx & Hz & _).
  rewrite (dispatch_at surfs m c ACT_DEATH a_death Ha ACT_MAP_death).
  unfold a_death. cbv zeta. eexists. split; [reflexivity|]. cbn.
  repeat split; try assumption.
  destruct (py_max2_cases (vy (vel m) + GRAVITY) MAX_FALL) as [[_ ->] | [? ->]]; lra.
Qed.

(** X19.  Death is absorbing for the state machine.  Once the action is
    [ACT_DEATH], any number of dispatches on any surfaces and any input
    leaves it [ACT_DEATH]; the character does not move horizontally, and
    from the first dispatch on its horizontal velocity and forward speed
    are zero and its fall speed stays within the limit. *)
Theorem death_is_absorbing (surfs : list Surface) (m : MarioState)
  (cs : list Controller) :
  action m = ACT_DEATH ->
  exists m', dispatch_run surfs cs m = Some m' /\
    action m' = ACT_DEATH /\
    vx (pos m') = vx (pos m) /\ vz (pos m') = vz (pos m) /\
    (cs <> [] -> vx (vel m') = 0 /\ vz (vel m') = 0 /\ fvel m' = 0 /\
                 MAX_FALL <= vy (vel m')).
Proof.
  intros Ha.
  assert (P0 : action m = ACT_DEATH /\ vx (pos m) = vx (pos m) /\
               vz (pos m) = vz (pos m) /\
               (0%nat <> 0%nat -> vx (vel m) = 0 /\ vz (vel m) = 0 /\ fvel m = 0 /\
                                  MAX_FALL <= vy (vel m))).
  { repeat split; auto; contradiction. }
  destruct (dispatch_run_inv
              (fun k m' => action m' = ACT_DEATH /\ vx (pos m') = vx (pos m) /\
                           vz (pos m') = vz (pos m) /\
                           (k <> 0%nat -> vx (vel m') = 0 /\ vz (vel m') = 0 /\
                                          fvel m' = 0 /\ MAX_FALL <= vy (vel m')))
              (fun _ => True) (length cs) surfs
              (fun k m1 c1 _ _ => death_step surfs m k m1 c1)
              cs 0%nat m (Forall_any_input cs) ltac:(cbn [Nat.add]; lia) P0)
    as (m1 & E1 & A1 & X1 & Z1 & V1).
  cbn [Nat.add] in V1.
  exists m1. split; [exact E1|]. split; [exact A1|]. split; [exact X1|].
  split; [exact Z1|]. intros Hne. apply V1. destruct cs; [contradiction | discriminate].
Qed.

End TimedActions.

Lemma gp_land_recovery_witness :
  action mario_gp_land = ACT_GP_LAND /\ atimer mario_gp_land = 0%Z /\
  (length (replicate 5 ctrl_jump) <= 5)%nat /\
  Forall idle_input (replicate 15 ctrl_default ++ [ctrl_default]) /\
  length (replicate 15 ctrl_default) = 15%nat /\
  (exists m', dispatch_run (H := scene_math) level_flat (replicate 5 ctrl_jump)
                mario_gp_land = Some m' /\
     action m' = ACT_GP_LAND /\ atimer m' = Z.of_nat (length (replicate 5 ctrl_jump)) /\
     pos m' = pos mario_gp_land /\ vel m' = vel mario_gp_land) /\
  (length (replicate 5 ctrl_jump) = 5%nat /\ bit_set (pressed ctrl_jump) IN_A = true /\
   action <$> dispatch_run (H := scene_math) level_flat
                (replicate 5 ctrl_jump ++ [ctrl_jump]) mario_gp_land = Some ACT_JUMP) /\
  action <$> dispatch_run (H := scene_math) level_flat (replicate 15 ctrl_default)
               mario_gp_land = Some ACT_GP_LAND /\
  action <$> dispatch_run (H := scene_math) level_flat
               (replicate 15 ctrl_default ++ [ctrl_default]) mario_gp_land
  = Some ACT_IDLE.
Proof.
  assert (Ha : action mario_gp_land = ACT_GP_LAND) by reflexivity.
  assert (Ht : atimer mario_gp_land = 0%Z) by reflexivity.
  assert (Hl : (length (replicate 5 ctrl_jump) <= 5)%nat) by (cbn; lia).
  assert (Hi : Forall idle_input (replicate 15 ctrl_default ++ [ctrl_default]))
    by (repeat constructor).
  assert (Hl2 : length (replicate 15 ctrl_default) = 15%nat) by reflexivity.
  assert (Hl5 : length (replicate 5 ctrl_jump) = 5%nat) by reflexivity.
  assert (HA : bit_set (pressed ctrl_jump) IN_A = true) by reflexivity.
  destruct (gp_land_recovery (H := scene_math) level_flat mario_gp_land
              (replicate 5 ctrl_jump) (replicate 15 ctrl_default) ctrl_jump ctrl_default
              Ha Ht Hl Hi Hl2) as (R1 & R2 & R3 & R4).
  split; [exact Ha|]. split; [exact Ht|]. split; [exact Hl|]. split; [exact Hi|].
  split; [exact Hl2|]. split; [exact R1|].
  split; [split; [exact Hl5|]; split; [exact HA | exact (R2 Hl5 HA)]|].
  split; [exact R3 | exact R4].
Defined.

Lemma star_dance_duration_witness :
  action mario_star_dance = ACT_STAR_DANCE /\ atimer mario_star_dance = 0%Z /\
  (length (replicate 90 ctrl_jump) <= 90)%nat /\
  (exists m', dispatch_run (H := scene_math) level_flat (replicate 90 ctrl_jump)
                mario_star_dance = Some m' /\
     action m' = ACT_STAR_DANCE /\
     atimer m' = Z.of_nat (length (replicate 90 ctrl_jump)) /\
     pos m' = pos mario_star_dance /\
     (replicate 90 ctrl_jump <> [] -> vel m' = mkVec3f 0 0 0 /\ fvel m' = 0)) /\
  (length (replicate 90 ctrl_jump) = 90%nat /\
   exists m', dispatch_run (H := scene_math) level_flat
                (replicate 90 ctrl_jump ++ [ctrl_jump]) mario_star_dance = Some m' /\
     action m' = ACT_IDLE /\ prev_act m' = ACT_STAR_DANCE /\
     pos m' = pos mario_star_dance).
Proof.
  assert (Ha : action mario_star_dance = ACT_STAR_DANCE) by reflexivity.
  assert (Ht : atimer mario_star_dance = 0%Z) by reflexivity.
  assert (Hl : (length (replicate 90 ctrl_jump) <= 90)%nat)
    by (rewrite length_replicate; lia).
  assert (Hl90 : length (replicate 90 ctrl_jump) = 90%nat) by apply length_replicate.
  destruct (star_dance_duration (H := scene_math) level_flat mario_star_dance
              (replicate 90 ctrl_jump) ctrl_jump Ha Ht Hl) as (R1 & R2).
  split; [exact Ha|]. split; [exact Ht|]. split; [exact Hl|]. split; [exact R1|].
  split; [exact Hl90 | exact (R2 Hl90)].
Defined.

Lemma ground_pound_hover_witness :
  action mario_pound = ACT_GROUND_POUND /\ astate mario_pound = 0%Z /\
  atimer mario_pound = 0%Z /\
  (length (replicate 10 ctrl_stick) <= 10)%nat /\
  (exists m', dispatch_run (H := scene_math) level_flat (replicate 10 ctrl_stick)
                mario_pound = Some m' /\
     action m' = ACT_GROUND_POUND /\ astate m' = 0%Z /\ pos m' = pos mario_pound /\
     (replicate 10 ctrl_stick <> [] -> vel m' = mkVec3f 0 0 0 /\ fvel m' = 0)) /\
  (length (replicate 10 ctrl_stick) = 10%nat /\
   exists m', dispatch_run (H := scene_math) level_flat
                (replicate 10 ctrl_stick ++ [ctrl_stick]) mario_pound = Some m' /\
     action m' = ACT_GROUND_POUND /\ astate m' = 1%Z /\ pos m' = pos mario_pound /\
     vel m' = mkVec3f 0 (-60.0) 0).
Proof.
  assert (Ha : action mario_pound = ACT_GROUND_POUND) by reflexivity.
  assert (Hs : astate mario_pound = 0%Z) by reflexivity.
  assert (Ht : atimer mario_pound = 0%Z) by reflexivity.
  assert (Hl : (length (replicate 10 ctrl_stick) <= 10)%nat) by (cbn; lia).
  assert (Hl10 : length (replicate 10 ctrl_stick) = 10%nat) by reflexivity.
  destruct (ground_pound_hover (H := scene_math) level_flat mario_pound
              (replicate 10 ctrl_stick) ctrl_stick Ha Hs Ht Hl) as (R1 & R2).
  split; [exact Ha|]. split; [exact Hs|]. split; [exact Ht|]. split; [exact Hl|].
  split; [exact R1|]. split; [exact Hl10 | exact (R2 Hl10)].
Defined.

Lemma death_is_absorbing_witness :
  action mario_dead = ACT_DEATH /\
  exists m', dispatch_run (H := scene_math) level_flat [ctrl_jump; ctrl_stick] mario_dead
             = Some m' /\
    action m' = ACT_DEATH /\
    vx (pos m') = vx (pos mario_dead) /\ vz (pos m') = vz (pos mario_dead) /\
    ([ctrl_jump; ctrl_stick] <> [] ->
     vx (vel m') = 0 /\ vz (vel m') = 0 /\ fvel m' = 0 /\ MAX_FALL <= vy (vel m')).
Proof.
  assert (Ha : action mario_dead = ACT_DEATH) by reflexivity.
  split; [exact Ha|].
  exact (death_is_absorbing (H := scene_math) level_flat mario_dead
           [ctrl_jump; ctrl_stick] Ha).
Defined.

(** ** The invulnerability window and the star ledger *)

Lemma tick_timers_fields m :
  inv (tick_timers m) = (if (inv m >? 0)%Z then inv m - 1 else inv m)%Z /\
  hurt (tick_timers m) = (if (hurt m >? 0)%Z then hurt m - 1 else hurt m)%Z /\
  health (tick_timers m) = health m.
Proof.
  unfold tick_timers. cbv zeta.
  destruct (inv m >? 0)%Z; cbn [hurt with_inv];
    destruct (hurt m >? 0)%Z; repeat split.
Qed.

Lemma tick_timers_iter m k :
  (0 <= inv m)%Z -> (0 <= hurt m)%Z ->
  inv (Nat.iter k tick_timers m) = Z.max 0 (inv m - Z.of_nat k) /\
  hurt (Nat.iter k tick_timers m) = Z.max 0 (hurt m - Z.of_nat k) /\
  health (Nat.iter k tick_timers m) = health m.
Proof.
  intros Hi Hh. induction k as [|k IH].
  - change (Nat.iter 0 tick_timers m) with m. repeat split; lia.
  - rewrite Nat.iter_succ. destruct IH as (I1 & I2 & I3).
    destruct (tick_timers_fields (Nat.iter k tick_timers m)) as (F1 & F2 & F3).
    rewrite F1, F2, F3, I1, I2, I3.
    destruct (Z.gtb_spec (Z.max 0 (inv m - Z.of_nat k)) 0);
      destruct (Z.gtb_spec (Z.max 0 (hurt m - Z.of_nat k)) 0); repeat split; lia.
Qed.

(** X20.  The invulnerability window lasts exactly 60 countdowns.  After a
    damage call that was applied, [k] runs of the per-tick countdown leave
    the invulnerability timer at [max(0, 60 - k)] and the hurt timer at
    [max(0, 10 - k)] and do not touch the health; a further damage call is
    ignored while [k < 60] and is applied, clamped at 0, once [k >= 60]. *)
Theorem invulnerability_window (m : MarioState) (amt amt2 : Z) (k : nat) :
  (inv m <= 0)%Z ->
  let m1 := take_dmg amt m in
  let mk := Nat.iter k tick_timers m1 in
  inv mk = Z.max 0 (60 - Z.of_nat k) /\
  hurt mk = Z.max 0 (10 - Z.of_nat k) /\
  health mk = health m1 /\
  ((k < 60)%nat -> take_dmg amt2 mk = mk) /\
  ((60 <= k)%nat ->
   health (take_dmg amt2 mk) = Z.max 0 (health m1 - amt2) /\
   inv (take_dmg amt2 mk) = 60%Z).
Proof.
  intros Hinv. cbv zeta.
  assert (E1 : inv (take_dmg amt m) = 60%Z /\ hurt (take_dmg amt m) = 10%Z).
  { unfold take_dmg. destruct (Z.gtb_spec (inv m) 0); [lia|]. split; reflexivity. }
  destruct E1 as [E1 E2].
  destruct (tick_timers_iter (take_dmg amt m) k ltac:(lia) ltac:(lia)) as (I1 & I2 & I3).
  rewrite E1 in I1. rewrite E2 in I2.
  split; [exact I1|]. split; [exact I2|]. split; [exact I3|].
  set (mk := Nat.iter k tick_timers (take_dmg amt m)) in *.
  assert (Et : take_dmg amt2 mk
               = if (Z.max 0 (60 - Z.of_nat k) >? 0)%Z then mk
                 else with_inv 60%Z (with_hurt 10%Z
                        (with_health (Z.max 0 (health mk - amt2)) mk))).
  { unfold take_dmg at 1. rewrite I1. reflexivity. }
  rewrite Et. split; intros Hk.
  - destruct (Z.gtb_spec (Z.max 0 (60 - Z.of_nat k)) 0); [reflexivity | lia].
  - destruct (Z.gtb_spec (Z.max 0 (60 - Z.of_nat k)) 0); [lia|].
    cbn [health inv with_inv with_hurt with_health]. rewrite I3. split; reflexivity.
Qed.

Lemma invulnerability_window_witness :
  (inv mario_default <= 0)%Z /\
  (inv (Nat.iter 59 tick_timers (take_dmg 0x100 mario_default))
     = Z.max 0 (60 - Z.of_nat 59) /\
   ((59 < 60)%nat /\
    take_dmg 0x200 (Nat.iter 59 tick_timers (take_dmg 0x100 mario_default))
    = Nat.iter 59 tick_timers (take_dmg 0x100 mario_default))) /\
  (inv (Nat.iter 60 tick_timers (take_dmg 0x100 mario_default))
     = Z.max 0 (60 - Z.of_nat 60) /\
   ((60 <= 60)%nat /\
    health (take_dmg 0x200 (Nat.iter 60 tick_timers (take_dmg 0x100 mario_default)))
    = Z.max 0 (health (take_dmg 0x100 mario_default) - 0x200))).
Proof.
  assert (Hi : (inv mario_default <= 0)%Z) by (cbn; lia).
  assert (H59 : (59 < 60)%nat) by lia.
  assert (H60 : (60 <= 60)%nat) by lia.
  split; [exact Hi|]. split.
  - destruct (invulnerability_window mario_default 0x100 0x200 59 Hi)
      as (A & _ & _ & B & _).
    split; [exact A|]. split; [exact H59 | exact (B H59)].
  - destruct (invulnerability_window mario_default 0x100 0x200 60 Hi)
      as (A & _ & _ & _ & B).
    split; [exact A|]. split; [exact H60 | exact (proj1 (B H60))].
Defined.

(** *** Stars *)

Lemma held_insert (M : gmap Z (gset Z)) (l : Z) (S : gset Z) :
  map_fold (fun (_ : Z) (s : gset Z) (acc : Z) => (acc + Z.of_nat (size s))%Z) 0%Z
           (<[l := S]> M)
  = (map_fold (fun (_ : Z) (s : gset Z) (acc : Z) => (acc + Z.of_nat (size s))%Z) 0%Z M
     - Z.of_nat (size (default (∅ : gset Z) (M !! l))) + Z.of_nat (size S))%Z.
Proof.
  destruct (M !! l) as [S0|] eqn:E; cbn [default].
  - rewrite <- insert_delete_eq.
    rewrite map_fold_insert_L; [|intros; lia | apply lookup_delete_eq].
    rewrite (map_fold_delete_L _ _ l S0 M); [cbv beta; unfold id; lia | intros; lia | exact E].
  - rewrite map_fold_insert_L; [|intros; lia | exact E].
    rewrite size_empty. cbv beta. lia.
Qed.

Lemma get_star_spec l s m :
  let S := default (∅ : gset Z) (lvl_stars m !! l) in
  (s ∈ S /\ get_star l s m = m) \/
  (~ s ∈ S /\
   get_star l s m
   = with_stars (stars m + 1)%Z (with_lvl_stars (<[l := S ∪ {[s]}]> (lvl_stars m)) m)).
Proof.
  cbv zeta. unfold get_star.
  destruct (lvl_stars m !! l) as [S|] eqn:E; cbn [default]; cbv zeta.
  - rewrite E. cbn [default]. destruct (decide (s ∈ S)) as [Hin|Hin].
    + left. split; [exact Hin|]. rewrite bool_decide_eq_true_2 by exact Hin.
      reflexivity.
    + right. split; [exact Hin|]. rewrite bool_decide_eq_false_2 by exact Hin.
      reflexivity.
  - cbn [lvl_stars with_lvl_stars]. rewrite lookup_insert_eq. cbn [default].
    right. split; [set_solver|].
    rewrite bool_decide_eq_false_2 by set_solver.
    cbn. rewrite insert_insert_eq. reflexivity.
Qed.

Lemma has_star_get_star l s m : has_star l s (get_star l s m) = true.
Proof.
  unfold has_star. apply bool_decide_eq_true.
  destruct (get_star_spec l s m) as [[Hin ->] | [_ ->]]; [exact Hin|].
  cbn [lvl_stars with_stars with_lvl_stars]. rewrite lookup_insert_eq. cbn [default].
  set_solver.
Qed.

(** X21.  [get_star] and [has_star] agree.  After [get_star(l, s)] the
    star [(l, s)] is held; every other star is held exactly when it was
    before; the star counter goes up by one when the star was not held and
    stays when it was; the counter moves together with the number of stars
    in the ledger [lvl_stars]; and a second [get_star(l, s)] changes
    nothing. *)
Theorem get_star_has_star (l s l' s' : Z) (m : MarioState) :
  has_star l s (get_star l s m) = true /\
  ((l', s') <> (l, s) -> has_star l' s' (get_star l s m) = has_star l' s' m) /\
  stars (get_star l s m) = (stars m + (if has_star l s m then 0 else 1))%Z /\
  (stars (get_star l s m) - held_stars (get_star l s m) = stars m - held_stars m)%Z /\
  get_star l s (get_star l s m) = get_star l s m.
Proof.
  split; [apply has_star_get_star|]. split; [|split; [|split]].
  - intros Hne. unfold has_star.
    destruct (get_star_spec l s m) as [[_ ->] | [_ ->]]; [reflexivity|].
    cbn [lvl_stars with_stars with_lvl_stars].
    destruct (decide (l' = l)) as [->|Hl].
    + rewrite lookup_insert_eq. cbn [default].
      assert (Hs : s' <> s) by congruence.
      apply bool_decide_ext. unfold id. rewrite elem_of_union, elem_of_singleton. tauto.
    + rewrite lookup_insert_ne by congruence. reflexivity.
  - unfold has_star.
    destruct (get_star_spec l s m) as [[Hin ->] | [Hn ->]].
    + rewrite bool_decide_eq_true_2 by exact Hin. lia.
    + rewrite bool_decide_eq_false_2 by exact Hn. reflexivity.
  - unfold held_stars.
    destruct (get_star_spec l s m) as [[Hin ->] | [Hn ->]]; [reflexivity|].
    cbn [lvl_stars stars with_stars with_lvl_stars]. rewrite held_insert.
    rewrite size_union by set_solver. rewrite size_singleton. lia.
  - destruct (get_star_spec l s (get_star l s m)) as [[_ E] | [Hn _]]; [exact E|].
    exfalso. apply Hn.
    pose proof (has_star_get_star l s m) as Hh. unfold has_star in Hh.
    apply bool_decide_eq_true in Hh. exact Hh.
Qed.

(** Two different stars of one level, taken in turn, are both counted. *)
Example get_star_twice :
  stars (get_star 2 1 (get_star 2 0 mario_default)) = 2%Z /\
  held_stars (get_star 2 1 (get_star 2 0 mario_default)) = 2%Z /\
  stars (get_star 2 0 (get_star 2 0 mario_default)) = 1%Z.
Proof. repeat split; vm_compute; reflexivity. Qed.

(** ** Objects: what update and interaction can and cannot do *)

Lemma obj_evolves_refl o : obj_evolves o o.
Proof. unfold obj_evolves. repeat split; auto; lia. Qed.

Lemma obj_evolves_trans o1 o2 o3 :
  obj_evolves o1 o2 -> obj_evolves o2 o3 -> obj_evolves o1 o3.
Proof.
  unfold obj_evolves.
  intros (A1 & A2 & A3 & A4 & A5 & A6 & A7 & A8 & A9 & A10)
         (B1 & B2 & B3 & B4 & B5 & B6 & B7 & B8 & B9 & B10).
  repeat split; try congruence; auto; lia.
Qed.

Section ObjectFacts.
Context `{MathLib}.

Lemma update_obj_kept mario frame o :
  let o' := update_obj mario frame o in
  o_type o' = o_type o /\ o_home o' = o_home o /\ o_irange o' = o_irange o /\
  o_dmg o' = o_dmg o /\ o_coins o' = o_coins o /\ o_star_id o' = o_star_id o /\
  o_warp o' = o_warp o /\ o_active o' = o_active o /\
  o_collected o' = o_collected o /\ o_hp o' = o_hp o.
Proof.
  unfold update_obj, chase_vec. cbv zeta.
  destruct (o_active o) eqn:Ea; cbn [negb]; [|repeat split; assumption].
  destruct (o_type o) eqn:Et; cbv beta iota zeta;
    repeat match goal with |- context [if ?b then _ else _] => destruct b end;
    repeat split; cbn; first [reflexivity | assumption].
Qed.

Lemma update_obj_evolves mario frame o : obj_evolves o (update_obj mario frame o).
Proof.
  destruct (update_obj_kept mario frame o) as (A1 & A2 & A3 & A4 & A5 & A6 & A7 & A8 & A9 & A10).
  unfold obj_evolves. rewrite A1, A2, A3, A4, A5, A6, A7, A8, A9, A10.
  repeat split; auto; lia.
Qed.

Lemma interact_body_evolves cur_lvl ctrl mario o :
  obj_evolves o (interact_body cur_lvl ctrl mario o).1.2 /\
  o_pos (interact_body cur_lvl ctrl mario o).1.2 = o_pos o.
Proof.
  unfold interact_body. cbv zeta.
  destruct (interactable mario o); cbn [negb]; [|split; [apply obj_evolves_refl|reflexivity]].
  unfold obj_evolves.
  destruct (o_type o) eqn:Et;
    repeat match goal with |- context [if ?b then _ else _] => destruct b eqn:? end;
    cbn; repeat split; auto; try discriminate; try lia.
Qed.


Lemma interact_loop_evolves cur_lvl ctrl objs :
  forall mario,
    Forall2 (fun o o' => obj_evolves o o' /\ o_pos o' = o_pos o) objs
            (interact_loop cur_lvl ctrl mario objs).1.2.
Proof.
  induction objs as [|o rest IH]; intros mario; cbn [interact_loop]; [constructor|].
  pose proof (interact_body_evolves cur_lvl ctrl mario o) as He.
  destruct (interact_body cur_lvl ctrl mario o) as [[m1 o1] [w|]]; cbn [fst snd] in He.
  - cbn [fst snd]. constructor; [exact He|].
    clear. induction rest; constructor; [split; [apply obj_evolves_refl | reflexivity] | assumption].
  - specialize (IH m1).
    destruct (interact_loop cur_lvl ctrl m1 rest) as [[m2 rest2] r]. cbn [fst snd] in *.
    constructor; assumption.
Qed.

(** X22.  One logic tick on the object list, [update_objs] followed by
    [interact_objs], keeps the list in place object by object: the length
    and the order are unchanged, and each object keeps its kind, home,
    range, damage factor, coin value, star id and warp target, is never
    switched back on, never loses its collected flag, and never gains hit
    points.  Interaction by itself does not move any object. *)
Theorem objs_tick_shape (cur_lvl : Z) (ctrl : Controller) (frame : Z)
  (mario : MarioState) (objs : list Obj) :
  Forall2 obj_evolves objs (objs_tick cur_lvl ctrl frame mario objs).1.2 /\
  Forall2 (fun o o' => o_pos o' = o_pos o) objs
          (interact_objs cur_lvl ctrl objs mario).1.2.
Proof.
  split.
  - unfold objs_tick, interact_objs, update_objs.
    pose proof (interact_loop_evolves cur_lvl ctrl (update_obj mario frame <$> objs) mario)
      as Hl.
    apply Forall2_fmap_l in Hl.
    eapply Forall2_impl; [exact Hl|]. intros o o' [He _].
    exact (obj_evolves_trans _ _ _ (update_obj_evolves mario frame o) He).
  - unfold interact_objs.
    eapply Forall2_impl; [apply interact_loop_evolves|]. intros o o' [_ Hp]. exact Hp.
Qed.

(** *** Health and counters across interaction *)

Lemma effect_same D m m' :
  health m' = health m -> inv m' = inv m -> coins m' = coins m ->
  lives m' = lives m -> stars m' = stars m -> lvl_stars m' = lvl_stars m ->
  health_ok m -> interact_effect D m m'.
Proof.
  unfold interact_effect, health_ok, held_stars. intros -> -> -> -> -> -> Hh.
  split; [exact Hh|]. repeat split; try lia.
  all: left; split; [reflexivity | lia].
Qed.

Lemma effect_dmg amt a m :
  (0 <= amt)%Z -> health_ok m -> interact_effect amt m (set_act a (take_dmg amt m)).
Proof.
  unfold interact_effect, health_ok, held_stars, take_dmg. intros Ha Hh.
  destruct (Z.gtb_spec (inv m) 0); cbn; (split; [lia|]); repeat split; try lia.
  all: first [left; split; [reflexivity | lia] | right; repeat split; lia].
Qed.

Lemma effect_coin D c m :
  (0 <= c)%Z -> health_ok m ->
  interact_effect D m (heal (64 * c) (with_coins (coins m + c) m)).
Proof.
  unfold interact_effect, health_ok, held_stars, heal. intros Hc Hh. cbn.
  split; [lia|]. repeat split; try lia.
  all: left; split; [reflexivity | lia].
Qed.

Lemma effect_coin1 D m m1 :
  health m1 = health m -> inv m1 = inv m -> coins m1 = coins m ->
  lives m1 = lives m -> stars m1 = stars m -> lvl_stars m1 = lvl_stars m ->
  health_ok m -> interact_effect D m (with_coins (coins m1 + 1) m1).
Proof.
  unfold interact_effect, health_ok, held_stars. intros E1 E2 E3 E4 E5 E6 Hh. cbn.
  rewrite E1, E2, E3, E4, E5, E6.
  split; [exact Hh|]. repeat split; try lia.
  all: left; split; [reflexivity | lia].
Qed.

Lemma effect_life D m :
  health_ok m -> interact_effect D m (with_lives (lives m + 1) m).
Proof.
  unfold interact_effect, health_ok, held_stars. intros Hh. cbn.
  split; [exact Hh|]. repeat split; try lia.
  all: left; split; [reflexivity | lia].
Qed.

Lemma get_star_kept l s m :
  health (get_star l s m) = health m /\ inv (get_star l s m) = inv m /\
  coins (get_star l s m) = coins m /\ lives (get_star l s m) = lives m /\
  (stars m <= stars (get_star l s m))%Z /\
  (stars (get_star l s m) - held_stars (get_star l s m) = stars m - held_stars m)%Z.
Proof.
  unfold held_stars.
  destruct (get_star_spec l s m) as [[Hin ->] | [Hn ->]]; [repeat split; lia|].
  cbn [health inv coins lives lvl_stars stars with_stars with_lvl_stars].
  rewrite held_insert. rewrite size_union by set_solver. rewrite size_singleton.
  repeat split; lia.
Qed.

Lemma effect_star D a l s m :
  health_ok m -> interact_effect D m (set_act a (get_star l s m)).
Proof.
  destruct (get_star_kept l s m) as (E1 & E2 & E3 & E4 & E5 & E6).
  unfold interact_effect, health_ok, held_stars in *. intros Hh. cbn.
  rewrite E1, E2, E3, E4.
  split; [exact Hh|]. repeat split; try lia.
  all: left; split; [reflexivity | lia].
Qed.

Lemma interact_body_effect cur_lvl ctrl mario o :
  obj_sane o -> health_ok mario ->
  interact_effect (obj_hit o) mario (interact_body cur_lvl ctrl mario o).1.1 /\
  (0 <= obj_hit o)%Z.
Proof.
  intros [Hc Hd] Hh. unfold interact_body, obj_hit. cbv zeta.
  destruct (interactable mario o); cbn [negb];
    [|split; [apply effect_same; auto | destruct (o_type o); lia]].
  destruct (o_type o) eqn:Et;
    repeat match goal with |- context [if ?b then _ else _] => destruct b end;
    cbn [fst snd]; (split; [|lia]);
    first [ apply effect_dmg; [lia | exact Hh]
          | apply effect_coin; assumption
          | apply effect_star; exact Hh
          | apply effect_life; exact Hh
          | apply effect_coin1; auto; reflexivity
          | apply effect_same; auto; reflexivity ].
Qed.

Lemma worst_hit_nonneg objs : (0 <= worst_hit objs)%Z.
Proof. unfold worst_hit. induction objs; cbn; lia. Qed.

Lemma interact_loop_effect cur_lvl ctrl objs :
  Forall obj_sane objs -> forall mario, health_ok mario ->
  interact_effect (worst_hit objs) mario (interact_loop cur_lvl ctrl mario objs).1.1.
Proof.
  induction 1 as [|o rest Ho Hrest IH]; intros mario Hh; cbn [interact_loop].
  - cbn [fst]. apply effect_same; auto.
  - destruct (interact_body_effect cur_lvl ctrl mario o Ho Hh) as [Hb Hpos].
    pose proof (worst_hit_nonneg rest) as Hw.
    assert (Hmax : worst_hit (o :: rest) = Z.max (obj_hit o) (worst_hit rest))
      by reflexivity.
    destruct (interact_body cur_lvl ctrl mario o) as [[m1 o1] [w|]]; cbn [fst snd] in *.
    + unfold interact_effect in *.
      destruct Hb as (B1 & B2 & B3 & B4 & B5 & B6).
      split; [exact B1|]. repeat split; try lia.
      all: destruct B6 as [[? ?] | (? & ? & ?)];
        [left; split; lia | right; repeat split; lia].
    + assert (H1 : health_ok m1) by apply Hb.
      specialize (IH m1 H1).
      destruct (interact_loop cur_lvl ctrl m1 rest) as [[m2 rest2] r]. cbn [fst snd] in *.
      unfold interact_effect in *.
      destruct Hb as (B1 & B2 & B3 & B4 & B5 & B6).
      destruct IH as (I1 & I2 & I3 & I4 & I5 & I6).
      split; [exact I1|]. repeat split; try lia.
      all: destruct B6 as [[? ?] | (? & ? & ?)]; destruct I6 as [[? ?] | (? & ? & ?)];
        first [left; split; lia | right; repeat split; lia].
Qed.

(** X23.  Interaction keeps the health in range and the counters honest.
    When every object has a non-negative coin value and damage factor and
    the health is in [[0, 0x880]], a run of [interact_objs] leaves the
    health in [[0, 0x880]]; the coin, life and star counters do not go
    down; and the star counter changes by exactly as much as the number of
    stars in the ledger [lvl_stars]. *)
Theorem interact_objs_health (cur_lvl : Z) (ctrl : Controller) (objs : list Obj)
  (mario : MarioState) :
  Forall obj_sane objs -> health_ok mario ->
  let m' := (interact_objs cur_lvl ctrl objs mario).1.1 in
  health_ok m' /\
  (coins mario <= coins m')%Z /\ (lives mario <= lives m')%Z /\
  (stars mario <= stars m')%Z /\
  (stars m' - held_stars m' = stars mario - held_stars mario)%Z.
Proof.
  intros Ho Hh. cbv zeta. unfold interact_objs.
  destruct (interact_loop_effect cur_lvl ctrl objs Ho mario Hh)
    as (A & B & C & D & E & _).
  auto.
Qed.

(** X24.  One run of interaction applies damage at most once.  Under the
    same conditions, however many enemies touch the character in the run,
    the health drops by no more than the largest single amount any one of
    them deals; and with the invulnerability timer positive at the start it
    does not drop at all. *)
Theorem interact_objs_one_hit (cur_lvl : Z) (ctrl : Controller) (objs : list Obj)
  (mario : MarioState) :
  Forall obj_sane objs -> health_ok mario ->
  let m' := (interact_objs cur_lvl ctrl objs mario).1.1 in
  (health mario - worst_hit objs <= health m')%Z /\
  ((0 < inv mario)%Z -> (health mario <= health m')%Z /\ inv m' = inv mario) /\
  (inv m' = inv mario \/ inv m' = 60%Z).
Proof.
  intros Ho Hh. cbv zeta. unfold interact_objs.
  pose proof (worst_hit_nonneg objs) as Hw.
  destruct (interact_loop_effect cur_lvl ctrl objs Ho mario Hh)
    as (_ & _ & _ & _ & _ & [[A B] | (A & B & C)]).
  - split; [lia|]. split; [intros _; split; [exact B | exact A]|]. left. exact A.
  - split; [exact C|]. split; [intros; lia|]. right. exact B.
Qed.

End ObjectFacts.

Lemma interact_objs_health_witness :
  Forall obj_sane [coin_here; goomba_here; star_here] /\ health_ok mario_default /\
  (health_ok (interact_objs (H := scene_math) 0 ctrl_default
                [coin_here; goomba_here; star_here] mario_default).1.1 /\
   (coins mario_default
    <= coins (interact_objs (H := scene_math) 0 ctrl_default
                [coin_here; goomba_here; star_here] mario_default).1.1)%Z /\
   (lives mario_default
    <= lives (interact_objs (H := scene_math) 0 ctrl_default
                [coin_here; goomba_here; star_here] mario_default).1.1)%Z /\
   (stars mario_default
    <= stars (interact_objs (H := scene_math) 0 ctrl_default
                [coin_here; goomba_here; star_here] mario_default).1.1)%Z /\
   (stars (interact_objs (H := scene_math) 0 ctrl_default
             [coin_here; goomba_here; star_here] mario_default).1.1
    - held_stars (interact_objs (H := scene_math) 0 ctrl_default
                    [coin_here; goomba_here; star_here] mario_default).1.1
    = stars mario_default - held_stars mario_default)%Z).
Proof.
  assert (Ho : Forall obj_sane [coin_here; goomba_here; star_here])
    by (repeat constructor; cbn; lia).
  assert (Hh : health_ok mario_default) by (unfold health_ok; cbn; lia).
  split; [exact Ho|]. split; [exact Hh|].
  exact (interact_objs_health (H := scene_math) 0 ctrl_default
           [coin_here; goomba_here; star_here] mario_default Ho Hh).
Defined.

Lemma interact_objs_one_hit_witness :
  Forall obj_sane [goomba_here; chomp_here] /\ health_ok mario_default /\
  ((health mario_default - worst_hit [goomba_here; chomp_here]
    <= health (interact_objs (H := scene_math) 0 ctrl_default
                 [goomba_here; chomp_here] mario_default).1.1)%Z /\
   ((0 < inv mario_default)%Z ->
    (health mario_default
     <= health (interact_objs (H := scene_math) 0 ctrl_default
                  [goomba_here; chomp_here] mario_default).1.1)%Z /\
    inv (interact_objs (H := scene_math) 0 ctrl_default
           [goomba_here; chomp_here] mario_default).1.1 = inv mario_default) /\
   (inv (interact_objs (H := scene_math) 0 ctrl_default
           [goomba_here; chomp_here] mario_default).1.1 = inv mario_default \/
    inv (interact_objs (H := scene_math) 0 ctrl_default
           [goomba_here; chomp_here] mario_default).1.1 = 60%Z)).
Proof.
  assert (Ho : Forall obj_sane [goomba_here; chomp_here])
    by (repeat constructor; cbn; lia).
  assert (Hh : health_ok mario_default) by (unfold health_ok; cbn; lia).
  split; [exact Ho|]. split; [exact Hh|].
  exact (interact_objs_one_hit (H := scene_math) 0 ctrl_default
           [goomba_here; chomp_here] mario_default Ho Hh).
Defined.

(** A goomba and a chain chomp touched in the same run: only the goomba's
    [0x100] is taken, the chomp's [0x300] is not. *)
Example two_enemies_one_hit :
  health (interact_objs (H := scene_math) 0 ctrl_default [goomba_here; chomp_here]
            mario_default).1.1 = (0x880 - 0x100)%Z /\
  worst_hit [goomba_here; chomp_here] = 0x300%Z.
Proof. split; vm_compute; reflexivity. Qed.

(** ** Spawners and particles *)

(** X25.  Every spawner returns an object that is switched on, not
    collected, with at least one hit point, no flash running, and a
    non-negative coin value and damage factor; a coin is worth 1, 2 or 5 by
    its kind, and [sp_ring] and [sp_line] return exactly [n] such coins
    (none for [n <= 0]). *)
Theorem spawners_fresh `{MathLib} (x y z r h bob dx dy dz : Q) (t : ObjType)
  (sid tgt n : Z) (bobs : Z -> Q) :
  Forall fresh_obj
    [sp_coin x y z t bob; sp_star x y z sid bob; sp_goomba x y z; sp_bobomb x y z;
     sp_bully x y z; sp_boo x y z; sp_piranha x y z; sp_koopa x y z; sp_amp x y z r;
     sp_thwomp x y z; sp_chomp x y z; sp_1up x y z bob; sp_tree x y z h;
     sp_pipe x y z tgt] /\
  o_coins (sp_coin x y z t bob)
    = match t with COIN_RED => 2 | COIN_BLUE => 5 | _ => 1 end%Z /\
  Forall fresh_obj (sp_ring x y z r n bobs) /\
  Forall fresh_obj (sp_line x y z dx dy dz n bobs) /\
  length (sp_ring x y z r n bobs) = Z.to_nat n /\
  length (sp_line x y z dx dy dz n bobs) = Z.to_nat n.
Proof.
  assert (Hcoin : forall x y z t bob, fresh_obj (sp_coin x y z t bob)).
  { intros. unfold fresh_obj, obj_sane. cbn. destruct t0; repeat split; lia. }
  split; [|split; [reflexivity|split; [|split; [|split]]]].
  - repeat constructor; try apply Hcoin; cbn; lia.
  - unfold sp_ring. apply Forall_fmap, Forall_forall. intros i _. apply Hcoin.
  - unfold sp_line. apply Forall_fmap, Forall_forall. intros i _. apply Hcoin.
  - unfold sp_ring. rewrite length_fmap. apply length_seqZ.
  - unfold sp_line. rewrite length_fmap. apply length_seqZ.
Qed.

(** *** Particles *)

Lemma filter_fmap_comm {A B : Type} (f : A -> B) (P : B -> Prop)
  `{forall x, Decision (P x)} (l : list A) :
  filter P (f <$> l) = f <$> filter (fun x => P (f x)) l.
Proof.
  induction l as [|a l IH]; [reflexivity|].
  cbn [fmap list_fmap]. rewrite !filter_cons, IH.
  destruct (decide (P (f a))); reflexivity.
Qed.

Lemma particles_update_filter ps :
  particles_update ps
  = filter (fun p => (0 < p_life p)%Z) (particle_step <$> ps).
Proof.
  induction ps as [|p ps IH]; [reflexivity|].
  cbn [particles_update fmap list_fmap]. cbv zeta.
  rewrite filter_cons. rewrite IH.
  destruct (Z.gtb_spec (p_life (particle_step p)) 0);
    destruct (decide (0 < p_life (particle_step p))%Z); try lia; reflexivity.
Qed.

Lemma particle_step_life k p :
  p_life (Nat.iter k particle_step p) = (p_life p - Z.of_nat k)%Z.
Proof.
  induction k as [|k IH]; [cbn; lia|].
  rewrite Nat.iter_succ. cbn [p_life particle_step]. rewrite IH. lia.
Qed.

Lemma particles_update_iter n ps :
  Nat.iter (S n) particles_update ps
  = Nat.iter (S n) particle_step <$> filter (fun p => (Z.of_nat (S n) < p_life p)%Z) ps.
Proof.
  induction n as [|n IH].
  - change (Nat.iter 1 particles_update ps) with (particles_update ps).
    rewrite particles_update_filter, filter_fmap_comm.
    f_equal. apply list_filter_iff. intros p. cbn. lia.
  - rewrite Nat.iter_succ, IH, particles_update_filter.
    rewrite <- list_fmap_compose, filter_fmap_comm, list_filter_filter.
    f_equal. apply list_filter_iff. intros p. unfold compose.
    change (particle_step (Nat.iter (S n) particle_step p))
      with (Nat.iter (S (S n)) particle_step p).
    rewrite particle_step_life. lia.
Qed.

(** X26.  Particles live for exactly their lifetime.  After [n + 1]
    updates the particle list is, in the original order, the particles
    whose lifetime was greater than [n + 1], each moved by [n + 1] steps
    with its lifetime lowered by [n + 1]; so every particle in the list has
    a positive lifetime, and a batch emitted with lifetime [l] is gone after
    [l] updates. *)
Theorem particles_lifetime (ps : list Particle) (n : nat) (p0 : Vec3f)
  (vs : list Vec3f) (c : Color) (sz : Q) :
  Nat.iter (S n) particles_update ps
    = Nat.iter (S n) particle_step
      <$> filter (fun p => (Z.of_nat (S n) < p_life p)%Z) ps /\
  Forall (fun p => (0 < p_life p)%Z) (Nat.iter (S n) particles_update ps) /\
  (forall p, p_life (Nat.iter (S n) particle_step p) = (p_life p - Z.of_nat (S n))%Z) /\
  (length (Nat.iter (S n) particles_update ps) <= length ps)%nat /\
  Nat.iter (S n) particles_update (particles_emit [] p0 vs c (Z.of_nat (S n)) sz) = [].
Proof.
  split; [apply particles_update_iter|]. split; [|split; [|split]].
  - rewrite particles_update_iter. apply Forall_fmap, Forall_forall.
    intros p Hp. apply list_elem_of_filter in Hp as [Hp _]. unfold compose.
    rewrite particle_step_life. lia.
  - intros p. apply particle_step_life.
  - rewrite particles_update_iter, length_fmap. apply length_filter.
  - rewrite particles_update_iter. unfold particles_emit. cbn [app].
    induction vs as [|v vs IH]; [reflexivity|].
    cbn [fmap list_fmap]. rewrite filter_cons.
    destruct (decide _) as [Hlt|_]; [cbn in Hlt; lia|]. exact IH.
Qed.

(** ** Renderer front end, fog and the health meter *)

Lemma cc_color_ok (c : Color) : color_ok (_cc c).
Proof. destruct c as [[r g] b]. unfold color_ok, _cc. cbn. lia. Qed.

Section RenderFacts.
Context `{MathLib}.

Lemma project_vert_cases cam cyaw pv az inf v :
  project_vert cam cyaw (pv, az, inf) v = Some (pv, az, inf) \/
  exists pt rz, 10 < rz /\
    project_vert cam cyaw (pv, az, inf) v = Some (pv ++ [pt], az + rz, true).
Proof.
  unfold project_vert.
  destruct (rot_pt v (vx cam) (vy cam) (vz cam) (- cyaw)) as [[rx ry] rz].
  destruct (Qgtb rz 10) eqn:E; [|left; reflexivity].
  apply Qgtb_true in E. right. unfold py_div.
  destruct (Qeq_bool rz 0) eqn:E0; [apply Qeq_bool_iff in E0; lra|].
  cbn [mbind option_bind]. eexists. exists rz. split; [exact E | reflexivity].
Qed.

Lemma project_verts_spec cam cyaw vs :
  forall pv az inf,
  exists pts az',
    project_verts cam cyaw (pv, az, inf) vs
      = Some (pv ++ pts, az', inf || negb (length pts =? 0)%nat) /\
    (length pts <= length vs)%nat /\
    az + 10 * inject_Z (Z.of_nat (length pts)) <= az' /\
    ((0 < length pts)%nat -> az + 10 * inject_Z (Z.of_nat (length pts)) < az').
Proof.
  induction vs as [|v vs IH]; intros pv az inf.
  - exists [], az. cbn [project_verts length Nat.eqb negb]. rewrite app_nil_r, orb_false_r.
    split; [reflexivity|]. split; [lia|]. change (inject_Z (Z.of_nat 0)) with 0.
    split; [lra | intros; lia].
  - cbn [project_verts].
    destruct (project_vert_cases cam cyaw pv az inf v) as [-> | (pt & rz & Hrz & ->)];
      cbn [mbind option_bind].
    + destruct (IH pv az inf) as (pts & az' & E & Hl & Hle & Hlt).
      exists pts, az'. split; [exact E|]. split; [cbn [length]; lia|]. auto.
    + destruct (IH (pv ++ [pt]) (az + rz) true) as (pts & az' & E & Hl & Hle & Hlt).
      exists (pt :: pts), az'. rewrite E. rewrite <- app_assoc. cbn [app length Nat.eqb negb].
      rewrite orb_true_r. split; [reflexivity|]. split; [lia|].
      pose proof (inject_Z_succ_nat (length pts)) as HS.
      set (N := inject_Z (Z.of_nat (length pts))) in *.
      set (N' := inject_Z (Z.of_nat (S (length pts)))) in *.
      split; [|intros _]; lra.
Qed.

Lemma face_poly_spec cam cyaw sky rt sf :
  exists r, face_poly cam cyaw sky (rt, sf) = Some r /\
    match r with
    | Some p => poly_visible p /\ p.2 = rt /\ (length p.1.2 <= length (verts sf))%nat
    | None => True
    end.
Proof.
  unfold face_poly.
  destruct (project_verts_spec cam cyaw (verts sf) [] 0 false)
    as (pts & az' & -> & Hl & Hle & Hlt).
  cbn [mbind option_bind app orb].
  destruct (Nat.leb_spec 3 (length pts)) as [H3|H3].
  - destruct (length pts =? 0)%nat eqn:E0; [apply Nat.eqb_eq in E0; lia|].
    cbn [negb andb]. unfold py_div.
    assert (Hn : 0 < inject_Z (Z.of_nat (length (verts sf)))).
    { change 0 with (inject_Z 0). rewrite <- Zlt_Qlt. lia. }
    assert (Hp : 0 < inject_Z (Z.of_nat (length pts))).
    { change 0 with (inject_Z 0). rewrite <- Zlt_Qlt. lia. }
    destruct (Qeq_bool _ 0) eqn:Ez; [apply Qeq_bool_iff in Ez; lra|].
    cbn [mbind option_bind]. eexists. split; [reflexivity|].
    split; [|split; [reflexivity | exact Hl]].
    split; [exact H3|]. cbn [poly_depth fst snd].
    apply Qlt_shift_div_l; [exact Hn|]. specialize (Hlt ltac:(lia)). lra.
  - rewrite andb_false_r. exists None. split; [reflexivity | exact I].
Qed.

Lemma build_polys_spec cam cyaw sky rlist :
  exists polys, build_polys cam cyaw sky rlist = Some polys /\
    Forall poly_visible polys /\ (length polys <= length rlist)%nat.
Proof.
  induction rlist as [|[rt sf] rest IH].
  - exists []. split; [reflexivity|]. split; [constructor | cbn; lia].
  - cbn [build_polys].
    destruct (face_poly_spec cam cyaw sky rt sf) as (r & -> & Hr).
    destruct IH as (polys & -> & Hv & Hl). cbn [mbind option_bind].
    destruct r as [p|].
    + exists (p :: polys). split; [reflexivity|].
      split; [constructor; [apply Hr | exact Hv] | cbn [length]; lia].
    + exists polys. split; [reflexivity|]. split; [exact Hv | cbn [length]; lia].
Qed.

Lemma length_render_draw polys :
  (length (render_draw polys) <= 2 * length polys)%nat.
Proof.
  unfold render_draw.
  assert (Hp : render_order polys ≡ₚ polys)
    by apply (py_sort_stable poly_depth true polys).
  rewrite <- (Permutation_length Hp). clear Hp.
  generalize (render_order polys) as l.
  induction l as [|p l IH]; [cbn; lia|].
  change (flat_map draw_poly (p :: l)) with (draw_poly p ++ flat_map draw_poly l).
  rewrite length_app. destruct p as [[[z col] pts] rt].
  assert (length (draw_poly (z, col, pts, rt)) <= 2)%nat.
  { cbn. destruct (Qltb z 2000 && negb (is_shadow rt)); cbn; lia. }
  cbn [length]. lia.
Qed.

(** X27.  The renderer never raises and never draws a degenerate face.
    For every scene, camera and frame, [render] returns: the two divisions
    of its projection loop are never by zero.  Every polygon it keeps has at
    least three projected points and a positive depth key, there is at most
    one polygon per face of the face list, every polygon is filled exactly
    once with a colour whose components are in [[0, 255]], and at most one
    outline is drawn on top of each fill. *)
Theorem render_total (surfs : list Surface) (objs : list Obj) (ps : list Particle)
  (cur_lvl : Z) (mario : MarioState) (cam : Vec3f) (cyaw : Q) (frame : Z) :
  exists polys,
    build_polys cam cyaw (li_sky (LI_get cur_lvl))
                (render_list surfs objs ps mario frame) = Some polys /\
    render surfs objs ps cur_lvl mario cam cyaw frame
      = Some (li_sky (LI_get cur_lvl), render_draw polys) /\
    Forall poly_visible polys /\
    (length polys <= length (render_list surfs objs ps mario frame))%nat /\
    length (fills (render_draw polys)) = length polys /\
    Forall (fun f => color_ok f.1 /\ (3 <= length f.2)%nat) (fills (render_draw polys)) /\
    (length (render_draw polys) <= 2 * length polys)%nat.
Proof.
  destruct (build_polys_spec cam cyaw (li_sky (LI_get cur_lvl))
              (render_list surfs objs ps mario frame)) as (polys & E & Hv & Hl).
  exists polys. split; [exact E|]. split.
  { unfold render. cbv zeta. rewrite E. reflexivity. }
  split; [exact Hv|]. split; [exact Hl|].
  assert (Hp : render_order polys ≡ₚ polys)
    by apply (py_sort_stable poly_depth true polys).
  rewrite fills_render_draw.
  split; [rewrite length_fmap; apply (Permutation_length Hp)|].
  split; [|apply length_render_draw].
  apply Forall_fmap. rewrite Hp.
  eapply Forall_impl; [exact Hv|]. intros p [H3 _]. unfold compose. cbn [fst snd].
  split; [apply cc_color_ok | exact H3].
Qed.

(** *** Fog *)





(** *** The health meter *)

Lemma hud_wedge_length w i :
  length (hud_wedge w i) = if (i <? w)%Z then 1%nat else 0%nat.
Proof. unfold hud_wedge. cbv zeta. destruct (i <? w)%Z; reflexivity. Qed.

Lemma hud_wedge_shape w i :
  Forall (fun cmd => exists pts,
            cmd = DrawFill (if (w >? 2)%Z then (80, 200, 80)%Z else (200, 80, 80)%Z) pts /\
            length pts = 4%nat) (hud_wedge w i).
Proof.
  unfold hud_wedge. cbv zeta. destruct (i <? w)%Z; constructor; [|constructor].
  eexists. split; reflexivity.
Qed.

(** X29.  The health meter shows the wedge count.  [draw_hud] fills one
    four-point polygon for each of the first [min(8, wedges)] eighths of the
    meter, all green when the count is above 2 and all red otherwise; with
    the health in [[0, 0x880]] the count is the health divided by 256,
    rounded down, so the meter shows 0 to 8 wedges. *)
Theorem hud_wedges_count (mario : MarioState) :
  length (hud_wedges mario) = Z.to_nat (Z.min 8 (wedges mario)) /\
  Forall (fun cmd => exists pts,
            cmd = DrawFill (if (wedges mario >? 2)%Z then (80, 200, 80)%Z
                            else (200, 80, 80)%Z) pts /\
            length pts = 4%nat) (hud_wedges mario) /\
  (health_ok mario ->
   wedges mario = (health mario / 256)%Z /\
   length (hud_wedges mario) = Z.to_nat (health mario / 256)).
Proof.
  assert (Hw : (0 <= wedges mario)%Z).
  { unfold wedges. change 0xF%Z with (Z.ones 4). rewrite Z.land_ones by lia.
    apply Z.mod_pos_bound. lia. }
  assert (Hlen : length (hud_wedges mario) = Z.to_nat (Z.min 8 (wedges mario))).
  { unfold hud_wedges. set (w := wedges mario) in *.
    change (seqZ 0 8) with [0; 1; 2; 3; 4; 5; 6; 7]%Z.
    cbn [flat_map]. rewrite !length_app, !hud_wedge_length. cbn [length].
    destruct (Z.ltb_spec 0 w); destruct (Z.ltb_spec 1 w); try lia;
      destruct (Z.ltb_spec 2 w); try lia; destruct (Z.ltb_spec 3 w); try lia;
      destruct (Z.ltb_spec 4 w); try lia; destruct (Z.ltb_spec 5 w); try lia;
      destruct (Z.ltb_spec 6 w); try lia; destruct (Z.ltb_spec 7 w); try lia. }
  split; [exact Hlen|]. split.
  - unfold hud_wedges. apply Forall_forall. intros cmd Hin.
    apply list_elem_of_In, in_flat_map in Hin as (i & _ & Hin).
    apply list_elem_of_In in Hin.
    exact (proj1 (Forall_forall _ _) (hud_wedge_shape (wedges mario) i) cmd Hin).
  - intros Hh. pose proof (wedges_range mario Hh) as Hr.
    assert (E : wedges mario = (health mario / 256)%Z).
    { unfold wedges. rewrite Z.shiftr_div_pow2 by lia.
      change 0xF%Z with (Z.ones 4). rewrite Z.land_ones by lia.
      change (2 ^ 8)%Z with 256%Z. unfold health_ok in Hh.
      apply Z.mod_small. split; [apply Z.div_pos; lia|].
      apply Z.div_lt_upper_bound; lia. }
    split; [exact E|]. rewrite Hlen, <- E. f_equal. lia.
Qed.

End RenderFacts.


(** Half-way into the fog a lava-red face is drawn half-way to the sky
    colour. *)
Example fog_half_way :
  fog_color (200, 40, 0)%Z (135, 206, 235)%Z 2000 = (167, 123, 117)%Z.
Proof. vm_compute. reflexivity. Qed.

(** ** The logic tick of the main loop *)

Lemma LI_TABLE_starts :
  Forall (fun e : Z * LvlInfo => Qle_bool (-3000) (vy (li_start e.2)) = true) LI_TABLE.
Proof. unfold LI_TABLE. repeat constructor. Qed.

Lemma LI_start_above lid : -3000 <= vy (li_start (LI_get lid)).
Proof.
  unfold LI_get. destruct (LI !! lid) as [info|] eqn:E; cbn [default].
  - apply (elem_of_list_to_map_2 (M := gmap Z)) in E.
    apply Qle_bool_iff.
    exact (proj1 (Forall_forall _ _) LI_TABLE_starts (lid, info) E).
  - cbn. lra.
Qed.

Lemma take_dmg_health_ok amt m :
  (0 <= amt)%Z -> health_ok m -> health_ok (take_dmg amt m).
Proof.
  unfold health_ok, take_dmg. cbv zeta. intros Ha Hh.
  destruct (inv m >? 0)%Z; cbn; lia.
Qed.

Lemma take_dmg_place amt m :
  pos (take_dmg amt m) = pos m /\ action (take_dmg amt m) = action m.
Proof. unfold take_dmg. cbv zeta. destruct (inv m >? 0)%Z; split; reflexivity. Qed.

Lemma floor_effects_health m : health (floor_effects m) = health m.
Proof.
  unfold floor_effects. destruct (floor m) as [fl|]; [|reflexivity].
  destruct (_ && _); [reflexivity|]. destruct (_ =? _)%Z; reflexivity.
Qed.

Section TickFacts.
Context `{MathLib}.
Variable build_level : Z -> list Surface * list Obj.

Lemma read_keys_health keys cyaw ctrl m :
  health (read_keys keys cyaw ctrl m).2 = health m.
Proof.
  unfold read_keys. cbv zeta.
  match goal with |- context [if ?b then (_, _) else _] => destruct b end; reflexivity.
Qed.

Lemma dispatch_health_ok surfs m c :
  Forall surface_wf surfs -> health_ok m ->
  exists m', dispatch surfs m c = Some m' /\ health_ok m'.
Proof.
  intros Hwf Hh. destruct (dispatch_in_table surfs m c) as (a & h & Hin & -> & _).
  destruct (handlers_total surfs a h Hwf Hin m c) as [m' E].
  exists m'. split; [exact E|].
  destruct (handlers_frame surfs a h m c m' Hwf Hin E) as [_ [(Hk & _) | (_ & _ & _ & Hk & _)]];
    unfold health_ok in *; lia.
Qed.

Lemma interact_body_warp cur_lvl ctrl mario o w :
  (interact_body cur_lvl ctrl mario o).2 = Some w -> o_type o = PIPE /\ o_warp o = w.
Proof.
  unfold interact_body. cbv zeta.
  destruct (interactable mario o); cbn [negb]; [|discriminate].
  destruct (o_type o) eqn:Et;
    repeat match goal with |- context [if ?b then _ else _] => destruct b end;
    cbn [snd]; try discriminate.
  intros [= <-]. split; reflexivity.
Qed.

Lemma interact_loop_warp cur_lvl ctrl objs :
  forall mario w,
    (interact_loop cur_lvl ctrl mario objs).2 = Some w ->
    exists o, o ∈ objs /\ o_type o = PIPE /\ o_warp o = w.
Proof.
  induction objs as [|o rest IH]; intros mario w; cbn [interact_loop]; [discriminate|].
  pose proof (interact_body_warp cur_lvl ctrl mario o) as Hb.
  destruct (interact_body cur_lvl ctrl mario o) as [[m1 o1] [w1|]]; cbn [snd] in *.
  - intros [= <-]. exists o. split; [apply list_elem_of_here | apply Hb; reflexivity].
  - specialize (IH m1 w).
    destruct (interact_loop cur_lvl ctrl m1 rest) as [[m2 rest2] r]. cbn [snd] in *.
    intros E. destruct (IH E) as (o' & Hin & Ho'). exists o'.
    split; [apply list_elem_of_further; exact Hin | exact Ho'].
Qed.

(** X30.  One logic tick of the main loop.  Started in the state
    [GAMEPLAY] on a level whose surfaces all have a vertex, whose objects
    have non-negative coin values and damage factors and whose pipes all
    lead to a level of [LI], with the health in [[0, 0x880]], the tick runs
    to its end without raising.  At its end the character is not below the
    height -3000 and the health is still in [[0, 0x880]]; the state is
    [GAMEPLAY] with the death timer untouched, or [DEATH] with the death
    timer reset to 0.  Because the fall-out damage is applied after the
    death check, the tick can end in [GAMEPLAY] with zero health, but only
    with the character put back at the start of the level in free fall. *)
Theorem logic_tick_total (keys : Keys) (frame : Z) (g : Game) :
  g_state g = GAMEPLAY ->
  Forall surface_wf (g_surfs g) ->
  Forall obj_sane (g_objs g) ->
  Forall (fun o => o_type o = PIPE -> is_Some (LI !! o_warp o)) (g_objs g) ->
  health_ok (g_mario g) ->
  exists g',
    logic_tick build_level keys frame g = Some g' /\
    -3000 <= vy (pos (g_mario g')) /\
    health_ok (g_mario g') /\
    ((g_state g' = GAMEPLAY /\ g_dtimer g' = g_dtimer g) \/
     (g_state g' = DEATH /\ g_dtimer g' = 0%Z)) /\
    (g_state g' = GAMEPLAY -> health (g_mario g') = 0%Z ->
     pos (g_mario g') = li_start (LI_get (g_cur_lvl g')) /\
     action (g_mario g') = ACT_FREEFALL).
Proof.
  intros Hst Hwf Hsane Hpipes Hh. unfold logic_tick.
  pose proof (read_keys_health keys (g_cyaw g) (g_ctrl g) (g_mario g)) as Hrk.
  destruct (read_keys keys (g_cyaw g) (g_ctrl g) (g_mario g)) as [ctrl m0].
  cbn [snd] in Hrk.
  assert (Hh0 : health_ok m0) by (unfold health_ok in *; lia).
  destruct (dispatch_health_ok (g_surfs g) m0 ctrl Hwf Hh0) as (m1 & -> & Hh1).
  cbn [mbind option_bind]. cbv zeta.
  set (m2 := floor_effects (tick_timers m1)).
  assert (Hh2 : health_ok m2).
  { unfold health_ok, m2. rewrite floor_effects_health.
    destruct (tick_timers_fields m1) as (_ & _ & ->). exact Hh1. }
  set (objs1 := update_objs m2 frame (g_objs g)).
  assert (Hsane1 : Forall obj_sane objs1).
  { unfold objs1, update_objs. apply Forall_fmap.
    eapply Forall_impl; [exact Hsane|]. intros o [Hc Hd]. unfold compose, obj_sane.
    destruct (update_obj_kept m2 frame o) as (_ & _ & _ & -> & -> & _). auto. }
  pose proof (interact_loop_effect (g_cur_lvl g) ctrl objs1 Hsane1 m2 Hh2) as [Hh3 _].
  pose proof (interact_loop_warp (g_cur_lvl g) ctrl objs1 m2) as Hwarp.
  unfold interact_objs.
  destruct (interact_loop (g_cur_lvl g) ctrl m2 objs1) as [[m3 objs2] wr].
  cbn [fst snd] in Hh3, Hwarp.
  assert (Htail : forall (M : MarioState) surfs objs cur_lvl cam cyaw,
    health_ok M ->
    exists g',
      (let '(mario, state, dtimer) :=
         if (health M <=? 0)%Z
         then (with_lives (lives M - 1)%Z M, DEATH, 0%Z)
         else (M, g_state g, g_dtimer g) in
       let mario :=
         if Qltb (vy (pos mario)) (-3000) then
           take_dmg 0x100
             (with_action ACT_FREEFALL
                (with_fvel 0 (with_vel (mkVec3f 0 0 0)
                   (with_pos (li_start (LI_get cur_lvl)) mario))))
         else mario in
       let cyaw := if k_q keys then cyaw - 3 else cyaw in
       let cyaw := if k_e keys then cyaw + 3 else cyaw in
       let wx := vx (pos mario) - sins cyaw * 800 in
       let wz := vz (pos mario) - coss cyaw * 800 in
       let cam := mkVec3f (vx cam + (wx - vx cam) * 0.1)
                          (vy cam + ((vy (pos mario) + 300) - vy cam) * 0.1)
                          (vz cam + (wz - vz cam) * 0.1) in
       Some (mkGame state mario ctrl surfs objs cur_lvl cam cyaw dtimer)) = Some g' /\
      -3000 <= vy (pos (g_mario g')) /\
      health_ok (g_mario g') /\
      ((g_state g' = GAMEPLAY /\ g_dtimer g' = g_dtimer g) \/
       (g_state g' = DEATH /\ g_dtimer g' = 0%Z)) /\
      (g_state g' = GAMEPLAY -> health (g_mario g') = 0%Z ->
       pos (g_mario g') = li_start (LI_get (g_cur_lvl g')) /\
       action (g_mario g') = ACT_FREEFALL)).
  { intros M surfs objs cur_lvl cam cyaw HM.
    pose proof (LI_start_above cur_lvl) as Hstart.
    destruct (Z.leb_spec (health M) 0) as [Hd|Hd]; cbv beta iota zeta.
    - set (M' := with_lives (lives M - 1)%Z M).
      assert (HM' : health_ok M') by exact HM.
      destruct (Qltb (vy (pos M')) (-3000)) eqn:Ey; eexists; (split; [reflexivity|]);
        cbn [g_mario g_state g_dtimer g_cur_lvl].
      + destruct (take_dmg_place 0x100 (with_action ACT_FREEFALL
                   (with_fvel 0 (with_vel (mkVec3f 0 0 0)
                      (with_pos (li_start (LI_get cur_lvl)) M'))))) as [-> ->].
        split; [exact Hstart|].
        split; [apply take_dmg_health_ok; [lia | exact HM']|].
        split; [right; split; reflexivity | discriminate].
      + apply Qltb_false in Ey.
        split; [exact Ey|]. split; [exact HM'|].
        split; [right; split; reflexivity | discriminate].
    - destruct (Qltb (vy (pos M)) (-3000)) eqn:Ey; eexists; (split; [reflexivity|]);
        cbn [g_mario g_state g_dtimer g_cur_lvl].
      + destruct (take_dmg_place 0x100 (with_action ACT_FREEFALL
                   (with_fvel 0 (with_vel (mkVec3f 0 0 0)
                      (with_pos (li_start (LI_get cur_lvl)) M))))) as [-> ->].
        split; [exact Hstart|].
        split; [apply take_dmg_health_ok; [lia | exact HM]|].
        split; [left; split; [exact Hst | reflexivity]|].
        intros _ _. split; reflexivity.
      + apply Qltb_false in Ey.
        split; [exact Ey|]. split; [exact HM|].
        split; [left; split; [exact Hst | reflexivity]|].
        intros _ H0. lia. }
  destruct wr as [lid|].
  - destruct (Hwarp lid eq_refl) as (o & Hin & Hty & Hw).
    unfold objs1, update_objs in Hin. apply list_elem_of_fmap in Hin as (o0 & -> & Hin0).
    destruct (update_obj_kept m2 frame o0) as (Et & _ & _ & _ & _ & _ & Ew & _).
    rewrite Et in Hty. rewrite Ew in Hw.
    pose proof (proj1 (Forall_forall _ _) Hpipes o0 Hin0 Hty) as [info Hinfo].
    rewrite Hw in Hinfo. rewrite Hinfo. cbn [mbind option_bind].
    destruct (build_level lid) as [surfs' objs']. cbn [mbind option_bind].
    apply Htail. unfold health_ok, enter_level. cbn. lia.
  - cbn [mbind option_bind]. apply Htail. exact Hh3.
Qed.

End TickFacts.

Lemma logic_tick_total_witness :
  g_state game_start = GAMEPLAY /\
  Forall surface_wf (g_surfs game_start) /\
  Forall obj_sane (g_objs game_start) /\
  Forall (fun o => o_type o = PIPE -> is_Some (LI !! o_warp o)) (g_objs game_start) /\
  health_ok (g_mario game_start) /\
  exists g',
    logic_tick (H := scene_math) build_flat keys_none 1 game_start = Some g' /\
    -3000 <= vy (pos (g_mario g')) /\
    health_ok (g_mario g') /\
    ((g_state g' = GAMEPLAY /\ g_dtimer g' = g_dtimer game_start) \/
     (g_state g' = DEATH /\ g_dtimer g' = 0%Z)) /\
    (g_state g' = GAMEPLAY -> health (g_mario g') = 0%Z ->
     pos (g_mario g') = li_start (LI_get (g_cur_lvl g')) /\
     action (g_mario g') = ACT_FREEFALL).
Proof.
  assert (H1 : g_state game_start = GAMEPLAY) by reflexivity.
  assert (H2 : Forall surface_wf (g_surfs game_start)) by (repeat constructor; discriminate).
  assert (H3 : Forall obj_sane (g_objs game_start))
    by (repeat constructor; vm_compute; discriminate).
  assert (H4 : Forall (fun o => o_type o = PIPE -> is_Some (LI !! o_warp o))
                      (g_objs game_start))
    by (repeat constructor; discriminate).
  assert (H5 : health_ok (g_mario game_start)) by (split; vm_compute; discriminate).
  split; [exact H1|]. split; [exact H2|]. split; [exact H3|]. split; [exact H4|].
  split; [exact H5|].
  exact (logic_tick_total (H := scene_math) build_flat keys_none 1 game_start H1 H2 H3 H4 H5).
Defined.

(** A character that starts the tick 3001 units below the origin with one
    wedge of health left is put back at the start of the level with no
    health, and the game goes on: the death check ran before the damage. *)
Example fall_out_after_death_check :
  (fun g' => (g_state g', health (g_mario g'), pos (g_mario g'), action (g_mario g')))
    <$> logic_tick (H := scene_math) build_flat keys_none 1
          (mkGame GAMEPLAY
             (with_health 0x100%Z (with_pos (mkVec3f 0 (-3001) 0)
                (with_action ACT_FREEFALL mario_default)))
             (mkController 0 0 0 0%Z 0%Z) [] [] 0%Z (mkVec3f 0 500 800) 0 0%Z)
  = Some (GAMEPLAY, 0%Z, li_start (LI_get 0), ACT_FREEFALL).
Proof. vm_compute. reflexivity. Qed.
